(** * Token and rate-limit session management

    A shallow embedding of the request middlewares of the API gateway
    (token verification, blacklist, Redis-backed rate-limit store, error
    handler) and of the user service (authentication middleware, rate
    limiter, failed-attempt guard, auth and user controllers, validators),
    with the properties of the token life cycle, of the limiters and of the
    sessions proved about them.

    Time is [Date.now()], in milliseconds.  The Redis server, the users
    table and the JWT library are collaborators: they are modelled by their
    documented behaviour, the handlers are transcribed from the code. *)

From Stdlib Require Import ZArith String Ascii List Bool Lia.
From stdpp Require Import gmap strings pretty.

Open Scope string_scope.
Open Scope Z_scope.

(** ** JavaScript values held in Redis *)

(** A session record, the object [createSession] serialises with
    [JSON.stringify]. *)
Record session := Session {
  user_id : string;
  ip_address : string;
  user_agent : string;
  expires_at : Z
}.

(** A Redis value is a string.  [VInt n] stands for the decimal string of
    the integer [n] (what [INCR] writes), [VJson s] for the JSON text of a
    session record and [VStr s] for any other string. *)
Inductive rval :=
| VStr (s : string)
| VInt (n : Z)
| VJson (s : session).

(** [if (x)] on the reply of [GET]: [null] and the empty string are falsy,
    every other string is truthy (also the string of zero). *)
Definition truthy (v : option rval) : bool :=
  match v with
  | None => false
  | Some (VStr s) => negb (String.eqb s "")
  | Some _ => true
  end.

(** *** Numbers read from strings

    A string is its sequence of code units, here those below 256. *)

(** The white space and the line terminators of the language. *)
Definition is_white (c : ascii) : bool :=
  let n := N_of_ascii c in
  ((9 <=? n) && (n <=? 13) || (n =? 32) || (n =? 160))%N.

Fixpoint skip_white (s : list ascii) : list ascii :=
  match s with
  | c :: r => if is_white c then skip_white r else s
  | [] => []
  end.

(** The value of a digit in a radix, letters counting from ten. *)
Definition digit_of (radix : N) (c : ascii) : option Z :=
  let n := N_of_ascii c in
  let d := (if (48 <=? n) && (n <=? 57) then Some (n - 48)
            else if (97 <=? n) && (n <=? 122) then Some (n - 87)
            else if (65 <=? n) && (n <=? 90) then Some (n - 55)
            else None)%N in
  match d with
  | Some v => if (v <? radix)%N then Some (Z.of_N v) else None
  | None => None
  end.

(** The longest prefix of digits: how many there are, the number they
    write, and what follows them. *)
Fixpoint digits (radix : N) (s : list ascii) (count : nat) (value : Z)
  : nat * Z * list ascii :=
  match s with
  | c :: r =>
      match digit_of radix c with
      | Some d => digits radix r (S count) (value * Z.of_N radix + d)
      | None => (count, value, s)
      end
  | [] => (count, value, [])
  end.

(** [parseInt(s)] of a string, with no radix given: leading white space is
    skipped, a sign and the prefix [0x] are read, then the longest run of
    digits; what follows them is ignored, and without a digit the result is
    [NaN], here [None].  The result is the integer written; JavaScript
    rounds one beyond 2^53 to a double, which a comparison with a smaller
    number cannot tell. *)
Definition parseInt_string (s : string) : option Z :=
  let s0 := skip_white (list_ascii_of_string s) in
  let '(negative, s1) :=
    match s0 with
    | "-"%char :: r => (true, r)
    | "+"%char :: r => (false, r)
    | _ => (false, s0)
    end in
  let '(radix, s2) :=
    match s1 with
    | "0"%char :: "x"%char :: r | "0"%char :: "X"%char :: r => (16%N, r)
    | _ => (10%N, s1)
    end in
  match digits radix s2 0 0 with
  | (O, _, _) => None
  | (_, n, _) => Some (if negative then - n else n)
  end.

(** [parseInt(x)] on the reply of [GET]; the JSON text of a record starts
    with a brace. *)
Definition parseInt (v : rval) : option Z :=
  match v with
  | VInt k => Some k
  | VStr s => parseInt_string s
  | VJson _ => None
  end.

(** What a string converts to as a number: not a number, an infinity, or
    the decimal [mantissa * 10 ^ exponent] it writes. *)
Inductive numeric :=
| NaN
| Infinite (negative : bool)
| Decimal (mantissa exponent : Z).

(** A literal with a radix prefix: digits of the radix up to the end. *)
Definition radix_literal (radix : N) (s : list ascii) : numeric :=
  match digits radix s 0 0 with
  | (S _, n, []) => Decimal n 0
  | _ => NaN
  end.

(** The exponent part, [e] or [E], a sign and digits, or nothing. *)
Definition exponent_part (s : list ascii) : option Z :=
  match s with
  | [] => Some 0
  | c :: r =>
      if Ascii.eqb c "e" || Ascii.eqb c "E" then
        let '(negative, r1) :=
          match r with
          | "-"%char :: r' => (true, r')
          | "+"%char :: r' => (false, r')
          | _ => (false, r)
          end in
        match digits 10 r1 0 0 with
        | (S _, n, []) => Some (if negative then - n else n)
        | _ => None
        end
      else None
  end.

(** An unsigned decimal literal: [Infinity], or digits with an optional
    fraction and exponent, at least one digit before the exponent. *)
Definition unsigned_decimal (negative : bool) (s : list ascii) : numeric :=
  if String.eqb (string_of_list_ascii s) "Infinity" then Infinite negative
  else
    let '(ni, int_part, r) := digits 10 s 0 0 in
    let '(nf, all_digits, r') :=
      match r with
      | "."%char :: f => digits 10 f 0 int_part
      | _ => (O, int_part, r)
      end in
    match (ni + nf)%nat with
    | O => NaN
    | S _ =>
        match exponent_part r' with
        | Some e =>
            Decimal (if negative then - all_digits else all_digits)
                    (e - Z.of_nat nf)
        | None => NaN
        end
    end.

(** The conversion of a string to a number ([Number(s)], and what the
    comparison operators apply to a string operand): white space is trimmed
    at both ends, the empty string is zero, and the rest is a literal with a
    radix prefix or a signed decimal literal, up to the end of the string. *)
Definition to_number (s : string) : numeric :=
  let s0 := rev (skip_white (rev (skip_white (list_ascii_of_string s)))) in
  match s0 with
  | [] => Decimal 0 0
  | "0"%char :: "x"%char :: r | "0"%char :: "X"%char :: r => radix_literal 16 r
  | "0"%char :: "o"%char :: r | "0"%char :: "O"%char :: r => radix_literal 8 r
  | "0"%char :: "b"%char :: r | "0"%char :: "B"%char :: r => radix_literal 2 r
  | "-"%char :: r => unsigned_decimal true r
  | "+"%char :: r => unsigned_decimal false r
  | _ => unsigned_decimal false s0
  end.

(** The least real number whose double is at least the integer [n], as the
    fraction [fst / 2 ^ snd]: half a step of the doubles below [n], a tie
    going to [n], whose mantissa is even.  [n] is a number literal of the
    source, an integer below 2^52 in absolute value. *)
Definition rounds_to_at_least (n : Z) : Z * Z :=
  if n =? 0 then (-1, 1075)
  else
    let k := Z.log2 (Z.abs n) in
    let j := if (0 <? n) && (n =? 2 ^ k) then 54 - k else 53 - k in
    (n * 2 ^ j - 1, j).

(** [x >= n] for a number read from a string and an integer [n]: the
    decimal is rounded to the nearest double first. *)
Definition numeric_ge (x : numeric) (n : Z) : bool :=
  match x with
  | NaN => false
  | Infinite negative => negb negative
  | Decimal m e =>
      let '(a, j) := rounds_to_at_least n in
      if 0 <=? e then m * 10 ^ e * 2 ^ j >=? a
      else m * 2 ^ j >=? a * 10 ^ (- e)
  end.

(** [x >= n] for a reply [x] and a number [n]: [null] converts to zero and
    a string to the number it writes, [NaN] comparing false. *)
Definition js_ge (v : option rval) (n : Z) : bool :=
  match v with
  | None => 0 >=? n
  | Some (VInt k) => k >=? n
  | Some (VStr s) => numeric_ge (to_number s) n
  | Some (VJson _) => false
  end.

(** [Math.ceil(ms / 1000)]. *)
Definition ceil_div (a b : Z) : Z := - ((- a) / b).

(** ** The Redis store *)

Record entry := Entry {
  e_val : rval;
  e_exp : option Z   (* absolute expiry, ms; [None]: no expiry *)
}.

Definition live (t : Z) (e : entry) : bool :=
  match e_exp e with
  | None => true
  | Some x => t <? x
  end.

(** The entry under [k] as a client sees it at time [t]: an expired entry is
    gone. *)
Definition peek (t : Z) (m : gmap string entry) (k : string) : option entry :=
  match m !! k with
  | Some e => if live t e then Some e else None
  | None => None
  end.

Inductive cmd :=
| GET (k : string)
| SETEX (k : string) (seconds : Z) (v : rval)
| DEL (k : string)
| INCR (k : string)
| EXPIRE (k : string) (seconds : Z)
| EXPIRE_NaN (k : string)           (* [EXPIRE k NaN] *)
| TTL (k : string)
| KEYS (prefix : string).

Inductive reply :=
| RNil
| RVal (v : rval)
| RNum (n : Z)
| RKeys (ks : list string)
| RErr.

(** One command executed by the server at time [t].  A time to live that
    is not an integer is refused (value is not an integer or out of range)
    and nothing changes. *)
Definition exec (t : Z) (c : cmd) (m : gmap string entry)
  : reply * gmap string entry :=
  match c with
  | GET k =>
      (match peek t m k with Some e => RVal (e_val e) | None => RNil end, m)
  | SETEX k s v => (RNum 1, <[k := Entry v (Some (t + 1000 * s))]> m)
  | DEL k =>
      (match peek t m k with Some _ => RNum 1 | None => RNum 0 end,
       delete k m)
  | INCR k =>
      match peek t m k with
      | None => (RNum 1, <[k := Entry (VInt 1) None]> m)
      | Some (Entry (VInt n) x) => (RNum (n + 1), <[k := Entry (VInt (n + 1)) x]> m)
      | Some _ => (RErr, m)
      end
  | EXPIRE k s =>
      match peek t m k with
      | None => (RNum 0, m)
      | Some e =>
          if s <=? 0 then (RNum 1, delete k m)
          else (RNum 1, <[k := Entry (e_val e) (Some (t + 1000 * s))]> m)
      end
  | EXPIRE_NaN _ => (RErr, m)
  | TTL k =>
      match peek t m k with
      | None => (RNum (-2), m)
      | Some e =>
          (match e_exp e with
           | None => RNum (-1)
           | Some x => RNum ((x - t + 500) / 1000)
           end, m)
      end
  | KEYS p =>
      (RKeys (filter (fun k => String.prefix p k && bool_decide (is_Some (peek t m k)))
                     (map fst (map_to_list m))), m)
  end.

(** ** Users and tokens *)

Record user := User {
  id : string;
  email : string;
  username : string;
  password : string;
  is_active : bool;
  password_changed_at : option Z   (* a [Date], ms *)
}.

Inductive secret := AccessSecret | RefreshSecret | OtherSecret.

Definition secret_eqb (a b : secret) : bool :=
  match a, b with
  | AccessSecret, AccessSecret | RefreshSecret, RefreshSecret
  | OtherSecret, OtherSecret => true
  | _, _ => false
  end.

(** The claims of a token: [iat] and [exp] are in seconds. *)
Record claims := Claims {
  userId : string;
  role : option string;
  iat : Z;
  exp : option Z
}.

(** What the JWT library reads in a token string: the secret its signature
    verifies under, and its payload. *)
Record jwt_view := JwtView {
  signed_with : secret;
  payload : claims
}.

(** ** Requests *)

Record request := Request {
  authorization : option string;    (* [req.headers.authorization] *)
  ip : string;
  userAgent : string;
  path : string;
  body_email : option string;
  body_username : option string;
  body_password : string;
  body_rememberMe : bool;
  body_refreshToken : option string;
  body_currentPassword : string;
  body_newPassword : string;
  req_user : option string;         (* the id in [req.user], once authenticated *)
  req_token : option string         (* [req.token] *)
}.

(** What the handlers take from outside: the JWT codec, the hash of
    [crypto], the token generators [user.generateJWT] and
    [user.generateRefreshToken] of the [User] model, the validators of
    [utils/validation] (regular expressions over the strings) and the Joi
    schema of the login body.  The properties hold for every choice of
    them. *)
Record libs := Libs {
  jwt_parse : string -> option jwt_view;
  sha256 : string -> string;
  generateJWT : user -> Z -> Z -> string;       (* user, lifetime (s), now (ms) *)
  generateRefreshToken : user -> Z -> string;   (* user, now (ms) *)
  validateEmail : string -> bool * string;      (* isValid, normalized *)
  validateUsername : string -> bool * string;
  validatePasswordStrength : string -> bool;
  new_user_id : list user -> string;
  loginSchema : request -> option request       (* the validated body, if valid *)
}.

(** ** The world a handler runs in *)

Inductive event :=
| Store (c : cmd)
| VerifyPassword (uid : string).

Record world := World {
  now : Z;                      (* [Date.now()] *)
  db : gmap string entry;       (* the Redis server *)
  isReady : bool;               (* [redisClient && redisClient.isReady] *)
  faults : list bool;           (* for each coming store call: does it reject? *)
  users : list user;            (* the users table *)
  lib : libs;
  trace : list event;           (* what was called, in order *)
  errors : nat                  (* store calls that rejected *)
}.

Definition set_now (t : Z) (w : world) : world :=
  World t (db w) (isReady w) (faults w) (users w) (lib w) (trace w) (errors w).
Definition set_db (m : gmap string entry) (w : world) : world :=
  World (now w) m (isReady w) (faults w) (users w) (lib w) (trace w) (errors w).
Definition set_ready (b : bool) (w : world) : world :=
  World (now w) (db w) b (faults w) (users w) (lib w) (trace w) (errors w).
Definition set_faults (fs : list bool) (w : world) : world :=
  World (now w) (db w) (isReady w) fs (users w) (lib w) (trace w) (errors w).
Definition set_users (us : list user) (w : world) : world :=
  World (now w) (db w) (isReady w) (faults w) us (lib w) (trace w) (errors w).
Definition log (e : event) (w : world) : world :=
  World (now w) (db w) (isReady w) (faults w) (users w) (lib w)
        (trace w ++ [e]) (errors w).
Definition count_error (w : world) : world :=
  World (now w) (db w) (isReady w) (faults w) (users w) (lib w)
        (trace w) (S (errors w)).

(** ** Handlers: state and exceptions *)

Inductive error_name :=
| TokenExpiredError
| JsonWebTokenError
| NotBeforeError
| StoreError
| SyntaxError
| TypeError.

Inductive outcome (A : Type) :=
| Ok (a : A)
| Thrown (e : error_name).
Arguments Ok {A} a.
Arguments Thrown {A} e.

Definition M (A : Type) : Type := world -> outcome A * world.

Definition ret {A} (a : A) : M A := fun w => (Ok a, w).
Definition throw {A} (e : error_name) : M A := fun w => (Thrown e, w).
Definition bind {A B} (m : M A) (f : A -> M B) : M B :=
  fun w => match m w with
           | (Ok a, w') => f a w'
           | (Thrown e, w') => (Thrown e, w')
           end.
(** [try { m } catch (e) { h e }]: what [m] did to the world stays done. *)
Definition try_catch {A} (m : M A) (h : error_name -> M A) : M A :=
  fun w => match m w with
           | (Ok a, w') => (Ok a, w')
           | (Thrown e, w') => h e w'
           end.
Definition get_world : M world := fun w => (Ok w, w).

Notation "'let!' x ':=' m 'in' k" := (bind m (fun x => k))
  (at level 10, x name, m at level 200, k at level 200).

(** One call on the Redis client: it is recorded, then rejects when the
    store is failing or the server answers with an error, and otherwise
    runs on the server. *)
Definition call (c : cmd) : M reply := fun w =>
  let w1 := log (Store c) w in
  let failing := match faults w1 with b :: _ => b | [] => false end in
  let w2 := set_faults (tail (faults w1)) w1 in
  if failing then (Thrown StoreError, count_error w2)
  else match exec (now w2) c (db w2) with
       | (RErr, m) => (Thrown StoreError, count_error (set_db m w2))
       | (r, m) => (Ok r, set_db m w2)
       end.

Definition redis_get (k : string) : M (option rval) :=
  let! r := call (GET k) in
  ret (match r with RVal v => Some v | _ => None end).
(** [redisClient.setEx(k, seconds, v)] and [redisClient.set(k, v, {EX:
    seconds})]. *)
Definition redis_setex (k : string) (seconds : Z) (v : rval) : M unit :=
  let! _ := call (SETEX k seconds v) in ret tt.
(** [redisClient.setex(k, seconds, v)], in lower case.  The client that
    [config/database.js] creates with [redis.createClient] (node-redis 4)
    has the methods [setEx] and [SETEX] and none of this name, nor has the
    stand-in client of that file: the call is a [TypeError], and nothing is
    sent to the server. *)
Definition redisClient_setex (k : string) (seconds : Z) (v : rval) : M unit :=
  throw TypeError.
Definition redis_del (k : string) : M unit :=
  let! _ := call (DEL k) in ret tt.
Definition redis_incr (k : string) : M Z :=
  let! r := call (INCR k) in
  ret (match r with RNum n => n | _ => 0 end).
Definition redis_expire (k : string) (seconds : Z) : M unit :=
  let! _ := call (EXPIRE k seconds) in ret tt.
(** [redisClient.expire(k, NaN)]: the command is sent with the text of
    [NaN] for the seconds, and the server refuses it. *)
Definition redis_expire_NaN (k : string) : M unit :=
  let! _ := call (EXPIRE_NaN k) in ret tt.
Definition redis_ttl (k : string) : M Z :=
  let! r := call (TTL k) in
  ret (match r with RNum n => n | _ => 0 end).
Definition redis_keys (p : string) : M (list string) :=
  let! r := call (KEYS p) in
  ret (match r with RKeys ks => ks | _ => [] end).

(** [jwt.verify(token, secret)]: the signature is checked first, then the
    expiry against the clock in seconds. *)
Definition jwt_verify (token : string) (s : secret) : M claims := fun w =>
  match jwt_parse (lib w) token with
  | None => (Thrown JsonWebTokenError, w)
  | Some v =>
      if secret_eqb (signed_with v) s then
        match exp (payload v) with
        | Some e =>
            if now w / 1000 >=? e then (Thrown TokenExpiredError, w)
            else (Ok (payload v), w)
        | None => (Ok (payload v), w)
        end
      else (Thrown JsonWebTokenError, w)
  end.

(** [jwt.decode(token)]: the payload, with no check of the signature. *)
Definition jwt_decode (token : string) (w : world) : option claims :=
  option_map payload (jwt_parse (lib w) token).

(** ** Responses *)

Definition authenticated (uid token : string) (r : request) : request :=
  Request (authorization r) (ip r) (userAgent r) (path r) (body_email r)
          (body_username r) (body_password r) (body_rememberMe r)
          (body_refreshToken r) (body_currentPassword r) (body_newPassword r)
          (Some uid) (Some token).

(** The request with another address in its body. *)
Definition with_email (e : string) (r : request) : request :=
  Request (authorization r) (ip r) (userAgent r) (path r) (Some e)
          (body_username r) (body_password r) (body_rememberMe r)
          (body_refreshToken r) (body_currentPassword r) (body_newPassword r)
          (req_user r) (req_token r).

Record response := Response {
  status : Z;
  error : string;
  code : option string;
  tokens : option (string * string)   (* access and refresh token issued *)
}.

(** A middleware either passes the request on ([next()]) or answers. *)
Inductive result :=
| Next (r : request)
| Respond (r : response).

Definition reject (st : Z) (err : string) (c : option string) : M result :=
  ret (Respond (Response st err c None)).

(** The token of an [Authorization: Bearer ...] header. *)
Definition bearer (h : option string) : option string :=
  match h with
  | Some a =>
      if String.prefix "Bearer " a
      then Some (String.substring 7 (String.length a - 7) a)
      else None
  | None => None
  end.

(** A string used as a condition: the empty string is falsy. *)
Definition nonempty (s : option string) : option string :=
  match s with
  | Some x => if String.eqb x "" then None else Some x
  | None => None
  end.

(** ** API gateway *)

Module Gateway.

(** [config.redis.prefix] and [config.redis.ttl.cache]. *)
Definition prefix : string := "ai-review:".
Definition ttl_cache : Z := 60 * 60.

Definition blacklist_key (token : string) : string :=
  prefix +:+ "blacklist:" +:+ token.
Definition user_cache_key (uid : string) : string :=
  prefix +:+ "user:" +:+ uid.

Definition auth_failed (e : error_name) : response :=
  Response 401 "Authentication failed"
    (Some match e with
          | TokenExpiredError => "TOKEN_EXPIRED"
          | JsonWebTokenError => "INVALID_TOKEN"
          | NotBeforeError => "TOKEN_NOT_ACTIVE"
          | _ => "AUTH_ERROR"
          end)
    None.

(** [verifyToken]: the blacklist is consulted only when the client is
    ready; every exception ends in a 401.  The profile cached under the
    identity, [JSON.stringify(req.user)], is abridged to the id. *)
Definition verifyToken (req : request) : M result :=
  try_catch
    (match bearer (authorization req) with
     | None => reject 401 "Access denied" (Some "NO_TOKEN")
     | Some token =>
         let! w := get_world in
         let! isBlacklisted :=
           (if isReady w
            then let! b := redis_get (blacklist_key token) in ret (truthy b)
            else ret false) in
         if isBlacklisted
         then reject 401 "Token invalid" (Some "TOKEN_REVOKED")
         else
           let! decoded := jwt_verify token AccessSecret in
           let! w := get_world in
           let currentTime := now w / 1000 in
           if match exp decoded with Some e => e <? currentTime | None => false end
           then reject 401 "Token expired" (Some "TOKEN_EXPIRED")
           else
             let! _ :=
               (if isReady w
                then redis_setex (user_cache_key (userId decoded)) ttl_cache
                                 (VStr (userId decoded))
                else ret tt) in
             ret (Next (authenticated (userId decoded) token req))
     end)
    (fun e => ret (Respond (auth_failed e))).

(** [blacklistToken]: the entry lives for the seconds the token has left. *)
Definition blacklistToken (token : string) : M unit :=
  let! w := get_world in
  if isReady w then
    try_catch
      (match jwt_decode token w with
       | Some decoded =>
           match exp decoded with
           | Some e =>
               if e =? 0 then ret tt
               else
                 let ttl := e - now w / 1000 in
                 if ttl >? 0
                 then redis_setex (blacklist_key token) ttl (VStr "true")
                 else ret tt
           | None => ret tt
           end
       | None => ret tt
       end)
      (fun _ => ret tt)
  else ret tt.

(** [POST /auth/logout]: [verifyToken], then the token is blacklisted. *)
Definition logout (req : request) : M result :=
  let! r := verifyToken req in
  match r with
  | Next req' =>
      let! _ := match req_token req' with
                | Some token => blacklistToken token
                | None => ret tt
                end in
      ret (Respond (Response 200 "" None None))
  | Respond _ => ret r
  end.

(** [req.user = decoded]: the identity is attached, [req.token] stays as
    it was. *)
Definition with_user (uid : string) (r : request) : request :=
  Request (authorization r) (ip r) (userAgent r) (path r) (body_email r)
          (body_username r) (body_password r) (body_rememberMe r)
          (body_refreshToken r) (body_currentPassword r) (body_newPassword r)
          (Some uid) (req_token r).

(** [extractUser]: the optional middleware.  The token of the header is
    verified and its identity attached; every exception is ignored and the
    request is passed on in any case. *)
Definition extractUser (req : request) : M result :=
  let! req' :=
    try_catch
      (match bearer (authorization req) with
       | Some token =>
           let! decoded := jwt_verify token AccessSecret in
           ret (with_user (userId decoded) req)
       | None => ret req
       end)
      (fun _ => ret req) in
  ret (Next req').

(** *** Rate limiting *)

(** What the store reports; [timeToExpire] is [None] when it is
    [undefined]. *)
Record hits := Hits { totalHits : Z; timeToExpire : option Z }.

(** [RedisStore.increment(key, windowMs)]; [windowMs] is [None] when the
    caller passes no second argument.  The expiry is asked for when the
    counter has just been created, [Math.ceil(windowMs / 1000)] seconds
    ahead, which is [NaN] for [undefined]; without a ready client, and on
    any error, one hit is reported. *)
Definition increment (store_prefix key : string) (windowMs : option Z)
  : M hits :=
  let! w := get_world in
  if negb (isReady w) then ret (Hits 1 windowMs)
  else
    try_catch
      (let redisKey := store_prefix +:+ key in
       let! current := redis_incr redisKey in
       let! _ := (if current =? 1
                  then match windowMs with
                       | Some ms => redis_expire redisKey (ceil_div ms 1000)
                       | None => redis_expire_NaN redisKey
                       end
                  else ret tt) in
       let! ttl := redis_ttl redisKey in
       ret (Hits current (Some (ttl * 1000))))
      (fun _ => ret (Hits 1 windowMs)).

(** [RedisStore.resetKey]: the counter is deleted; nothing is done without
    a ready client, and an error is only logged. *)
Definition resetKey (store_prefix key : string) : M unit :=
  let! w := get_world in
  if negb (isReady w) then ret tt
  else try_catch (redis_del (store_prefix +:+ key)) (fun _ => ret tt).

Definition keyGenerator (req : request) : string :=
  match nonempty (req_user req) with
  | Some uid => "user:" +:+ uid
  | None => "ip:" +:+ ip req
  end.

Record limiter := Limiter {
  windowMs : Z;
  max : Z;
  store_prefix : string;
  limit_code : string;
  limit_error : string;
  skip_health : bool
}.

(** The four limiters, with the defaults of [config.rateLimiting]. *)
Definition generalLimiter : limiter :=
  Limiter (15 * 60 * 1000) 50000 "general:" "RATE_LIMIT_EXCEEDED"
          "Too many requests" true.
Definition authLimiter : limiter :=
  Limiter (15 * 60 * 1000) 10000 "auth:" "AUTH_RATE_LIMIT_EXCEEDED"
          "Too many authentication attempts" false.
Definition uploadLimiter : limiter :=
  Limiter (60 * 1000) 50 "upload:" "UPLOAD_RATE_LIMIT_EXCEEDED"
          "Too many uploads" false.
Definition analysisLimiter : limiter :=
  Limiter (5 * 60 * 1000) 1000 "analysis:" "ANALYSIS_RATE_LIMIT_EXCEEDED"
          "Too many analysis requests" false.

(** The middleware the library [express-rate-limit] builds from a limiter
    ([rateLimit({windowMs, max, store, keyGenerator, handler, skip,
    standardHeaders, legacyHeaders})]): unless the request is skipped, it
    asks the store to count it and calls the limiter's handler when the
    count exceeds [max].  The versions of the library that know these
    options and the method [increment] of a store (6 and later) call
    [store.increment(key)], with the key alone: the window of the limiter
    does not reach the store. *)
Definition rateLimit (l : limiter) (req : request) : M result :=
  if skip_health l && (String.eqb (path req) "/health" || String.eqb (path req) "/metrics")
  then ret (Next req)
  else
    let! h := increment (store_prefix l) (keyGenerator req) None in
    if totalHits h >? max l
    then reject 429 (limit_error l) (Some (limit_code l))
    else ret (Next req).

(** The same request arriving at each of the times [ts], in order. *)
Fixpoint requests_at (l : limiter) (req : request) (ts : list Z) (w : world)
  : list (outcome result) * world :=
  match ts with
  | [] => ([], w)
  | t :: ts' =>
      let (r, w1) := rateLimit l req (set_now t w) in
      let (rs, w2) := requests_at l req ts' w1 in
      (r :: rs, w2)
  end.

End Gateway.

(** ** User service *)

Module UserService.

(** *** The users table *)

(** Modelled from the spec: [User.findById], [User.findByEmail] and
    [User.findByUsername] of the [User] model, the identity store's
    [find_by_id] and [find_by_email], which return the record of the
    identity or not-found. *)
Definition findById (uid : string) (w : world) : option user :=
  find (fun u => String.eqb (id u) uid) (users w).
Definition findByEmail (e : string) (w : world) : option user :=
  find (fun u => String.eqb (email u) e) (users w).
Definition findByUsername (n : string) (w : world) : option user :=
  find (fun u => String.eqb (username u) n) (users w).

(** Modelled from the spec: [user.updateProfile] of the [User] model, for
    the two fields a password change writes, [password_hash] and
    [password_changed_at]. *)
Definition updatePassword (uid pw : string) (t : Z) : M unit := fun w =>
  (Ok tt,
   set_users
     (map (fun u => if String.eqb (id u) uid
                    then User (id u) (email u) (username u) pw (is_active u) (Some t)
                    else u)
          (users w))
     w).

(** Modelled from the spec: [User.create] of the [User] model; the new
    identity is active and has no password change yet. *)
Definition create (e n pw : string) : M user := fun w =>
  let u := User (new_user_id (lib w) (users w)) e n pw true None in
  (Ok u, set_users (users w ++ [u]) w).

(** Modelled from the spec: [user.verifyPassword] of the [User] model, the
    credential check; the hash is left out, the passwords are compared. *)
Definition verifyPassword (u : user) (pw : string) : M bool := fun w =>
  (Ok (String.eqb (password u) pw), log (VerifyPassword (id u)) w).

(** *** Authentication middleware *)

Definition blacklisted_key (token : string) : string :=
  "blacklisted_token:" +:+ token.

Definition authenticateToken (req : request) : M result :=
  try_catch
    (match nonempty (bearer (authorization req)) with
     | None => reject 401 "Access token required" None
     | Some token =>
         let! isBlacklisted := redis_get (blacklisted_key token) in
         if truthy isBlacklisted then reject 401 "Token revoked" None
         else
           let! v :=
             try_catch
               (let! decoded := jwt_verify token AccessSecret in
                ret (inr decoded))
               (fun e =>
                  match e with
                  | TokenExpiredError =>
                      ret (inl (Response 401 "Token expired" (Some "TOKEN_EXPIRED") None))
                  | JsonWebTokenError =>
                      ret (inl (Response 401 "Invalid token" None None))
                  | _ => throw e
                  end) in
           match v with
           | inl r => ret (Respond r)
           | inr decoded =>
               let! w := get_world in
               match findById (userId decoded) w with
               | None => reject 401 "User not found" None
               | Some user =>
                   if negb (is_active user)
                   then reject 403 "Account disabled" None
                   else if match password_changed_at user with
                           | Some t => iat decoded <? t / 1000
                           | None => false
                           end
                   then reject 401 "Password changed" (Some "PASSWORD_CHANGED")
                   else ret (Next (authenticated (id user) token req))
               end
           end
     end)
    (fun _ => reject 500 "Authentication failed" None).

(** [optionalAuth]: the same checks, none of which blocks; the identity is
    attached when all of them pass. *)
Definition optionalAuth (req : request) : M result :=
  try_catch
    (match nonempty (bearer (authorization req)) with
     | None => ret (Next req)
     | Some token =>
         try_catch
           (let! isBlacklisted := redis_get (blacklisted_key token) in
            if truthy isBlacklisted then ret (Next req)
            else
              let! decoded := jwt_verify token AccessSecret in
              let! w := get_world in
              match findById (userId decoded) w with
              | Some user =>
                  if is_active user
                  then if match password_changed_at user with
                          | Some t => iat decoded >=? t / 1000
                          | None => true
                          end
                       then ret (Next (authenticated (id user) token req))
                       else ret (Next req)
                  else ret (Next req)
              | None => ret (Next req)
              end)
           (fun _ => ret (Next req))
     end)
    (fun _ => ret (Next req)).

(** *** Rate limiter *)

Record options := Options {
  windowMs : Z;
  max : Z;
  skipSuccessfulRequests : bool;
  skipFailedRequests : bool
}.

Definition keyGenerator (req : request) : string :=
  match req_user req with
  | Some uid => "user:" +:+ uid
  | None => "ip:" +:+ ip req
  end.

Definition windowStart (o : options) (t : Z) : Z :=
  t / windowMs o * windowMs o.

Definition redisKey (o : options) (req : request) (t : Z) : string :=
  "ratelimit:" +:+ keyGenerator req +:+ ":" +:+ pretty (windowStart o t).

(** The middleware.  An admitted request comes with the key its
    [finish] listener will count under; a rejected request, and one let
    through after an error, registers no listener. *)
Definition rateLimiter (o : options) (req : request)
  : M (result * option string) :=
  try_catch
    (let! w := get_world in
     let key := redisKey o req (now w) in
     let! reply := redis_get key in
     let requests := if truthy reply
                     then match reply with Some v => parseInt v | None => None end
                     else Some 0 in
     if match requests with Some n => n >=? max o | None => false end
     then ret (Respond (Response 429 "Rate limit exceeded" None None), None)
     else ret (Next req, Some key))
    (fun _ => ret (Next req, None)).

(** The [finish] listener of an admitted request. *)
Definition onFinish (o : options) (key : string) (statusCode : Z) : M unit :=
  let shouldSkip :=
    (skipSuccessfulRequests o && (statusCode <? 400))
    || (skipFailedRequests o && (statusCode >=? 400)) in
  if shouldSkip then ret tt
  else
    let! _ := redis_incr key in
    redis_expire key (ceil_div (windowMs o) 1000).

(** A request served at time [t]: the middleware, then, when it was let
    through, the [finish] listener with the status of the response (the
    response is taken to finish before the next request arrives). *)
Definition serve (o : options) (req : request) (statusCode : Z) (t : Z)
           (w : world) : outcome result * world :=
  let (r, w1) := rateLimiter o req (set_now t w) in
  match r with
  | Ok (res, Some key) =>
      let (_, w2) := onFinish o key statusCode w1 in (Ok res, w2)
  | Ok (res, None) => (Ok res, w1)
  | Thrown e => (Thrown e, w1)
  end.

Fixpoint requests_at (o : options) (req : request) (statusCode : Z)
         (ts : list Z) (w : world) : list (outcome result) * world :=
  match ts with
  | [] => ([], w)
  | t :: ts' =>
      let (r, w1) := serve o req statusCode t w in
      let (rs, w2) := requests_at o req statusCode ts' w1 in
      (r :: rs, w2)
  end.

(** Requests in flight together: the middleware runs for each request as
    it arrives, at the times [ts]; the [finish] listeners of those let
    through run afterwards, at time [tf], when the responses are sent. *)
Fixpoint arrive (o : options) (req : request) (ts : list Z) (w : world)
  : list (outcome (result * option string)) * world :=
  match ts with
  | [] => ([], w)
  | t :: ts' =>
      let (r, w1) := rateLimiter o req (set_now t w) in
      let (rs, w2) := arrive o req ts' w1 in
      (r :: rs, w2)
  end.

Fixpoint finish (o : options) (statusCode : Z)
         (rs : list (outcome (result * option string))) (w : world) : world :=
  match rs with
  | [] => w
  | Ok (_, Some key) :: rs' =>
      finish o statusCode rs' (snd (onFinish o key statusCode w))
  | _ :: rs' => finish o statusCode rs' w
  end.

Definition burst (o : options) (req : request) (statusCode : Z)
           (ts : list Z) (tf : Z) (w : world)
  : list (outcome (result * option string)) * world :=
  let (rs, w1) := arrive o req ts w in
  (rs, finish o statusCode rs (set_now tf w1)).

(** *** Failed-attempt guard *)

Definition failed_user_key (uid : string) : string :=
  "failed_attempts:user:" +:+ uid.
Definition failed_ip_key (addr : string) : string :=
  "failed_attempts:ip:" +:+ addr.

Definition maxUserAttempts : Z := 5.
Definition maxIpAttempts : Z := 10.

Definition checkFailedAttempts (req : request) : M result :=
  try_catch
    (match nonempty (body_email req) with
     | None => ret (Next req)
     | Some e =>
         let! w := get_world in
         let! userAttempts :=
           match findByEmail e w with
           | Some user => redis_get (failed_user_key (id user))
           | None => ret (Some (VInt 0))
           end in
         let! reply := redis_get (failed_ip_key (ip req)) in
         let ipAttempts := if truthy reply then reply else Some (VInt 0) in
         if js_ge userAttempts maxUserAttempts
         then reject 429 "Account temporarily locked" (Some "ACCOUNT_LOCKED")
         else if js_ge ipAttempts maxIpAttempts
         then reject 429 "IP temporarily blocked" (Some "IP_BLOCKED")
         else ret (Next req)
     end)
    (fun _ => ret (Next req)).

(** *** Auth controller *)

Definition refresh_key (uid : string) : string := "refresh_token:" +:+ uid.
Definition session_key (w : world) (token : string) : string :=
  "session:" +:+ sha256 (lib w) token.

Definition day : Z := 24 * 60 * 60.

(** A call whose rejection is only logged. *)
Definition quietly {A} (m : M A) : M unit :=
  try_catch (let! _ := m in ret tt) (fun _ => ret tt).

Definition createSession (uid addr agent token : string) : M unit :=
  quietly
    (let! w := get_world in
     let sessionData := Session uid addr agent (now w + day * 1000) in
     redis_setex (session_key w token) day (VJson sessionData)).

(** The loop of [removeUserSessions] over the keys [session:*]. *)
Fixpoint removeSessionsOf (uid : string) (keys : list string) : M unit :=
  match keys with
  | [] => ret tt
  | key :: rest =>
      let! sessionData := redis_get key in
      let! _ :=
        (if truthy sessionData then
           match sessionData with
           | Some (VJson s) =>
               if String.eqb (user_id s) uid then redis_del key else ret tt
           | Some (VInt _) => ret tt
           | _ => throw SyntaxError
           end
         else ret tt) in
      removeSessionsOf uid rest
  end.

Definition removeUserSessions (uid : string) : M unit :=
  quietly
    (let! keys := redis_keys "session:" in
     removeSessionsOf uid keys).

(** [Promise.all] of the four commands: each is sent, a rejection is
    caught and logged. *)
Definition incrementFailedAttempts (uid addr : string) : M unit :=
  let! _ := quietly (redis_incr (failed_user_key uid)) in
  let! _ := quietly (redis_expire (failed_user_key uid) (15 * 60)) in
  let! _ := quietly (redis_incr (failed_ip_key addr)) in
  quietly (redis_expire (failed_ip_key addr) (15 * 60)).

Definition resetFailedAttempts (uid addr : string) : M unit :=
  let! _ := quietly (redis_del (failed_user_key uid)) in
  quietly (redis_del (failed_ip_key addr)).

Definition success (st : Z) (t : option (string * string)) : M result :=
  ret (Respond (Response st "" None t)).

Definition register (req : request) : M result :=
  try_catch
    (let! w := get_world in
     match body_email req with
     | None => throw TypeError
     | Some e =>
         let emailValidation := validateEmail (lib w) e in
         if negb (fst emailValidation)
         then reject 400 "Invalid email format" None
         else
           match body_username req with
           | None => throw TypeError
           | Some n =>
               let usernameValidation := validateUsername (lib w) n in
               if negb (fst usernameValidation)
               then reject 400 "Invalid username format" None
               else if negb (validatePasswordStrength (lib w) (body_password req))
               then reject 400 "Password does not meet security requirements" None
               else
                 match findByEmail (snd emailValidation) w with
                 | Some _ => reject 409 "User already exists" None
                 | None =>
                     match findByUsername (snd usernameValidation) w with
                     | Some _ => reject 409 "Username taken" None
                     | None =>
                         let! user := create (snd emailValidation)
                                             (snd usernameValidation)
                                             (body_password req) in
                         let token := generateJWT (lib w) user day (now w) in
                         let refreshToken :=
                           generateRefreshToken (lib w) user (now w) in
                         let! _ := redis_setex (refresh_key (id user)) (7 * day)
                                               (VStr refreshToken) in
                         success 201 (Some (token, refreshToken))
                     end
                 end
           end
     end)
    (fun _ => reject 500 "Registration failed" None).

(** [login].  [user.updateLastLogin()] writes a column the model leaves
    out. *)
Definition login (req : request) : M result :=
  try_catch
    (let! w := get_world in
     match match body_email req with
           | Some e => findByEmail e w
           | None => None
           end with
     | None => reject 401 "USER_NOT_FOUND" None
     | Some user =>
         if negb (is_active user) then reject 403 "ACCOUNT_DISABLED" None
         else
           let! isPasswordValid := verifyPassword user (body_password req) in
           if negb isPasswordValid then
             let! _ := incrementFailedAttempts (id user) (ip req) in
             reject 401 "INCORRECT_PASSWORD" None
           else
             let! _ := resetFailedAttempts (id user) (ip req) in
             let tokenExpiry := if body_rememberMe req then 7 * day else day in
             let token := generateJWT (lib w) user tokenExpiry (now w) in
             let refreshToken := generateRefreshToken (lib w) user (now w) in
             let refreshTokenExpiry :=
               if body_rememberMe req then 30 * day else 7 * day in
             let! _ := redis_setex (refresh_key (id user)) refreshTokenExpiry
                                   (VStr refreshToken) in
             let! _ := createSession (id user) (ip req) (userAgent req) token in
             success 200 (Some (token, refreshToken))
     end)
    (fun _ => reject 500 "SERVER_ERROR" None).

(** [logout]: the refresh token is deleted, then the token is to be put
    on the blacklist, with [redisClient.setex]. *)
Definition logout (req : request) : M result :=
  try_catch
    (match req_user req with
     | None => throw TypeError
     | Some uid =>
         let token := match req_token req with
                      | Some t => t
                      | None => "undefined"
                      end in
         let! _ := redis_del (refresh_key uid) in
         let! _ := redisClient_setex (blacklisted_key token) day (VStr "true") in
         let! _ := removeUserSessions uid in
         success 200 None
     end)
    (fun _ => reject 500 "Logout failed" None).

(** [storedToken !== refreshToken] on the reply of [GET]. *)
Definition same_string (v : rval) (s : string) : bool :=
  match v with
  | VStr x => String.eqb x s
  | VInt n => String.eqb (pretty n) s
  | VJson _ => false
  end.

(** [refreshToken]: the new refresh token is to be stored with
    [redisClient.setex]. *)
Definition refreshToken (req : request) : M result :=
  try_catch
    (match nonempty (body_refreshToken req) with
     | None => reject 400 "Missing refresh token" None
     | Some presented =>
         let! v := try_catch
                     (let! decoded := jwt_verify presented RefreshSecret in
                      ret (Some decoded))
                     (fun _ => ret None) in
         match v with
         | None => reject 401 "Invalid refresh token" None
         | Some decoded =>
             let! storedToken := redis_get (refresh_key (userId decoded)) in
             if negb (truthy storedToken)
                || negb match storedToken with
                        | Some x => same_string x presented
                        | None => false
                        end
             then reject 401 "Invalid refresh token" None
             else
               let! w := get_world in
               match findById (userId decoded) w with
               | None => reject 401 "User not found or inactive" None
               | Some user =>
                   if negb (is_active user)
                   then reject 401 "User not found or inactive" None
                   else
                     let newAccessToken := generateJWT (lib w) user day (now w) in
                     let newRefreshToken := generateRefreshToken (lib w) user (now w) in
                     let! _ := redisClient_setex (refresh_key (id user)) (7 * day)
                                                 (VStr newRefreshToken) in
                     success 200 (Some (newAccessToken, newRefreshToken))
               end
         end
     end)
    (fun _ => reject 500 "Token refresh failed" None).

(** *** User controller: password change *)

(** The helper [invalidateAllUserSessions] of [UserController]. *)
Definition invalidateAllUserSessions (uid : string) : M unit :=
  quietly
    (let! keys := redis_keys "session:" in
     let! _ := removeSessionsOf uid keys in
     redis_del (refresh_key uid)).

(** [this] inside a handler of [UserController], as Express calls it.
    [routes/users.js] hands the handlers to the router as
    [userController.changePassword] and [userController.deleteAccount], and
    the class, unlike [AuthController], binds none of its methods: [this] is
    undefined, here [None]. *)
Definition this_of_handler : option unit := None.

(** [this.method(...)]: reading a property of [undefined] is a
    [TypeError], and the method is not entered. *)
Definition call_on {A} (this : option unit) (method : M A) : M A :=
  match this with
  | Some _ => method
  | None => throw TypeError
  end.

(** [changePassword], as the route [PUT /users/password] calls it. *)
Definition changePassword (req : request) : M result :=
  try_catch
    (match req_user req with
     | None => throw TypeError
     | Some uid =>
         let! w := get_world in
         match findById uid w with
         | None => reject 404 "User not found" None
         | Some user =>
             let! isCurrentPasswordValid :=
               verifyPassword user (body_currentPassword req) in
             if negb isCurrentPasswordValid
             then reject 400 "Invalid current password" None
             else if negb (validatePasswordStrength (lib w) (body_newPassword req))
             then reject 400 "Password does not meet security requirements" None
             else if String.eqb (body_newPassword req) (password user)
             then reject 400 "Same password" None
             else
               let! _ := updatePassword uid (body_newPassword req) (now w) in
               let! _ := call_on this_of_handler (invalidateAllUserSessions uid) in
               success 200 None
         end
     end)
    (fun _ => reject 500 "Password change failed" None).

(** *** User controller: account deletion and sessions *)

(** Modelled from the spec: [user.updateProfile] of the [User] model, the
    identity store, for the fields an account deletion writes, [is_active]
    and [email]; [deleted_at] is a column the model leaves out. *)
Definition updateProfile (uid : string) (active : bool) (e : string)
  : M unit := fun w =>
  (Ok tt,
   set_users
     (map (fun u => if String.eqb (id u) uid
                    then User (id u) e (username u) (password u) active
                              (password_changed_at u)
                    else u)
          (users w))
     w).

(** [deleteAccount], as the route [DELETE /users/account] calls it;
    [confirmDeletion] is the field of that name of the body. *)
Definition deleteAccount (confirmDeletion : bool) (req : request) : M result :=
  try_catch
    (match req_user req with
     | None => throw TypeError
     | Some uid =>
         if negb confirmDeletion
         then reject 400 "Deletion not confirmed" None
         else
           let! w := get_world in
           match findById uid w with
           | None => reject 404 "User not found" None
           | Some user =>
               let! isPasswordValid := verifyPassword user (body_password req) in
               if negb isPasswordValid
               then reject 400 "Invalid password" None
               else
                 let! w := get_world in
                 let! _ := updateProfile uid false
                             ("deleted_" +:+ pretty (now w) +:+ "_" +:+ email user) in
                 let! _ := call_on this_of_handler (invalidateAllUserSessions uid) in
                 success 200 None
           end
     end)
    (fun _ => reject 500 "Account deletion failed" None).

(** [revokeSession]; [sessionId] is the parameter of the route
    [DELETE /users/sessions/:sessionId]. *)
Definition revokeSession (sessionId : string) (req : request) : M result :=
  try_catch
    (match req_user req with
     | None => throw TypeError
     | Some _ =>
         let! _ := redis_del ("session:" +:+ sessionId) in
         success 200 None
     end)
    (fun _ => reject 500 "Failed to revoke session" None).

(** [key.replace] with a string pattern and the empty replacement: the
    first occurrence of the pattern is removed. *)
Fixpoint remove_first (pat s : string) : string :=
  if String.prefix pat s
  then String.substring (String.length pat)
                        (String.length s - String.length pat) s
  else match s with
       | String c s' => String c (remove_first pat s')
       | EmptyString => EmptyString
       end.

(** [s.includes(pat)]. *)
Fixpoint includes (pat s : string) : bool :=
  String.prefix pat s
  || match s with
     | String _ s' => includes pat s'
     | EmptyString => false
     end.

(** An element of the list [getActiveSessions] answers with; [created_at]
    is not a field of the stored record and is left out. *)
Record session_view := SessionView {
  view_id : string;
  view_ip_address : string;
  view_user_agent : string;
  view_expires_at : Z;
  is_current : bool
}.

(** The loop of [getActiveSessions] over the keys [session:*]; [current]
    is the hash of [req.token], or the empty string. *)
Fixpoint collectSessions (uid current : string) (keys : list string)
  : M (list session_view) :=
  match keys with
  | [] => ret []
  | key :: rest =>
      let! sessionData := redis_get key in
      let! found :=
        (if truthy sessionData then
           match sessionData with
           | Some (VJson s) =>
               if String.eqb (user_id s) uid
               then ret [SessionView (remove_first "session:" key)
                                     (ip_address s) (user_agent s) (expires_at s)
                                     (includes current key)]
               else ret []
           | Some (VInt _) => ret []
           | _ => throw SyntaxError
           end
         else ret []) in
      let! more := collectSessions uid current rest in
      ret (found ++ more)%list
  end.

(** [getActiveSessions]: the list of the sessions, or [None] for the
    answer 500.  The final [sort] compares [created_at], which no record
    has: its comparator is [NaN] for every pair, and the order is kept. *)
Definition getActiveSessions (req : request)
  : M (option (list session_view)) :=
  try_catch
    (match req_user req with
     | None => throw TypeError
     | Some uid =>
         let! w := get_world in
         let! keys := redis_keys "session:" in
         let current := match req_token req with
                        | Some token => sha256 (lib w) token
                        | None => ""
                        end in
         let! sessions := collectSessions uid current keys in
         ret (Some sessions)
     end)
    (fun _ => ret None).

(** *** Routes *)

(** A middleware chain: the next one runs when the previous called
    [next()]. *)
Definition and_then (m : M result) (k : request -> M result) : M result :=
  let! r := m in
  match r with
  | Next req => k req
  | Respond _ => ret r
  end.

(** [validate(schema)]: the body is replaced by its validated form. *)
Definition validate (schema : libs -> request -> option request)
           (req : request) : M result :=
  let! w := get_world in
  match schema (lib w) req with
  | Some req' => ret (Next req')
  | None => reject 400 "Validation failed" (Some "VALIDATION_ERROR")
  end.

(** [POST /auth/login] after its rate limiter: the guard, the validation
    of the body, then the controller. *)
Definition loginRoute (req : request) : M result :=
  and_then (and_then (checkFailedAttempts req) (validate loginSchema)) login.

(** [POST /auth/logout]. *)
Definition logoutRoute (req : request) : M result :=
  and_then (authenticateToken req) logout.

End UserService.

(** ** Validators of the user service *)

(** [utils/validation]: the password and username checks [register] and
    [changePassword] call.  A string is its sequence of code units, here
    those below 256. *)
Module Validation.

Definition between (lo hi : N) (c : ascii) : bool :=
  ((lo <=? N_of_ascii c) && (N_of_ascii c <=? hi))%N.

(** [/[a-z]/], [/[A-Z]/] and [/\d/]. *)
Definition is_lower (c : ascii) : bool := between 97 122 c.
Definition is_upper (c : ascii) : bool := between 65 90 c.
Definition is_digit (c : ascii) : bool := between 48 57 c.

(** The class of the special characters of the fifth check: the double
    quote, and those listed here. *)
Definition special_characters : list ascii :=
  "034"%char :: list_ascii_of_string "!@#$%^&*(),.?:{}|<>".
Definition is_special (c : ascii) : bool :=
  existsb (Ascii.eqb c) special_characters.

(** [/\s/] on the code units below 256. *)
Definition is_space (c : ascii) : bool :=
  between 9 13 c || between 32 32 c || between 160 160 c.

(** [regex.test(s)] for a character class. *)
Definition test (class : ascii -> bool) (s : string) : bool :=
  existsb class (list_ascii_of_string s).

(** [config.security.passwordMinLength]. *)
Definition passwordMinLength : Z := 6.

Inductive strength_name := weak | medium | strong.

Record password_report := PasswordReport {
  isValid : bool;
  score : nat;
  strength : strength_name
}.

Definition password_checks (password : string) : list bool :=
  [ passwordMinLength <=? Z.of_nat (String.length password);
    test is_lower password;
    test is_upper password;
    test is_digit password;
    test is_special password ].

Definition validatePasswordStrength (password : string) : password_report :=
  let score := length (List.filter (fun b : bool => b) (password_checks password)) in
  PasswordReport (3 <=? score)%nat score
    (if (score <? 2)%nat then weak else if (score <? 4)%nat then medium else strong).

(** [s.toLowerCase()] on the code units below 256: the letters of ASCII
    and of Latin-1. *)
Definition lower_char (c : ascii) : ascii :=
  if is_upper c || between 192 214 c || between 216 222 c
  then ascii_of_N (N_of_ascii c + 32)
  else c.
Definition toLowerCase (s : string) : string :=
  string_of_list_ascii (map lower_char (list_ascii_of_string s)).

(** [s.trim()]. *)
Fixpoint trimStart (s : list ascii) : list ascii :=
  match s with
  | c :: s' => if is_space c then trimStart s' else s
  | [] => []
  end.
Definition trim (s : string) : string :=
  string_of_list_ascii
    (rev (trimStart (rev (trimStart (list_ascii_of_string s))))).

(** The class [[a-zA-Z0-9_-]]. *)
Definition is_name_char (c : ascii) : bool :=
  is_lower c || is_upper c || is_digit c
  || Ascii.eqb c "_" || Ascii.eqb c "-".

Definition all_chars (class : ascii -> bool) (s : string) : bool :=
  forallb class (list_ascii_of_string s).

Definition reserved : list string :=
  ["admin"; "root"; "system"; "api"; "www"; "mail"].

Definition username_checks (username : string) : list bool :=
  let n := String.length username in
  [ (* format: /^[a-zA-Z0-9_-]{3,30}$/ *)
    all_chars is_name_char username && (3 <=? n)%nat && (n <=? 30)%nat;
    (* length *)
    (3 <=? n)%nat && (n <=? 30)%nat;
    (* noSpaces *)
    negb (test is_space username);
    (* alphanumeric: /^[a-zA-Z0-9_-]+$/ *)
    all_chars is_name_char username && (1 <=? n)%nat;
    (* notReserved *)
    negb (existsb (String.eqb (toLowerCase username)) reserved) ].

(** [validateUsername]: [isValid] and [normalized]. *)
Definition validateUsername (username : string) : bool * string :=
  (forallb (fun b : bool => b) (username_checks username),
   trim (toLowerCase username)).

End Validation.

(** ** The error handler of the gateway *)

Module ErrorHandler.

(** The fields of an error the handler looks at; an absent field is
    [undefined].  A [code] is a string, as the codes of Node and of the
    database driver are. *)
Record js_error := JsError {
  name : string;
  message : string;
  code : option string;
  status : option Z;
  statusCode : option Z;
  address : option string
}.

(** What is sent: the status and the fields [error] and [code] of the
    body; the text of [message] is left out. *)
Record errorResponse := ErrorResponse {
  sent_status : Z;
  sent_error : string;
  sent_code : option string
}.

Inductive handled :=
| Delegated                     (* [next(err)] *)
| Sent (r : errorResponse).

(** A number used as a condition: [undefined] and zero are falsy. *)
Definition number (n : option Z) : option Z :=
  match n with
  | Some k => if k =? 0 then None else Some k
  | None => None
  end.

(** [a || b] on numbers and on strings. *)
Definition or_number (a b : option Z) : option Z :=
  match number a with
  | Some k => Some k
  | None => b
  end.
Definition or_string (a : option string) (b : string) : string :=
  match nonempty a with
  | Some s => s
  | None => b
  end.

Definition code_is (err : js_error) (c : string) : bool :=
  match code err with
  | Some x => String.eqb x c
  | None => false
  end.

Definition errorHandler (headersSent : bool) (err : js_error) : handled :=
  if headersSent then Delegated
  else
    Sent
      (if String.eqb (name err) "ValidationError"
       then ErrorResponse 400 "Validation error" (Some "VALIDATION_ERROR")
       else if String.eqb (name err) "JsonWebTokenError"
       then ErrorResponse 401 "Authentication error" (Some "INVALID_TOKEN")
       else if String.eqb (name err) "TokenExpiredError"
       then ErrorResponse 401 "Authentication error" (Some "TOKEN_EXPIRED")
       else if String.eqb (name err) "DatabaseError"
               || match code err with
                  | Some c => String.prefix "23" c
                  | None => false
                  end
       then ErrorResponse 500 "Database error" (Some "DATABASE_ERROR")
       else if code_is err "ECONNREFUSED"
               && match nonempty (address err) with
                  | Some _ => true
                  | None => false
                  end
       then ErrorResponse 503 "Service unavailable" (Some "CACHE_UNAVAILABLE")
       else if code_is err "ECONNREFUSED" || code_is err "ENOTFOUND"
       then ErrorResponse 503 "Service unavailable" (Some "SERVICE_UNAVAILABLE")
       else if code_is err "LIMIT_FILE_SIZE"
       then ErrorResponse 413 "File too large" (Some "FILE_TOO_LARGE")
       else if code_is err "INVALID_FILE_TYPE"
       then ErrorResponse 400 "Invalid file type" (Some "INVALID_FILE_TYPE")
       else
         match number (or_number (status err) (statusCode err)) with
         | Some st =>
             ErrorResponse st (or_string (Some (name err)) "HTTP Error")
                           (Some (or_string (code err) "HTTP_ERROR"))
         | None =>
             match nonempty (code err) with
             | Some c =>
                 ErrorResponse
                   (match number (status err) with Some st => st | None => 500 end)
                   (or_string (Some (name err)) "Application Error")
                   (Some c)
             | None => ErrorResponse 500 "Internal server error" None
             end
         end).

(** [createError(message, statusCode = 500, code = "APPLICATION_ERROR")]:
    an [Error] with the fields [status] and [code]. *)
Definition createError (message : string) (statusCode : option Z)
           (code : option string) : js_error :=
  JsError "Error" message
          (Some (match code with Some c => c | None => "APPLICATION_ERROR" end))
          (Some (match statusCode with Some st => st | None => 500 end))
          None None.

End ErrorHandler.

(** ** Observations *)

(** How a request left a middleware: passed on, answered with a status,
    or with an exception. *)
Inductive verdict :=
| Passed
| Answered (st : Z)
| Crashed.

Definition verdict_of (o : outcome result) : verdict :=
  match o with
  | Ok (Next _) => Passed
  | Ok (Respond r) => Answered (status r)
  | Thrown _ => Crashed
  end.

(** The response of a handler, if it answered. *)
Definition answer (o : outcome result) : option response :=
  match o with
  | Ok (Respond r) => Some r
  | _ => None
  end.

(** The access token a handler answered with. *)
Definition access_token_of (o : outcome result) : option string :=
  match answer o with
  | Some r => option_map fst (tokens r)
  | None => None
  end.

(** The counter a client reads under [k] at time [t]; zero when there is
    none. *)
Definition count_at (t : Z) (m : gmap string entry) (k : string) : Z :=
  match peek t m k with
  | Some (Entry (VInt n) _) => n
  | _ => 0
  end.

(** The expiry of the entry under [k], if it has one. *)
Definition expiry_at (t : Z) (m : gmap string entry) (k : string) : option Z :=
  match peek t m k with
  | Some e => e_exp e
  | None => None
  end.

(** Did the handler call [verifyPassword]? *)
Definition password_checked (tr : list event) : bool :=
  existsb (fun e => match e with VerifyPassword _ => true | _ => false end) tr.

(** Did the handler read [k] from the store? *)
Definition reads (k : string) (tr : list event) : bool :=
  existsb (fun e => match e with
                    | Store (GET k') => String.eqb k k'
                    | _ => false
                    end) tr.

(** The world after a store call that was answered. *)
Definition after (c : cmd) (m : gmap string entry) (w : world) : world :=
  set_db m (log (Store c) w).

(** What a handler that ran from [w] to [w'] called, in order. *)
Definition since (w w' : world) : list event :=
  drop (length (trace w)) (trace w').

(** The call asks the server for an expiry of [k]. *)
Definition asks_expiry (k : string) (e : event) : bool :=
  match e with
  | Store (EXPIRE k' _) | Store (EXPIRE_NaN k') => String.eqb k k'
  | _ => false
  end.

(** *** Rate-limit windows *)

(** The verdict on the [i]-th request of a window of maximum [mx]. *)
Definition expected (mx : Z) (i : Z) : verdict :=
  if i <=? mx then Passed else Answered 429.

(** The key a gateway limiter counts a request under. *)
Definition gw_key (l : Gateway.limiter) (req : request) : string :=
  Gateway.store_prefix l +:+ Gateway.keyGenerator req.

(** The limiter counts the request (it is not one of the skipped paths). *)
Definition counted (l : Gateway.limiter) (req : request) : Prop :=
  Gateway.skip_health l
  && (String.eqb (path req) "/health" || String.eqb (path req) "/metrics")
  = false.

Definition too_many (l : Gateway.limiter) : result :=
  Respond (Response 429 (Gateway.limit_error l) (Some (Gateway.limit_code l)) None).

(** The key the user service counts the requests of window [q] under. *)
Definition us_key (o : UserService.options) (req : request) (q : Z) : string :=
  "ratelimit:" +:+ UserService.keyGenerator req +:+ ":"
  +:+ pretty (q * UserService.windowMs o).

(** What the store holds for window [q] when its counter reads [c]: no
    entry, or the count with an expiry past the end of the window. *)
Definition window_state (o : UserService.options) (k : string) (q c : Z)
           (m : gmap string entry) : Prop :=
  if c =? 0 then m !! k = None
  else exists x, m !! k = Some (Entry (VInt c) (Some x))
                 /\ (q + 1) * UserService.windowMs o <= x.

(** The limiter counts every response (the default options). *)
Definition plain (o : UserService.options) : Prop :=
  UserService.skipSuccessfulRequests o = false
  /\ UserService.skipFailedRequests o = false.

Definition limit_exceeded : result :=
  Respond (Response 429 "Rate limit exceeded" None None).

(** *** Tokens *)

(** The token verifies under the access secret and has not expired. *)
Definition valid_at (w : world) (token : string) (c : claims) : Prop :=
  jwt_parse (lib w) token = Some (JwtView AccessSecret c)
  /\ match exp c with Some e => now w / 1000 < e | None => True end.

(** The token was issued before the second of the password change. *)
Definition stale (c : claims) (u : user) : bool :=
  match password_changed_at u with
  | Some t => iat c <? t / 1000
  | None => false
  end.

(** The user service finds the token on its blacklist. *)
Definition blacklisted (w : world) (token : string) : bool :=
  truthy (option_map e_val
            (peek (now w) (db w) (UserService.blacklisted_key token))).

Definition password_changed : response :=
  Response 401 "Password changed" (Some "PASSWORD_CHANGED") None.
Definition token_revoked : response :=
  Response 401 "Token revoked" None None.
Definition gateway_token_revoked : response :=
  Response 401 "Token invalid" (Some "TOKEN_REVOKED") None.
Definition authentication_failed : response :=
  Response 500 "Authentication failed" None None.

(** *** Failed attempts *)

Definition locked : response :=
  Response 429 "Account temporarily locked" (Some "ACCOUNT_LOCKED") None.
Definition ip_blocked : response :=
  Response 429 "IP temporarily blocked" (Some "IP_BLOCKED") None.

Definition incorrect_password : response :=
  Response 401 "INCORRECT_PASSWORD" None None.

(** The value under [k], if any, is a counter. *)
Definition counter_or_absent (t : Z) (m : gmap string entry) (k : string)
  : Prop :=
  forall e, peek t m k = Some e -> exists n, e_val e = VInt n.

(** The failed attempts the guard reads for the account of an address and
    for an origin. *)
Definition user_attempts (e : string) (w : world) : option rval :=
  match UserService.findByEmail e w with
  | Some u =>
      option_map e_val
        (peek (now w) (db w) (UserService.failed_user_key (id u)))
  | None => Some (VInt 0)
  end.
Definition ip_attempts (addr : string) (w : world) : option rval :=
  let reply := option_map e_val
                 (peek (now w) (db w) (UserService.failed_ip_key addr)) in
  if truthy reply then reply else Some (VInt 0).

(** The verdict of the guard on a request with an address [e]. *)
Definition guard_verdict (req : request) (e : string) (w : world) : result :=
  if js_ge (user_attempts e w) UserService.maxUserAttempts then Respond locked
  else if js_ge (ip_attempts (ip req) w) UserService.maxIpAttempts
  then Respond ip_blocked
  else Next req.

(** *** Frames *)

(** The key a command writes under, if it writes. *)
Definition written (c : cmd) : option string :=
  match c with
  | SETEX k _ _ | DEL k | INCR k | EXPIRE k _ => Some k
  | GET _ | EXPIRE_NaN _ | TTL _ | KEYS _ => None
  end.

(** The next store call of the world is going to reject. *)
Definition failing (w : world) : bool :=
  match faults w with b :: _ => b | [] => false end.

(** The four limiters the gateway exports. *)
Definition configured : list Gateway.limiter :=
  [Gateway.generalLimiter; Gateway.authLimiter; Gateway.uploadLimiter;
   Gateway.analysisLimiter].

(** *** Sessions *)

(** The live entry under [k] is a session of [uid]. *)
Definition session_of (uid : string) (t : Z) (m : gmap string entry)
           (k : string) : bool :=
  match peek t m k with
  | Some (Entry (VJson s) _) => String.eqb (user_id s) uid
  | _ => false
  end.

(** Every live entry under a session key holds a session record, as
    [createSession] writes them. *)
Definition sessions_wf (t : Z) (m : gmap string entry) : Prop :=
  forall k e, String.prefix "session:" k = true -> peek t m k = Some e ->
              exists s, e_val e = VJson s.

(** The same, as a check that runs on a given store. *)
Definition sessions_wfb (m : gmap string entry) : bool :=
  forallb (fun ke : string * entry =>
             negb (String.prefix "session:" (fst ke))
             || match e_val (snd ke) with VJson _ => true | _ => false end)
          (map_to_list m).

(** *** Errors *)

(** The element [getActiveSessions] pushes for the record [s] read under
    [key]. *)
Definition view_of (current key : string) (s : session)
  : UserService.session_view :=
  UserService.SessionView (UserService.remove_first "session:" key)
                          (ip_address s) (user_agent s) (expires_at s)
                          (UserService.includes current key).

(** A code the error handler of the gateway has no case for: not empty,
    not a code of the database driver, not one of the four it names. *)
Definition plain_code (c : string) : bool :=
  negb (String.eqb c "") && negb (String.prefix "23" c)
  && negb (existsb (String.eqb c)
                   ["ECONNREFUSED"; "ENOTFOUND"; "LIMIT_FILE_SIZE";
                    "INVALID_FILE_TYPE"]).

(** ** Scenario data *)

Module Scenario.

Definition alice : user :=
  User "u1" "alice@example.com" "alice" "Secret123!" true None.
Definition bob : user :=
  User "u2" "bob@example.com" "bob" "Hunter2!" true None.

(** The tokens the scenarios issue.  Access tokens of alice, for a day
    and for seven days (a "remember me" login), issued at second 1000, and
    for a day issued at second 2000; her refresh tokens of seconds 1000 and
    2000. *)
Definition token_day : string := "jwt.u1.day.1000".
Definition token_week : string := "jwt.u1.week.1000".
Definition token_day' : string := "jwt.u1.day.2000".
Definition token_refresh : string := "jwt.u1.refresh.1000".
Definition token_refresh' : string := "jwt.u1.refresh.2000".

Definition parse (s : string) : option jwt_view :=
  if String.eqb s token_day
  then Some (JwtView AccessSecret (Claims "u1" (Some "user") 1000 (Some 87400)))
  else if String.eqb s token_week
  then Some (JwtView AccessSecret (Claims "u1" (Some "user") 1000 (Some 605800)))
  else if String.eqb s token_day'
  then Some (JwtView AccessSecret (Claims "u1" (Some "user") 2000 (Some 88400)))
  else if String.eqb s token_refresh
  then Some (JwtView RefreshSecret (Claims "u1" None 1000 (Some 605800)))
  else if String.eqb s token_refresh'
  then Some (JwtView RefreshSecret (Claims "u1" None 2000 (Some 606800)))
  else None.

Definition demo_libs : libs :=
  Libs parse
       (fun s => "sha256." +:+ s)
       (fun u lifetime t =>
          "jwt." +:+ id u +:+ (if lifetime =? 7 * 86400 then ".week." else ".day.")
          +:+ pretty (t / 1000))
       (fun u t => "jwt." +:+ id u +:+ ".refresh." +:+ pretty (t / 1000))
       (fun e => (true, e))
       (fun n => (true, n))
       (fun _ => true)
       (fun _ => "u3")
       (fun r => Some r).

(** A healthy world at second 1000. *)
Definition start : world :=
  World 1000000 ∅ true [] [alice; bob] demo_libs [] 0.

(** A token of alice that carries no expiry, and a healthy world whose
    library reads it. *)
Definition token_forever : string := "jwt.u1.forever".

Definition timeless : world :=
  World 1000000 ∅ true [] [alice; bob]
        (Libs (fun s => if String.eqb s token_forever
                        then Some (JwtView AccessSecret
                                     (Claims "u1" (Some "user") 1000 None))
                        else parse s)
              (sha256 demo_libs)
              (generateJWT demo_libs)
              (generateRefreshToken demo_libs)
              (validateEmail demo_libs)
              (validateUsername demo_libs)
              (validatePasswordStrength demo_libs)
              (new_user_id demo_libs)
              (loginSchema demo_libs))
        [] 0.

(** The schema of the login body, as far as the address goes: it is
    required and put in lower case; and a healthy world at second 1000 whose
    schema does that. *)
Definition lowercasing (r : request) : option request :=
  match body_email r with
  | Some e => Some (with_email (Validation.toLowerCase e) r)
  | None => None
  end.

Definition careful : world :=
  World 1000000 ∅ true [] [alice; bob]
        (Libs parse
              (sha256 demo_libs)
              (generateJWT demo_libs)
              (generateRefreshToken demo_libs)
              (validateEmail demo_libs)
              (validateUsername demo_libs)
              (validatePasswordStrength demo_libs)
              (new_user_id demo_libs)
              lowercasing)
        [] 0.

Definition blank (addr : string) : request :=
  Request None addr "agent" "/api/x" None None "" false None "" "" None None.

Definition with_bearer (token : string) (addr : string) : request :=
  Request (Some ("Bearer " +:+ token)) addr "agent" "/api/x" None None ""
          false None "" "" None None.

Definition login_request (e pw : string) (remember : bool) (addr : string)
  : request :=
  Request None addr "agent" "/auth/login" (Some e) None pw remember None
          "" "" None None.

Definition refresh_request (token : string) (addr : string) : request :=
  Request None addr "agent" "/auth/refresh" None None "" false (Some token)
          "" "" None None.

Definition password_request (uid token old new : string) (addr : string)
  : request :=
  Request (Some ("Bearer " +:+ token)) addr "agent" "/users/password" None
          None "" false None old new (Some uid) (Some token).

(** The store holds seven requests of the origin 10.0.0.1 for both
    limiters below, and twelve failed logins of that origin. *)
Definition busy : world :=
  World 1000000
        (<["test:ip:10.0.0.1" := Entry (VInt 7) (Some 1001500)]>
           (<["ratelimit:ip:10.0.0.1:960000" := Entry (VInt 7) (Some 1060000)]>
              (<["failed_attempts:ip:10.0.0.1" := Entry (VInt 12) (Some 1900000)]> ∅)))
        true [] [alice; bob] demo_libs [] 0.

(** [n] login attempts with the same request, one after the other. *)
Fixpoint attempts (n : nat) (req : request) (w : world) : world :=
  match n with
  | O => w
  | S k => attempts k req (snd (UserService.loginRoute req w))
  end.

(** A limiter of the user service with two requests per minute. *)
Definition two_per_minute : UserService.options :=
  UserService.Options 60000 2 false false.

(** A gateway limiter with two requests per two seconds. *)
Definition two_per_two_seconds : Gateway.limiter :=
  Gateway.Limiter 2000 2 "test:" "RATE_LIMIT_EXCEEDED" "Too many requests" false.

End Scenario.

(** * Properties *)

(** ** Running handlers symbolically *)

Lemma peek_insert_eq t (m : gmap string entry) k e :
  peek t (<[k := e]> m) k = if live t e then Some e else None.
Proof. unfold peek. by rewrite lookup_insert_eq. Qed.

Lemma peek_insert_ne t (m : gmap string entry) k k' e :
  k <> k' -> peek t (<[k := e]> m) k' = peek t m k'.
Proof. intros H. unfold peek. by rewrite lookup_insert_ne. Qed.

Lemma peek_live t (m : gmap string entry) k v x :
  m !! k = Some (Entry v (Some x)) -> t < x ->
  peek t m k = Some (Entry v (Some x)).
Proof.
  intros H Hx. unfold peek, live. rewrite H. cbn.
  destruct (Z.ltb_spec t x); [reflexivity | lia].
Qed.

Lemma peek_expired t (m : gmap string entry) k v x :
  m !! k = Some (Entry v (Some x)) -> x <= t -> peek t m k = None.
Proof.
  intros H Hx. unfold peek, live. rewrite H. cbn.
  destruct (Z.ltb_spec t x); [lia | reflexivity].
Qed.

Lemma peek_absent t (m : gmap string entry) k :
  m !! k = None -> peek t m k = None.
Proof. intros H. unfold peek. by rewrite H. Qed.

Lemma peek_is_live t (m : gmap string entry) k e :
  peek t m k = Some e -> live t e = true.
Proof.
  unfold peek. destruct (m !! k) as [e0|]; [|discriminate].
  destruct (live t e0) eqn:E; [|discriminate]. by intros [= <-].
Qed.

Lemma ceil_div_pos a : 0 < a -> 0 < ceil_div a 1000.
Proof.
  intros H. unfold ceil_div.
  assert (- a / 1000 < 0) by (apply Z.div_lt_upper_bound; lia). lia.
Qed.

Lemma ceil_div_covers a : 0 < a -> a <= 1000 * ceil_div a 1000.
Proof.
  intros H. unfold ceil_div.
  pose proof (Z.mul_div_le (- a) 1000 ltac:(lia)). lia.
Qed.

(** With no fault pending a call is answered by the server. *)
Lemma call_ok c w :
  faults w = [] ->
  call c w = match exec (now w) c (db w) with
             | (RErr, m) => (Thrown StoreError, count_error (after c m w))
             | (r, m) => (Ok r, after c m w)
             end.
Proof.
  intros Hf. destruct w as [t m rdy fs us L tr n]. cbn in Hf. subst fs.
  unfold call. cbn. destruct (exec t c m) as [[] m']; reflexivity.
Qed.

(** A call either is answered, and the count of errors stays, or rejects,
    and the count grows; nothing but the store and the records change. *)
Lemma call_cases c w :
  match call c w with
  | (Ok _, w') =>
      errors w' = errors w /\ isReady w' = isReady w /\ now w' = now w
      /\ lib w' = lib w /\ users w' = users w
  | (Thrown e, w') =>
      e = StoreError /\ errors w' = S (errors w) /\ isReady w' = isReady w
      /\ now w' = now w /\ lib w' = lib w /\ users w' = users w
  end.
Proof.
  destruct w as [t m rdy fs us L tr n]. unfold call. cbn.
  destruct (match fs with [] => false | b :: _ => b end); cbn; [auto 10|].
  destruct (exec t c m) as [[] m']; cbn; auto 10.
Qed.

Ltac munfold :=
  repeat progress
    (unfold bind, ret, throw, try_catch, get_world, redis_get, redis_setex,
       redis_del, redis_incr, redis_expire, redis_expire_NaN, redis_ttl,
       redis_keys, redisClient_setex, reject;
     cbn).

(** Unfold the monad and answer every store call, for a world with no
    fault pending. *)
Ltac mrun :=
  repeat first
    [ progress munfold
    | rewrite call_ok by reflexivity; cbn ].

Lemma redis_get_ok k w :
  faults w = [] ->
  redis_get k w
  = (Ok (option_map e_val (peek (now w) (db w) k)), after (GET k) (db w) w).
Proof.
  intros Hf. unfold redis_get, bind, ret. rewrite (call_ok _ _ Hf). cbn.
  destruct (peek (now w) (db w) k); reflexivity.
Qed.

Lemma redis_setex_ok k s v w :
  faults w = [] ->
  redis_setex k s v w
  = (Ok tt, after (SETEX k s v)
                  (<[k := Entry v (Some (now w + 1000 * s))]> (db w)) w).
Proof. intros Hf. unfold redis_setex, bind, ret. by rewrite (call_ok _ _ Hf). Qed.

Lemma redis_del_ok k w :
  faults w = [] ->
  redis_del k w = (Ok tt, after (DEL k) (delete k (db w)) w).
Proof.
  intros Hf. unfold redis_del, bind, ret. rewrite (call_ok _ _ Hf). cbn.
  destruct (peek (now w) (db w) k); reflexivity.
Qed.

Lemma redis_keys_ok p w :
  faults w = [] ->
  redis_keys p w
  = (Ok (filter (fun k => String.prefix p k
                          && bool_decide (is_Some (peek (now w) (db w) k)))
                (map fst (map_to_list (db w)))),
     after (KEYS p) (db w) w).
Proof. intros Hf. unfold redis_keys, bind, ret. by rewrite (call_ok _ _ Hf). Qed.

(** Run a handler in a world with no fault pending, as far as the store
    calls that always answer go. *)
Ltac mexec :=
  repeat first
    [ rewrite redis_get_ok by reflexivity
    | rewrite redis_setex_ok by reflexivity
    | rewrite redis_del_ok by reflexivity
    | rewrite redis_keys_ok by reflexivity
    | progress (unfold bind, ret, throw, try_catch, get_world, reject; cbn) ].

Lemma bind_ok {A B} (m : M A) (f : A -> M B) w a w' :
  m w = (Ok a, w') -> bind m f w = f a w'.
Proof. intros H. unfold bind. by rewrite H. Qed.

Lemma quietly_ok {A} (m : M A) w a w' :
  m w = (Ok a, w') -> UserService.quietly m w = (Ok tt, w').
Proof.
  intros H. unfold UserService.quietly, try_catch, bind, ret. by rewrite H.
Qed.

(** Case analysis on the next store call of the goal. *)
Ltac call_case c w :=
  let H := fresh "Hcall" in
  pose proof (call_cases c w) as H;
  destruct (call c w) as [[?|?] ?];
  [| let E := fresh in destruct H as [E H]; subst ];
  cbn in *.

Ltac next_call :=
  match goal with
  | |- context [call ?c ?w] => call_case c w
  end.

(** *** The JWT library *)

Lemma jwt_verify_world token s w : snd (jwt_verify token s w) = w.
Proof.
  unfold jwt_verify. destruct (jwt_parse (lib w) token) as [v|]; [|reflexivity].
  destruct (secret_eqb (signed_with v) s); [|reflexivity].
  destruct (exp (payload v)) as [e|]; [|reflexivity].
  destruct (now w / 1000 >=? e); reflexivity.
Qed.

Ltac jwt_case token s w :=
  let H := fresh "Hjwt" in
  pose proof (jwt_verify_world token s w) as H;
  destruct (jwt_verify token s w) as [[?|?] ?]; cbn in H; subst; cbn in *.

Lemma jwt_verify_valid_in w w' token c :
  valid_at w token c -> lib w' = lib w -> now w' = now w ->
  jwt_verify token AccessSecret w' = (Ok c, w').
Proof.
  intros [Hp He] Hl Hn. unfold jwt_verify. rewrite Hl, Hn, Hp. cbn.
  destruct (exp c) as [e|]; [|reflexivity].
  destruct (Z.geb_spec (now w / 1000) e); [lia | reflexivity].
Qed.

Lemma jwt_verify_cases token s w :
  (exists c, jwt_parse (lib w) token = Some (JwtView s c)
             /\ jwt_verify token s w = (Ok c, w))
  \/ (exists e, jwt_verify token s w = (Thrown e, w)).
Proof.
  unfold jwt_verify. destruct (jwt_parse (lib w) token) as [[s' c]|]; [|eauto].
  cbn. destruct (secret_eqb s' s) eqn:Hs; [|eauto].
  assert (s' = s) as -> by (destruct s', s; done).
  destruct (exp c) as [e|]; [|eauto]. destruct (_ >=? e); eauto.
Qed.

(** ** The rate-limit store of the gateway *)

Section GatewayStore.

Import Gateway.

(** The first increment of a cycle creates the counter.  No window reaches
    the store, the expiry it asks for is refused, and the store reports one
    hit from its [catch]. *)
Lemma increment_first p k w :
  isReady w = true -> faults w = [] ->
  peek (now w) (db w) (p +:+ k) = None ->
  exists w',
    increment p k None w = (Ok (Hits 1 None), w')
    /\ db w' = <[p +:+ k := Entry (VInt 1) None]> (db w)
    /\ isReady w' = true /\ faults w' = [] /\ errors w' = S (errors w)
    /\ trace w' = (trace w ++ [Store (INCR (p +:+ k)); Store (EXPIRE_NaN (p +:+ k))])%list.
Proof.
  intros Hr Hf Hp. destruct w as [t m rdy fs us L tr n]. cbn in *. subst.
  unfold increment. mrun. rewrite Hp. mrun.
  eexists. split; [reflexivity|]. cbn. rewrite <- app_assoc. auto 10.
Qed.

(** A later increment adds one and leaves the expiry as it is. *)
Lemma increment_next p k W w n x :
  isReady w = true -> faults w = [] ->
  peek (now w) (db w) (p +:+ k) = Some (Entry (VInt n) x) -> n <> 0 ->
  exists w' T,
    increment p k W w = (Ok (Hits (n + 1) T), w')
    /\ db w' = <[p +:+ k := Entry (VInt (n + 1)) x]> (db w)
    /\ isReady w' = true /\ faults w' = [] /\ errors w' = errors w
    /\ trace w' = (trace w ++ [Store (INCR (p +:+ k)); Store (TTL (p +:+ k))])%list.
Proof.
  intros Hr Hf Hp Hn. pose proof (peek_is_live _ _ _ _ Hp) as Hl.
  destruct w as [t m rdy fs us L tr e]. cbn in *. subst.
  unfold increment. mrun. rewrite Hp. mrun.
  destruct (Z.eqb_spec (n + 1) 1); [lia|]. mrun.
  rewrite peek_insert_eq.
  change (live t (Entry (VInt (n + 1)) x)) with (live t (Entry (VInt n) x)).
  rewrite Hl. cbn.
  destruct x; eexists; eexists; (split; [reflexivity|]); cbn;
    rewrite <- app_assoc; auto 10.
Qed.

Lemma rateLimit_first l req w :
  isReady w = true -> faults w = [] -> counted l req ->
  peek (now w) (db w) (gw_key l req) = None ->
  exists w',
    rateLimit l req w = (Ok (if 1 <=? max l then Next req else too_many l), w')
    /\ db w' = <[gw_key l req := Entry (VInt 1) None]> (db w)
    /\ isReady w' = true /\ faults w' = [] /\ errors w' = S (errors w)
    /\ trace w' = (trace w ++ [Store (INCR (gw_key l req));
                               Store (EXPIRE_NaN (gw_key l req))])%list.
Proof.
  intros Hr Hf Hs Hp.
  destruct (increment_first _ _ w Hr Hf Hp) as (w' & Hrun & Hrest).
  exists w'. split; [|exact Hrest].
  unfold rateLimit. rewrite Hs. unfold bind. fold (gw_key l req).
  rewrite Hrun. cbn.
  destruct (Z.leb_spec 1 (max l)), (Z.gtb_spec 1 (max l)); try lia; reflexivity.
Qed.

Lemma rateLimit_next l req w n x :
  isReady w = true -> faults w = [] -> counted l req ->
  peek (now w) (db w) (gw_key l req) = Some (Entry (VInt n) x) ->
  1 <= n ->
  exists w',
    rateLimit l req w = (Ok (if n + 1 <=? max l then Next req else too_many l), w')
    /\ db w' = <[gw_key l req := Entry (VInt (n + 1)) x]> (db w)
    /\ isReady w' = true /\ faults w' = [] /\ errors w' = errors w
    /\ trace w' = (trace w ++ [Store (INCR (gw_key l req));
                               Store (TTL (gw_key l req))])%list.
Proof.
  intros Hr Hf Hs Hp Hn.
  destruct (increment_next _ _ None w n x Hr Hf Hp ltac:(lia))
    as (w' & T & Hrun & Hrest).
  exists w'. split; [|exact Hrest].
  unfold rateLimit. rewrite Hs. unfold bind. fold (gw_key l req).
  rewrite Hrun. cbn.
  destruct (Z.leb_spec (n + 1) (max l)), (Z.gtb_spec (n + 1) (max l));
    try lia; reflexivity.
Qed.

Lemma verdict_expected l req n :
  verdict_of (Ok (if n <=? max l then Next req else too_many l))
  = expected (max l) n.
Proof. unfold expected. destruct (n <=? max l); reflexivity. Qed.

Lemma expected_shift mx n k :
  map (fun i => expected mx (n + Z.of_nat i)) (seq 2 k)
  = map (fun i => expected mx (n + 1 + Z.of_nat i)) (seq 1 k).
Proof.
  rewrite <- (seq_shift k 1), map_map. apply map_ext.
  intros i. f_equal. lia.
Qed.

(** Requests that find the counter at [n], all before its expiry [x], if
    it has one. *)
Lemma requests_from l req ts : forall w n x,
  isReady w = true -> faults w = [] -> counted l req ->
  db w !! gw_key l req = Some (Entry (VInt n) x) ->
  1 <= n -> Forall (fun t => forall y, x = Some y -> t < y) ts ->
  map verdict_of (fst (requests_at l req ts w))
  = map (fun i => expected (max l) (n + Z.of_nat i)) (seq 1 (length ts))
  /\ db (snd (requests_at l req ts w)) !! gw_key l req
     = Some (Entry (VInt (n + Z.of_nat (length ts))) x).
Proof.
  induction ts as [|t ts IH]; intros w n x Hr Hf Hs Hk Hn Hts.
  - cbn. rewrite Z.add_0_r. auto.
  - inversion Hts as [|? ? Ht Hts']; subst.
    assert (Hp : peek (now (set_now t w)) (db (set_now t w)) (gw_key l req)
                 = Some (Entry (VInt n) x)).
    { cbn. unfold peek. rewrite Hk. unfold live. cbn.
      destruct x as [y|]; [|reflexivity].
      destruct (Z.ltb_spec t y); [reflexivity|]. specialize (Ht y eq_refl). lia. }
    destruct (rateLimit_next l req (set_now t w) n x Hr Hf Hs Hp Hn)
      as (w1 & Hrun & Hdb & Hr1 & Hf1 & He1 & _).
    cbn [requests_at]. rewrite Hrun.
    assert (Hk1 : db w1 !! gw_key l req = Some (Entry (VInt (n + 1)) x)).
    { rewrite Hdb. apply lookup_insert_eq. }
    destruct (IH w1 (n + 1) x Hr1 Hf1 Hs Hk1 ltac:(lia) Hts') as (Ha & Hd).
    destruct (requests_at l req ts w1) as [rs w2]. cbn in *.
    split.
    + change (Z.of_nat 1) with 1. f_equal.
      * apply verdict_expected.
      * rewrite Ha. symmetry. apply expected_shift.
    + rewrite Hd. do 3 f_equal. lia.
Qed.

End GatewayStore.

(** ** The rate limiter of the user service *)

Section UserLimiter.

Import UserService.

Lemma redisKey_window o req t q :
  t / windowMs o = q -> redisKey o req t = us_key o req q.
Proof. intros <-. reflexivity. Qed.

Lemma us_key_inj o req q q' :
  0 < windowMs o -> us_key o req q = us_key o req q' -> q = q'.
Proof.
  intros HW H. unfold us_key in H.
  do 3 apply String.app_inj in H. apply pretty_Z_inj in H. nia.
Qed.

Lemma in_window t W q :
  0 < W -> t / W = q -> q * W <= t < (q + 1) * W.
Proof.
  intros HW <-. pose proof (Z.mul_div_le t W HW).
  pose proof (Z.mul_succ_div_gt t W HW). lia.
Qed.

(** One request of window [q] that finds the counter at [c]: it is let
    through and counted when [c < max], and otherwise rejected and not
    counted. *)
Lemma serve_counts o req st t w q c :
  faults w = [] -> plain o -> 0 < windowMs o ->
  t / windowMs o = q -> 0 <= c ->
  window_state o (us_key o req q) q c (db w) ->
  exists w',
    serve o req st t w
    = (Ok (if c <? max o then Next req else limit_exceeded), w')
    /\ window_state o (us_key o req q) q (if c <? max o then c + 1 else c) (db w')
    /\ (forall k, k <> us_key o req q -> db w' !! k = db w !! k)
    /\ faults w' = [] /\ errors w' = errors w
    /\ (c < max o ->
        db w' !! us_key o req q
        = Some (Entry (VInt (c + 1))
                      (Some (t + 1000 * ceil_div (windowMs o) 1000)))).
Proof.
  intros Hf [Hs1 Hs2] HW Hq Hc Hst.
  pose proof (in_window _ _ _ HW Hq) as Hlo.
  pose proof (ceil_div_covers _ HW) as Hcov.
  pose proof (ceil_div_pos _ HW) as Hpos.
  destruct w as [t0 m rdy fs us L tr n]. cbn in *. subst fs.
  unfold serve, rateLimiter. mrun. rewrite (redisKey_window o req t q Hq).
  unfold window_state in Hst. destruct (Z.eqb_spec c 0) as [->|Hc0].
  - pose proof (peek_absent t _ _ Hst) as Hp. rewrite Hp. cbn.
    destruct (Z.geb_spec 0 (max o)), (Z.ltb_spec 0 (max o)); try lia; cbn.
    + eexists. split; [reflexivity|]. cbn. unfold window_state. cbn.
      repeat split; auto. lia.
    + unfold onFinish. rewrite Hs1, Hs2. mrun.
      rewrite Hp. mrun. rewrite peek_insert_eq. cbn.
      destruct (Z.leb_spec (ceil_div (windowMs o) 1000) 0); [lia|]. cbn.
      eexists. split; [reflexivity|]. cbn. rewrite insert_insert_eq.
      split; [|split; [|repeat split; auto]].
      * unfold window_state. cbn. eexists. rewrite lookup_insert_eq.
        split; [reflexivity|]. lia.
      * intros k Hk. by rewrite lookup_insert_ne.
      * intros _. apply lookup_insert_eq.
  - destruct Hst as (x & Hm & Hx).
    assert (Hp : peek t m (us_key o req q) = Some (Entry (VInt c) (Some x)))
      by (apply peek_live; [done | lia]).
    rewrite Hp. cbn.
    destruct (Z.geb_spec c (max o)), (Z.ltb_spec c (max o)); try lia; cbn.
    + eexists. split; [reflexivity|]. cbn. unfold window_state.
      destruct (Z.eqb_spec c 0); [lia|]. repeat split; eauto. lia.
    + unfold onFinish. rewrite Hs1, Hs2. mrun. rewrite Hp. mrun.
      rewrite peek_insert_eq. unfold live. cbn.
      destruct (Z.ltb_spec t x); [|lia]. cbn.
      destruct (Z.leb_spec (ceil_div (windowMs o) 1000) 0); [lia|]. cbn.
      eexists. split; [reflexivity|]. cbn. rewrite insert_insert_eq.
      split; [|split; [|repeat split; auto]].
      * unfold window_state. destruct (Z.eqb_spec (c + 1) 0); [lia|].
        eexists. rewrite lookup_insert_eq. split; [reflexivity|]. lia.
      * intros k Hk. by rewrite lookup_insert_ne.
      * intros _. apply lookup_insert_eq.
Qed.

(** Requests of window [q], after [j] earlier ones in that window. *)
Lemma requests_from_count o req st q ts : forall w j,
  faults w = [] -> plain o -> 0 < windowMs o ->
  Forall (fun t => t / windowMs o = q) ts -> 0 <= j ->
  window_state o (us_key o req q) q (Z.min j (Z.max 0 (max o))) (db w) ->
  map verdict_of (fst (requests_at o req st ts w))
  = map (fun i => expected (max o) (j + Z.of_nat i)) (seq 1 (length ts))
  /\ window_state o (us_key o req q) q
       (Z.min (j + Z.of_nat (length ts)) (Z.max 0 (max o)))
       (db (snd (requests_at o req st ts w)))
  /\ (forall k, k <> us_key o req q ->
                db (snd (requests_at o req st ts w)) !! k = db w !! k).
Proof.
  induction ts as [|t ts IH]; intros w j Hf Hpl HW Hts Hj Hst.
  - cbn. rewrite Z.add_0_r. auto.
  - apply Forall_cons in Hts as [Ht Hts'].
    assert (Hmin : 0 <= Z.min j (Z.max 0 (max o))) by lia.
    destruct (serve_counts o req st t w q _ Hf Hpl HW Ht Hmin Hst)
      as (w1 & Hrun & Hst1 & Hfr & Hf1 & He1 & _).
    cbn [requests_at]. rewrite Hrun.
    assert (Hc : (if Z.min j (Z.max 0 (max o)) <? max o
                  then Z.min j (Z.max 0 (max o)) + 1
                  else Z.min j (Z.max 0 (max o)))
                 = Z.min (j + 1) (Z.max 0 (max o))).
    { destruct (Z.ltb_spec (Z.min j (Z.max 0 (max o))) (max o)); lia. }
    rewrite Hc in Hst1.
    destruct (IH w1 (j + 1) Hf1 Hpl HW Hts' ltac:(lia) Hst1) as (Ha & Hd & Hk).
    destruct (requests_at o req st ts w1) as [rs w2]. cbn in *.
    split; [|split].
    + change (Z.of_nat 1) with 1. f_equal.
      * unfold expected, limit_exceeded.
        destruct (Z.ltb_spec (Z.min j (Z.max 0 (max o))) (max o)),
                 (Z.leb_spec (j + 1) (max o)); try lia; reflexivity.
      * rewrite Ha. symmetry. apply expected_shift.
    + replace (j + Z.of_nat (S (length ts)))
        with (j + 1 + Z.of_nat (length ts)) by lia. exact Hd.
    + intros k Hne. rewrite Hk by done. by apply Hfr.
Qed.

End UserLimiter.

(** ** Rate-limit windows (C4, C9) *)

Lemma count_at_live t (m : gmap string entry) k n x :
  m !! k = Some (Entry (VInt n) (Some x)) -> t < x -> count_at t m k = n.
Proof. intros H Hx. unfold count_at. by rewrite (peek_live _ _ _ _ _ H Hx). Qed.

Lemma count_at_window o k q c t m :
  0 < UserService.windowMs o -> t / UserService.windowMs o = q ->
  window_state o k q c m -> count_at t m k = c.
Proof.
  intros HW Hq Hst. pose proof (in_window _ _ _ HW Hq) as Hlo.
  unfold window_state in Hst. destruct (Z.eqb_spec c 0) as [->|Hc].
  - unfold count_at. by rewrite (peek_absent _ _ _ Hst).
  - destruct Hst as (x & Hm & Hx). apply (count_at_live _ _ _ _ x); [done | lia].
Qed.

Lemma count_at_kept t (m : gmap string entry) k n :
  m !! k = Some (Entry (VInt n) None) -> count_at t m k = n.
Proof. intros H. unfold count_at, peek. by rewrite H. Qed.

(** C4, as the two limiters implement it.  In the gateway every request of
    a cycle is counted, the rejected ones too: within the length of the
    window after the first request of the cycle, the [i]-th request passes
    when [i <= max] and is answered 429 beyond, and the counter reads the
    number of the requests made.  In the user service the [i]-th request of
    a clock-aligned window passes when [i <= max] and is answered 429
    beyond, only the requests let through are counted, so that the counter
    stops at [max], and the counters of the other windows are left as they
    were. *)
Theorem rate_window_counts l o req st t1 ts q ts' w :
  isReady w = true -> faults w = [] ->
  counted l req -> 0 < Gateway.windowMs l ->
  peek t1 (db w) (gw_key l req) = None ->
  Forall (fun t => t < t1 + 1000 * ceil_div (Gateway.windowMs l) 1000) ts ->
  plain o -> 0 < UserService.windowMs o ->
  db w !! us_key o req q = None ->
  Forall (fun t => t / UserService.windowMs o = q) ts' ->
  let g := Gateway.requests_at l req (t1 :: ts) w in
  let u := UserService.requests_at o req st ts' w in
  let x := t1 + 1000 * ceil_div (Gateway.windowMs l) 1000 in
  map verdict_of (fst g)
  = map (fun i => expected (Gateway.max l) (Z.of_nat i)) (seq 1 (S (length ts)))
  /\ (forall t, t < x ->
                count_at t (db (snd g)) (gw_key l req) = Z.of_nat (S (length ts)))
  /\ map verdict_of (fst u)
     = map (fun i => expected (UserService.max o) (Z.of_nat i)) (seq 1 (length ts'))
  /\ (forall t, t / UserService.windowMs o = q ->
                count_at t (db (snd u)) (UserService.redisKey o req t)
                = Z.min (Z.of_nat (length ts')) (Z.max 0 (UserService.max o)))
  /\ (forall t, t / UserService.windowMs o <> q ->
                count_at t (db (snd u)) (UserService.redisKey o req t)
                = count_at t (db w) (UserService.redisKey o req t)).
Proof.
  intros Hr Hf Hcnt HWl Hp Hts Hpl HWo Hnone Hus g u x.
  assert (Hgate :
    map verdict_of (fst g)
    = map (fun i => expected (Gateway.max l) (Z.of_nat i)) (seq 1 (S (length ts)))
    /\ db (snd g) !! gw_key l req
       = Some (Entry (VInt (Z.of_nat (S (length ts)))) None)).
  { subst g. cbn [Gateway.requests_at].
    destruct (rateLimit_first l req (set_now t1 w) Hr Hf Hcnt Hp)
      as (w1 & Hrun & Hdb & Hr1 & Hf1 & _).
    rewrite Hrun.
    assert (Hk1 : db w1 !! gw_key l req = Some (Entry (VInt 1) None))
      by (rewrite Hdb; apply lookup_insert_eq).
    assert (Hlive : Forall (fun t => forall y, @None Z = Some y -> t < y) ts)
      by (apply Forall_forall; intros t _ y [=]).
    destruct (requests_from l req ts w1 1 None Hr1 Hf1 Hcnt Hk1 ltac:(lia) Hlive)
      as (Ha & Hd).
    destruct (Gateway.requests_at l req ts w1) as [rs w2]. cbn in *. split.
    - f_equal; [apply verdict_expected|]. rewrite Ha.
      rewrite <- (expected_shift (Gateway.max l) 0). reflexivity.
    - rewrite Hd. do 3 f_equal. lia. }
  destruct Hgate as (Hga & Hgd).
  assert (Hzero : window_state o (us_key o req q) q
                    (Z.min 0 (Z.max 0 (UserService.max o))) (db w)).
  { replace (Z.min 0 (Z.max 0 (UserService.max o))) with 0 by lia. exact Hnone. }
  destruct (requests_from_count o req st q ts' w 0 Hf Hpl HWo Hus ltac:(lia) Hzero)
    as (Hua & Hud & Huk).
  repeat split.
  - exact Hga.
  - intros t Ht. by apply count_at_kept.
  - exact Hua.
  - intros t Ht. rewrite (redisKey_window o req t q Ht).
    exact (count_at_window _ _ _ _ _ _ HWo Ht Hud).
  - intros t Ht. rewrite (redisKey_window o req t _ eq_refl).
    unfold count_at, peek. rewrite Huk; [reflexivity|].
    intros Heq. apply us_key_inj in Heq; [|done]. congruence.
Qed.

(** A window of two requests per two seconds at the gateway and of two
    requests per minute at the user service: the third request is answered
    429 and, at the gateway, counted. *)
Lemma rate_window_counts_witness :
  let l := Scenario.two_per_two_seconds in
  let o := Scenario.two_per_minute in
  let req := Scenario.blank "10.0.0.1" in
  let g := Gateway.requests_at l req [1000000; 1000500; 1001000] Scenario.start in
  let u := UserService.requests_at o req 200 [1000000; 1000500; 1001000] Scenario.start in
  map verdict_of (fst g) = [Passed; Passed; Answered 429]
  /\ count_at 1001500 (db (snd g)) (gw_key l req) = 3
  /\ map verdict_of (fst u) = [Passed; Passed; Answered 429]
  /\ count_at 1001500 (db (snd u)) (UserService.redisKey o req 1001500) = 2.
Proof.
  intros l o req g u.
  destruct (rate_window_counts l o req 200 1000000 [1000500; 1001000] 16
              [1000000; 1000500; 1001000] Scenario.start)
    as (Hg & Hc & Hu & Hk & _);
    [ reflexivity | reflexivity | reflexivity | reflexivity | reflexivity
    | repeat constructor | split; reflexivity | reflexivity
    | vm_compute; reflexivity | repeat constructor | ].
  split; [exact Hg|]. split; [apply Hc; reflexivity|].
  split; [exact Hu|]. apply (Hk 1001500). reflexivity.
Defined.

(** C4 as stated fails for the limiter of the user service: with a maximum
    of two, the third request of the window is answered 429 and is not
    counted (the counter reads two, not three). *)
Lemma rejected_request_is_not_counted :
  let o := Scenario.two_per_minute in
  let req := Scenario.blank "10.0.0.1" in
  let u := UserService.requests_at o req 200 [1000000; 1000500; 1001000] Scenario.start in
  map verdict_of (fst u) = [Passed; Passed; Answered 429]
  /\ count_at 1001000 (db (snd u)) (UserService.redisKey o req 1001000) = 2
  /\ count_at 1001000 (db (snd u)) (UserService.redisKey o req 1001000) <> 3.
Proof. vm_compute. repeat split; discriminate. Qed.

Lemma expiry_at_live t (m : gmap string entry) k v x :
  m !! k = Some (Entry v (Some x)) -> t < x -> expiry_at t m k = Some x.
Proof. intros H Hx. unfold expiry_at. by rewrite (peek_live _ _ _ _ _ H Hx). Qed.

Lemma since_app w w' evs :
  trace w' = (trace w ++ evs)%list -> since w w' = evs.
Proof. intros H. unfold since. rewrite H. apply drop_app_length. Qed.

(** C9, as the two limiters implement it.  In the gateway the store asks
    for an expiry of the key with the first increment of a cycle and with no
    later one, and a later increment leaves the expiry of the key as it was.
    In the user service the counter belongs to a window aligned on the clock
    (two instants share a counter exactly when they fall in the same
    multiple of [windowMs]), and every counted request sets the expiry
    again, [ceil(windowMs / 1000)] seconds ahead. *)
Theorem window_expiry l o req st w n x q c :
  isReady w = true -> faults w = [] ->
  counted l req ->
  plain o -> 0 < UserService.windowMs o ->
  let ahead' := 1000 * ceil_div (UserService.windowMs o) 1000 in
  let w1 := snd (Gateway.rateLimit l req w) in
  (peek (now w) (db w) (gw_key l req) = None ->
   existsb (asks_expiry (gw_key l req)) (since w w1) = true)
  /\ (peek (now w) (db w) (gw_key l req) = Some (Entry (VInt n) x) ->
      1 <= n ->
      existsb (asks_expiry (gw_key l req)) (since w w1) = false
      /\ db w1 !! gw_key l req = Some (Entry (VInt (n + 1)) x))
  /\ (forall t t', t / UserService.windowMs o = t' / UserService.windowMs o
                   <-> UserService.redisKey o req t = UserService.redisKey o req t')
  /\ (forall t, t / UserService.windowMs o = q ->
                window_state o (us_key o req q) q c (db w) ->
                0 <= c < UserService.max o ->
                expiry_at t (db (snd (UserService.serve o req st t w)))
                          (UserService.redisKey o req t)
                = Some (t + ahead')).
Proof.
  intros Hr Hf Hcnt Hpl HWo ahead' w1.
  pose proof (ceil_div_pos _ HWo) as Hpos'.
  split; [|split; [|split]].
  - intros Hp. subst w1.
    destruct (rateLimit_first l req w Hr Hf Hcnt Hp)
      as (w' & -> & _ & _ & _ & _ & Htr).
    cbn [snd]. rewrite (since_app _ _ _ Htr).
    cbn [existsb asks_expiry]. by rewrite String.eqb_refl.
  - intros Hk Hn. subst w1.
    destruct (rateLimit_next l req w n x Hr Hf Hcnt Hk Hn)
      as (w' & -> & Hdb & _ & _ & _ & Htr).
    cbn [snd]. rewrite (since_app _ _ _ Htr). split; [reflexivity|].
    rewrite Hdb. apply lookup_insert_eq.
  - intros t t'. split.
    + intros H. rewrite (redisKey_window o req t _ eq_refl).
      by rewrite (redisKey_window o req t' _ (eq_sym H)).
    + intros H. rewrite (redisKey_window o req t _ eq_refl) in H.
      rewrite (redisKey_window o req t' _ eq_refl) in H.
      by apply us_key_inj in H.
  - intros t Ht Hst Hc.
    destruct (serve_counts o req st t w q c Hf Hpl HWo Ht ltac:(lia) Hst)
      as (w' & -> & _ & _ & _ & _ & Hdb).
    cbn. rewrite (redisKey_window o req t q Ht).
    apply (expiry_at_live _ _ _ (VInt (c + 1))); [|subst ahead'; lia].
    apply Hdb. lia.
Qed.

(** A first and a second request at the gateway: only the first asks for
    an expiry, and the second leaves the entry its expiry; at the user
    service the first request of a minute window sets it a minute ahead. *)
Lemma window_expiry_witness :
  let l := Scenario.two_per_two_seconds in
  let o := Scenario.two_per_minute in
  let req := Scenario.blank "10.0.0.1" in
  let w := Scenario.start in
  let w1 := snd (Gateway.rateLimit l req w) in
  let w2 := snd (Gateway.rateLimit l req (set_now 1000500 w1)) in
  existsb (asks_expiry (gw_key l req)) (since w w1) = true
  /\ existsb (asks_expiry (gw_key l req)) (since (set_now 1000500 w1) w2) = false
  /\ expiry_at 1000500 (db w2) (gw_key l req)
     = expiry_at 1000500 (db w1) (gw_key l req)
  /\ expiry_at 1000000 (db (snd (UserService.serve o req 200 1000000 w)))
               (UserService.redisKey o req 1000000)
     = Some 1060000.
Proof.
  intros l o req w w1 w2.
  destruct (window_expiry l o req 200 w 1 None 16 0)
    as (Hfirst & _ & _ & Huser);
    [ reflexivity | reflexivity | reflexivity
    | split; reflexivity | reflexivity | ].
  destruct (window_expiry l o req 200 (set_now 1000500 w1) 1 None 16 0)
    as (_ & Hnext & _);
    [ reflexivity | reflexivity | reflexivity
    | split; reflexivity | reflexivity | ].
  destruct Hnext as [Hnone Hkept]; [vm_compute; reflexivity | lia |].
  split; [apply Hfirst; reflexivity|].
  split; [exact Hnone|].
  split; [vm_compute; reflexivity|].
  apply (Huser 1000000); [reflexivity | vm_compute; reflexivity | split; [lia | reflexivity]].
Defined.

(** C9 as stated fails for the limiter of the user service: the second
    counted request of a window moves the expiry (from 1060 s to 1070 s), and
    a request 20 s after the first, in the next clock-aligned minute, already
    finds an empty counter. *)
Lemma expiry_is_set_again_and_window_is_aligned :
  let o := UserService.Options 60000 5 false false in
  let req := Scenario.blank "10.0.0.1" in
  let key := UserService.redisKey o req 1000000 in
  let w1 := snd (UserService.serve o req 200 1000000 Scenario.start) in
  let w2 := snd (UserService.serve o req 200 1010000 w1) in
  expiry_at 1000000 (db w1) key = Some 1060000
  /\ expiry_at 1010000 (db w2) key = Some 1070000
  /\ count_at 1010000 (db w2) key = 2
  /\ count_at 1020000 (db w2) (UserService.redisKey o req 1020000) = 0.
Proof. vm_compute. repeat split. Qed.

(** ** Store failures at the limiters (C5) *)

Lemma increment_fails_open p k W w :
  isReady w = false \/ errors (snd (Gateway.increment p k W w)) <> errors w ->
  fst (Gateway.increment p k W w) = Ok (Gateway.Hits 1 W).
Proof.
  unfold Gateway.increment. munfold.
  destruct (isReady w) eqn:Hr; cbn; [|reflexivity].
  intros [H|H]; [discriminate|]. revert H.
  next_call; [|reflexivity].
  destruct (_ =? 1); [destruct W as [ms|]|]; cbn.
  - next_call; [|reflexivity]. next_call; [|reflexivity]. intros H. exfalso. apply H. lia.
  - next_call; [|reflexivity]. next_call; [|reflexivity]. intros H. exfalso. apply H. lia.
  - next_call; [|reflexivity]. intros H. exfalso. apply H. lia.
Qed.

Lemma rateLimiter_fails_open o req w :
  errors (snd (UserService.rateLimiter o req w)) <> errors w ->
  fst (UserService.rateLimiter o req w) = Ok (Next req, None).
Proof.
  unfold UserService.rateLimiter. munfold.
  next_call; [|reflexivity].
  intros H. exfalso. apply H.
  repeat match goal with |- context [if ?b then _ else _] => destruct b; cbn end; lia.
Qed.

(** C5: a limiter never rejects because of the store.  At the gateway a
    client that is not ready, or a store call that rejects, makes the store
    report one hit, which every maximum of at least one admits; at the user
    service a rejected read of the counter ends in [next()]. *)
Theorem limiter_fails_open l o req w :
  1 <= Gateway.max l ->
  (isReady w = false \/ errors (snd (Gateway.rateLimit l req w)) <> errors w ->
   fst (Gateway.rateLimit l req w) = Ok (Next req))
  /\ (errors (snd (UserService.rateLimiter o req w)) <> errors w ->
      fst (UserService.rateLimiter o req w) = Ok (Next req, None)).
Proof.
  intros Hmax. split; [|apply rateLimiter_fails_open].
  unfold Gateway.rateLimit.
  destruct (Gateway.skip_health l && _); [reflexivity|].
  unfold bind. intros H.
  pose proof (increment_fails_open (Gateway.store_prefix l)
                (Gateway.keyGenerator req) None w) as Hinc.
  destruct (Gateway.increment _ _ _ w) as [[h|e] w'] eqn:Hrun; cbn in *.
  - assert (Hh : Ok h = Ok (Gateway.Hits 1 None)).
    { apply Hinc. destruct H as [H|H]; [by left | right].
      destruct (Gateway.totalHits h >? Gateway.max l); exact H. }
    injection Hh as ->. cbn.
    destruct (Z.gtb_spec 1 (Gateway.max l)); [lia | reflexivity].
  - exfalso. destruct H as [H|H]; [|specialize (Hinc (or_intror H))];
      [specialize (Hinc (or_introl H))|]; discriminate.
Qed.

(** The origin has used seven of two requests; the store call rejects, or
    the client is not ready: the request passes both limiters. *)
Lemma limiter_fails_open_witness :
  let l := Scenario.two_per_two_seconds in
  let o := Scenario.two_per_minute in
  let req := Scenario.blank "10.0.0.1" in
  let w := set_faults [true] Scenario.busy in
  1 <= Gateway.max l
  /\ verdict_of (fst (Gateway.rateLimit l req Scenario.busy)) = Answered 429
  /\ fst (Gateway.rateLimit l req w) = Ok (Next req)
  /\ fst (Gateway.rateLimit l req (set_ready false Scenario.busy)) = Ok (Next req)
  /\ fst (UserService.rateLimiter o req w) = Ok (Next req, None).
Proof.
  intros l o req w.
  destruct (limiter_fails_open l o req w) as [Hg Hu]; [vm_compute; discriminate|].
  destruct (limiter_fails_open l o req (set_ready false Scenario.busy))
    as [Hg' _]; [vm_compute; discriminate|].
  split; [vm_compute; discriminate|]. split; [vm_compute; reflexivity|].
  split; [apply Hg; right; vm_compute; discriminate|].
  split; [apply Hg'; left; reflexivity|].
  apply Hu. vm_compute. discriminate.
Defined.

(** ** Token verification when the store fails (C6) *)

Lemma jwt_verify_valid w token c :
  valid_at w token c -> jwt_verify token AccessSecret w = (Ok c, w).
Proof.
  intros [Hp He]. unfold jwt_verify. rewrite Hp. cbn.
  destruct (exp c) as [e|]; [|reflexivity].
  destruct (Z.geb_spec (now w / 1000) e); [lia | reflexivity].
Qed.

Lemma verifyToken_not_ready req w token c :
  bearer (authorization req) = Some token -> valid_at w token c ->
  isReady w = false ->
  Gateway.verifyToken req w
  = (Ok (Next (authenticated (userId c) token req)), w).
Proof.
  intros Hb Hv Hr. unfold Gateway.verifyToken. rewrite Hb. munfold.
  rewrite Hr. cbn. rewrite (jwt_verify_valid _ _ _ Hv). cbn. rewrite Hr.
  destruct Hv as [_ He]. destruct (exp c) as [e|]; [|reflexivity].
  destruct (Z.ltb_spec e (now w / 1000)); [lia | reflexivity].
Qed.

Lemma verifyToken_store_error req w :
  errors (snd (Gateway.verifyToken req w)) <> errors w ->
  fst (Gateway.verifyToken req w) = Ok (Respond (Gateway.auth_failed StoreError)).
Proof.
  unfold Gateway.verifyToken.
  destruct (bearer (authorization req)) as [token|]; munfold; [|congruence].
  destruct (isReady w) eqn:Hr; cbn.
  - next_call; [|reflexivity].
    destruct (truthy _); cbn; [lia|].
    match goal with |- context [jwt_verify ?t ?s ?w'] => jwt_case t s w' end; [|lia].
    destruct (match exp _ with Some _ => _ | None => _ end); cbn; [lia|].
    match goal with |- context [isReady ?x] => destruct (isReady x); cbn end; [|lia].
    next_call; [lia | reflexivity].
  - jwt_case token AccessSecret w; [|congruence].
    destruct (match exp _ with Some _ => _ | None => _ end); cbn; [congruence|].
    rewrite Hr. cbn. congruence.
Qed.

Lemma authenticateToken_store_error req w :
  errors (snd (UserService.authenticateToken req w)) <> errors w ->
  fst (UserService.authenticateToken req w)
  = Ok (Respond authentication_failed).
Proof.
  unfold UserService.authenticateToken.
  destruct (nonempty (bearer (authorization req))) as [token|]; munfold; [|congruence].
  next_call; [|reflexivity].
  intros H. exfalso. apply H.
  destruct (truthy _); cbn; [lia|].
  match goal with |- context [jwt_verify ?t ?s ?w'] => jwt_case t s w' end.
  - destruct (UserService.findById _ _) as [u|]; cbn; [|lia].
    destruct (is_active u); cbn; [|lia].
    destruct (match password_changed_at u with Some _ => _ | None => _ end); cbn; lia.
  - match goal with |- context [match ?e with TokenExpiredError => _ | _ => _ end] => destruct e end; cbn; lia.
Qed.

Lemma verifyToken_status req w r :
  answer (fst (Gateway.verifyToken req w)) = Some r -> status r = 401.
Proof.
  unfold Gateway.verifyToken.
  destruct (bearer (authorization req)) as [token|]; munfold;
    [|intros [= <-]; reflexivity].
  destruct (isReady w) eqn:Hr; cbn.
  - next_call; [|intros [= <-]; reflexivity].
    destruct (truthy _); cbn; [intros [= <-]; reflexivity|].
    match goal with |- context [jwt_verify ?t ?s ?w'] => jwt_case t s w' end;
      [|intros [= <-]; reflexivity].
    destruct (match exp _ with Some _ => _ | None => _ end); cbn;
      [intros [= <-]; reflexivity|].
    match goal with |- context [isReady ?x] => destruct (isReady x); cbn end;
      [|discriminate].
    next_call; [discriminate | intros [= <-]; reflexivity].
  - jwt_case token AccessSecret w; [|intros [= <-]; reflexivity].
    destruct (match exp _ with Some _ => _ | None => _ end); cbn;
      [intros [= <-]; reflexivity|].
    rewrite Hr. discriminate.
Qed.

Lemma authenticateToken_status req w r :
  answer (fst (UserService.authenticateToken req w)) = Some r ->
  status r = 401 \/ status r = 403 \/ status r = 500.
Proof.
  unfold UserService.authenticateToken.
  destruct (nonempty (bearer (authorization req))) as [token|]; munfold;
    [|intros [= <-]; auto].
  next_call; [|intros [= <-]; auto].
  destruct (truthy _); cbn; [intros [= <-]; auto|].
  match goal with |- context [jwt_verify ?t ?s ?w'] => jwt_case t s w' end.
  - destruct (UserService.findById _ _) as [u|]; cbn; [|intros [= <-]; auto].
    destruct (is_active u); cbn; [|intros [= <-]; auto].
    destruct (match password_changed_at u with Some _ => _ | None => _ end); cbn;
      [intros [= <-]; auto | discriminate].
  - match goal with |- context [match ?e with TokenExpiredError => _ | _ => _ end] => destruct e end; cbn; intros [= <-]; auto.
Qed.

(** C6, as the verifiers implement it.  For a token that is valid in
    itself: when the client of the gateway is not ready, the blacklist is not
    consulted and the request passes; when a store call rejects, the gateway
    answers 401 [AUTH_ERROR] and the user service 500; and no answer of
    either verifier has the status 503. *)
Theorem verification_when_store_fails req w token c :
  bearer (authorization req) = Some token -> valid_at w token c ->
  (isReady w = false ->
   Gateway.verifyToken req w
   = (Ok (Next (authenticated (userId c) token req)), w))
  /\ (errors (snd (Gateway.verifyToken req w)) <> errors w ->
      fst (Gateway.verifyToken req w)
      = Ok (Respond (Gateway.auth_failed StoreError)))
  /\ (errors (snd (UserService.authenticateToken req w)) <> errors w ->
      fst (UserService.authenticateToken req w)
      = Ok (Respond authentication_failed))
  /\ (forall r, answer (fst (Gateway.verifyToken req w)) = Some r ->
                status r = 401)
  /\ (forall r, answer (fst (UserService.authenticateToken req w)) = Some r ->
                status r = 401 \/ status r = 403 \/ status r = 500).
Proof.
  intros Hb Hv. split; [|split; [|split; [|split]]].
  - by apply verifyToken_not_ready.
  - apply verifyToken_store_error.
  - apply authenticateToken_store_error.
  - apply verifyToken_status.
  - apply authenticateToken_status.
Qed.

(** The token of alice, blacklisted at the gateway by a logout: it is
    answered 401 [TOKEN_REVOKED] while the store answers, passes when the
    client is not ready, and is answered 401 and 500 when the read of the
    blacklist rejects. *)
Lemma verification_when_store_fails_witness :
  let req := Scenario.with_bearer Scenario.token_day "10.0.0.1" in
  let w := snd (Gateway.logout req Scenario.start) in
  fst (Gateway.verifyToken req w) = Ok (Respond gateway_token_revoked)
  /\ verdict_of (fst (Gateway.verifyToken req (set_ready false w))) = Passed
  /\ answer (fst (Gateway.verifyToken req (set_faults [true] w)))
     = Some (Gateway.auth_failed StoreError)
  /\ answer (fst (UserService.authenticateToken req (set_faults [true] w)))
     = Some authentication_failed.
Proof.
  intros req w.
  assert (Hb : bearer (authorization req) = Some Scenario.token_day)
    by reflexivity.
  assert (Hv : forall w', lib w' = Scenario.demo_libs -> now w' = 1000000 ->
                          valid_at w' Scenario.token_day
                            (Claims "u1" (Some "user") 1000 (Some 87400))).
  { intros w' Hl Hn. split; [by rewrite Hl | cbn; rewrite Hn; reflexivity]. }
  destruct (verification_when_store_fails req (set_ready false w) _ _ Hb
              (Hv (set_ready false w) ltac:(vm_compute; reflexivity)
                  ltac:(vm_compute; reflexivity))) as (Hdown & _).
  destruct (verification_when_store_fails req (set_faults [true] w) _ _ Hb
              (Hv (set_faults [true] w) ltac:(vm_compute; reflexivity)
                  ltac:(vm_compute; reflexivity))) as (_ & Hgw & Hus & _).
  split; [vm_compute; reflexivity|].
  split; [rewrite Hdown by reflexivity; reflexivity|].
  split; [rewrite Hgw by (vm_compute; discriminate); reflexivity|].
  rewrite Hus by (vm_compute; discriminate). reflexivity.
Defined.

(** C6 as stated fails: with the store unavailable no verifier answers 503.
    A revoked token passes the gateway when its client is not ready; a
    rejected read of the blacklist gives 401 at the gateway and 500 at the
    user service. *)
Lemma store_outage_is_not_answered_503 :
  let req := Scenario.with_bearer Scenario.token_day "10.0.0.1" in
  let w := snd (Gateway.logout req Scenario.start) in
  verdict_of (fst (Gateway.verifyToken req w)) = Answered 401
  /\ verdict_of (fst (Gateway.verifyToken req (set_ready false w))) = Passed
  /\ verdict_of (fst (Gateway.verifyToken req (set_faults [true] w)))
     = Answered 401
  /\ verdict_of (fst (UserService.authenticateToken req (set_faults [true] w)))
     = Answered 500.
Proof. vm_compute. repeat split. Qed.

(** ** The failed-attempt guard (C7, C10) *)

Section Guard.

Import UserService.

Lemma guard_without_email req w :
  nonempty (body_email req) = None ->
  UserService.checkFailedAttempts req w = (Ok (Next req), w).
Proof. intros H. unfold UserService.checkFailedAttempts. rewrite H. reflexivity. Qed.

Lemma guard_store_error req w :
  errors (snd (UserService.checkFailedAttempts req w)) <> errors w ->
  fst (UserService.checkFailedAttempts req w) = Ok (Next req).
Proof.
  unfold UserService.checkFailedAttempts.
  destruct (nonempty (body_email req)) as [e|]; munfold; [|reflexivity].
  destruct (UserService.findByEmail e w) as [u|]; cbn.
  - next_call; [|reflexivity]. next_call; [|reflexivity].
    intros H. exfalso. apply H.
    destruct (js_ge _ _); cbn; [lia|]. destruct (js_ge _ _); cbn; lia.
  - next_call; [|reflexivity].
    intros H. exfalso. apply H.
    destruct (js_ge _ _); cbn; lia.
Qed.

Lemma guard_decides req w e :
  faults w = [] -> nonempty (body_email req) = Some e ->
  exists w',
    checkFailedAttempts req w = (Ok (guard_verdict req e w), w')
    /\ password_checked (trace w') = password_checked (trace w)
    /\ db w' = db w /\ faults w' = [] /\ users w' = users w /\ lib w' = lib w
    /\ now w' = now w.
Proof.
  intros Hf He. unfold checkFailedAttempts, guard_verdict, user_attempts, ip_attempts.
  rewrite He. destruct w as [t m rdy fs us L tr n]. cbn in *. subst fs.
  unfold password_checked, findByEmail. mexec.
  destruct (find _ us) as [u|]; mexec.
  - destruct (js_ge _ maxUserAttempts); [|destruct (js_ge _ maxIpAttempts)];
      cbn; eexists; (split; [reflexivity|]); cbn;
      rewrite <- ?app_assoc, existsb_app; cbn; rewrite orb_false_r; auto 10.
  - destruct (js_ge _ maxIpAttempts);
      cbn; eexists; (split; [reflexivity|]); cbn;
      rewrite existsb_app; cbn; rewrite orb_false_r; auto 10.
Qed.

Lemma locked_route req w e u n x :
  faults w = [] -> nonempty (body_email req) = Some e ->
  findByEmail e w = Some u ->
  peek (now w) (db w) (failed_user_key (id u)) = Some (Entry (VInt n) x) ->
  5 <= n ->
  fst (loginRoute req w) = Ok (Respond locked)
  /\ password_checked (trace (snd (loginRoute req w))) = password_checked (trace w).
Proof.
  intros Hf He Hu Hp Hn.
  destruct (guard_decides req w e Hf He) as (w' & Hrun & Htr & _).
  unfold loginRoute, and_then, bind. rewrite Hrun.
  unfold guard_verdict, user_attempts. rewrite Hu, Hp. cbn.
  destruct (Z.geb_spec n maxUserAttempts); [|unfold maxUserAttempts in *; lia].
  cbn. auto.
Qed.

(** *** Recording a failure *)

Lemma live_expiry_at t m k v : live t (Entry v (expiry_at t m k)) = true.
Proof.
  unfold expiry_at. destruct (peek t m k) as [e|] eqn:Hp; [|reflexivity].
  apply peek_is_live in Hp. exact Hp.
Qed.

Lemma redis_incr_ok k w :
  faults w = [] -> counter_or_absent (now w) (db w) k ->
  redis_incr k w
  = (Ok (count_at (now w) (db w) k + 1),
     after (INCR k)
           (<[k := Entry (VInt (count_at (now w) (db w) k + 1))
                         (expiry_at (now w) (db w) k)]> (db w)) w).
Proof.
  intros Hf Hc. unfold redis_incr, bind, ret. rewrite (call_ok _ _ Hf).
  unfold exec, count_at, expiry_at.
  destruct (peek (now w) (db w) k) as [[v x]|] eqn:Hp; [|reflexivity].
  destruct (Hc _ Hp) as [n Hn]. cbn in Hn. subst v. reflexivity.
Qed.

Lemma redis_expire_ok k s w v x :
  faults w = [] -> 0 < s ->
  db w !! k = Some (Entry v x) -> live (now w) (Entry v x) = true ->
  redis_expire k s w
  = (Ok tt, after (EXPIRE k s)
                  (<[k := Entry v (Some (now w + 1000 * s))]> (db w)) w).
Proof.
  intros Hf Hs Hk Hl. unfold redis_expire, bind, ret. rewrite (call_ok _ _ Hf).
  unfold exec, peek. rewrite Hk, Hl.
  destruct (Z.leb_spec s 0); [lia | reflexivity].
Qed.

(** A failure is recorded under both keys, each with fifteen minutes to
    live. *)
Lemma incrementFailedAttempts_ok uid addr w :
  faults w = [] ->
  counter_or_absent (now w) (db w) (failed_user_key uid) ->
  counter_or_absent (now w) (db w) (failed_ip_key addr) ->
  exists w',
    incrementFailedAttempts uid addr w = (Ok tt, w')
    /\ db w'
       = <[failed_ip_key addr :=
             Entry (VInt (count_at (now w) (db w) (failed_ip_key addr) + 1))
                   (Some (now w + 1000 * (15 * 60)))]>
           (<[failed_user_key uid :=
                Entry (VInt (count_at (now w) (db w) (failed_user_key uid) + 1))
                      (Some (now w + 1000 * (15 * 60)))]> (db w)).
Proof.
  intros Hf Hu Hi. unfold incrementFailedAttempts.
  erewrite bind_ok; [|eapply quietly_ok; apply (redis_incr_ok _ _ Hf Hu)].
  set (w1 := after _ _ w).
  erewrite bind_ok;
    [|eapply quietly_ok; eapply (redis_expire_ok _ _ w1);
      [exact Hf | lia | apply lookup_insert_eq | apply live_expiry_at]].
  set (w2 := after _ _ w1).
  assert (Hi2 : counter_or_absent (now w2) (db w2) (failed_ip_key addr)).
  { intros e. cbn. rewrite !peek_insert_ne by discriminate. apply Hi. }
  assert (Hc2 : count_at (now w2) (db w2) (failed_ip_key addr)
                = count_at (now w) (db w) (failed_ip_key addr)).
  { unfold count_at. cbn. by rewrite !peek_insert_ne by discriminate. }
  erewrite bind_ok; [|eapply quietly_ok; apply (redis_incr_ok _ w2 Hf Hi2)].
  set (w3 := after _ _ w2).
  eexists. split.
  - eapply quietly_ok; eapply (redis_expire_ok _ _ w3);
      [exact Hf | lia | apply lookup_insert_eq | apply live_expiry_at].
  - cbn. cbn in Hc2. rewrite Hc2. rewrite !insert_insert_eq. reflexivity.
Qed.

Lemma failed_login_is_recorded req w e u :
  faults w = [] -> body_email req = Some e -> findByEmail e w = Some u ->
  is_active u = true -> password u <> body_password req ->
  counter_or_absent (now w) (db w) (failed_user_key (id u)) ->
  counter_or_absent (now w) (db w) (failed_ip_key (ip req)) ->
  let w' := snd (login req w) in
  fst (login req w) = Ok (Respond incorrect_password)
  /\ count_at (now w) (db w') (failed_user_key (id u))
     = count_at (now w) (db w) (failed_user_key (id u)) + 1
  /\ expiry_at (now w) (db w') (failed_user_key (id u)) = Some (now w + 900000)
  /\ count_at (now w) (db w') (failed_ip_key (ip req))
     = count_at (now w) (db w) (failed_ip_key (ip req)) + 1.
Proof.
  intros Hf He Hu Ha Hpw Hcu Hci.
  destruct (incrementFailedAttempts_ok (id u) (ip req)
              (log (VerifyPassword (id u)) w) Hf Hcu Hci) as (w1 & Hrun & Hdb).
  assert (Hlogin : login req w = (Ok (Respond incorrect_password), w1)).
  { unfold login, try_catch, bind, get_world. rewrite He, Hu, Ha. cbn [negb].
    unfold verifyPassword.
    destruct (String.eqb_spec (password u) (body_password req)); [done|].
    cbn [negb]. by rewrite Hrun. }
  rewrite Hlogin. cbn [fst snd]. rewrite Hdb. cbn [now db log].
  assert (Hlt : now w < now w + 1000 * (15 * 60)) by lia.
  split; [reflexivity|]. split; [|split].
  - erewrite count_at_live; [reflexivity| |exact Hlt].
    rewrite lookup_insert_ne by discriminate. apply lookup_insert_eq.
  - erewrite expiry_at_live; [f_equal; lia| |exact Hlt].
    rewrite lookup_insert_ne by discriminate. apply lookup_insert_eq.
  - erewrite count_at_live; [reflexivity| |exact Hlt]. apply lookup_insert_eq.
Qed.

End Guard.

(** C10: a login request without an address passes the guard with no call
    to the store at all (the world is left as it was, whatever the counters
    hold), and a request during which a read of the counters rejects passes
    as well. *)
Theorem guard_admits_without_email req w :
  (nonempty (body_email req) = None ->
   UserService.checkFailedAttempts req w = (Ok (Next req), w))
  /\ (errors (snd (UserService.checkFailedAttempts req w)) <> errors w ->
      fst (UserService.checkFailedAttempts req w) = Ok (Next req)).
Proof. split; [apply guard_without_email | apply guard_store_error]. Qed.

(** Twelve failed logins are recorded for the origin: a request with an
    address is answered 429, a request without one passes and reads nothing,
    and so does a request whose read of the counter rejects. *)
Lemma guard_admits_without_email_witness :
  let w := Scenario.busy in
  let named := Scenario.login_request "carol@example.com" "x" false "10.0.0.1" in
  let anonymous := Scenario.blank "10.0.0.1" in
  fst (UserService.checkFailedAttempts named w) = Ok (Respond ip_blocked)
  /\ UserService.checkFailedAttempts anonymous w = (Ok (Next anonymous), w)
  /\ reads (UserService.failed_ip_key "10.0.0.1")
           (trace (snd (UserService.checkFailedAttempts anonymous w))) = false
  /\ fst (UserService.checkFailedAttempts named (set_faults [true] w))
     = Ok (Next named).
Proof.
  intros w named anonymous.
  destruct (guard_admits_without_email anonymous w) as [Hnone _].
  destruct (guard_admits_without_email named (set_faults [true] w)) as [_ Herr].
  split; [vm_compute; reflexivity|].
  split; [apply Hnone; reflexivity|].
  split; [rewrite Hnone by reflexivity; reflexivity|].
  apply Herr. vm_compute. discriminate.
Defined.

(** The guard on an address spelled as the account has it.  When the
    counter of the identity the address resolves to reads five or more, the
    login route answers 429 [ACCOUNT_LOCKED] and the password is not
    verified; a request from the same origin for another identity, whose own
    counter is below five, is decided by the counter of the origin alone:
    429 [IP_BLOCKED] from ten on, and passed on below. *)
Lemma locked_identity_is_rejected req req' w e e' u n x :
  faults w = [] ->
  nonempty (body_email req) = Some e ->
  UserService.findByEmail e w = Some u ->
  peek (now w) (db w) (UserService.failed_user_key (id u))
  = Some (Entry (VInt n) x) ->
  5 <= n ->
  nonempty (body_email req') = Some e' -> ip req' = ip req ->
  UserService.findByEmail e' w <> Some u ->
  js_ge (user_attempts e' w) 5 = false ->
  fst (UserService.loginRoute req w) = Ok (Respond locked)
  /\ password_checked (trace (snd (UserService.loginRoute req w)))
     = password_checked (trace w)
  /\ fst (UserService.checkFailedAttempts req' w)
     = Ok (if js_ge (ip_attempts (ip req) w) 10 then Respond ip_blocked
           else Next req').
Proof.
  intros Hf He Hu Hp Hn He' Hip _ Hbelow.
  destruct (locked_route req w e u n x Hf He Hu Hp Hn) as [Hl Ht].
  split; [exact Hl|]. split; [exact Ht|].
  destruct (guard_decides req' w e' Hf He') as (w' & -> & _).
  unfold guard_verdict, UserService.maxUserAttempts, UserService.maxIpAttempts.
  rewrite Hbelow, Hip. reflexivity.
Qed.

(** Five wrong passwords for alice from one origin: her next attempt, with
    the right password, is answered 429 [ACCOUNT_LOCKED] and the password is
    not looked at; bob, from the same origin (five failures recorded, below
    ten), passes the guard. *)
Lemma locked_identity_is_rejected_witness :
  let wrong := Scenario.login_request "alice@example.com" "guess" false "10.0.0.1" in
  let right := Scenario.login_request "alice@example.com" "Secret123!" false "10.0.0.1" in
  let other := Scenario.login_request "bob@example.com" "Hunter2!" false "10.0.0.1" in
  let w := Scenario.attempts 5 wrong Scenario.start in
  count_at (now w) (db w) (UserService.failed_user_key "u1") = 5
  /\ count_at (now w) (db w) (UserService.failed_ip_key "10.0.0.1") = 5
  /\ fst (UserService.loginRoute right w) = Ok (Respond locked)
  /\ password_checked (trace (snd (UserService.loginRoute right w)))
     = password_checked (trace w)
  /\ fst (UserService.checkFailedAttempts other w) = Ok (Next other).
Proof.
  intros wrong right other w.
  destruct (locked_identity_is_rejected right other w "alice@example.com"
              "bob@example.com" Scenario.alice 5 (Some 1900000))
    as (Hl & Ht & Ho);
    [ vm_compute; reflexivity | reflexivity | vm_compute; reflexivity
    | vm_compute; reflexivity | lia | reflexivity | reflexivity
    | vm_compute; discriminate | vm_compute; reflexivity | ].
  split; [vm_compute; reflexivity|]. split; [vm_compute; reflexivity|].
  split; [exact Hl|]. split; [exact Ht|].
  rewrite Ho. vm_compute. reflexivity.
Defined.

(** ** Refresh tokens (C8) *)

Section RefreshTokens.

Import UserService.

Lemma quietly_total {A} (m : M A) w : exists w', quietly m w = (Ok tt, w').
Proof.
  unfold quietly, try_catch, bind, ret.
  destruct (m w) as [[a|e] w']; eauto.
Qed.

Lemma incrementFailedAttempts_total uid addr w :
  exists w', incrementFailedAttempts uid addr w = (Ok tt, w').
Proof.
  unfold incrementFailedAttempts, bind.
  destruct (quietly_total (redis_incr (failed_user_key uid)) w) as [w1 ->].
  destruct (quietly_total (redis_expire (failed_user_key uid) (15 * 60)) w1) as [w2 ->].
  destruct (quietly_total (redis_incr (failed_ip_key addr)) w2) as [w3 ->].
  apply quietly_total.
Qed.

Lemma jwt_verify_ok token s c w :
  jwt_parse (lib w) token = Some (JwtView s c) ->
  match exp c with Some x => now w / 1000 < x | None => True end ->
  jwt_verify token s w = (Ok c, w).
Proof.
  intros Hp Hx. unfold jwt_verify. rewrite Hp. cbn.
  assert (secret_eqb s s = true) as -> by (destruct s; reflexivity).
  destruct (exp c) as [x|]; [|reflexivity].
  destruct (Z.geb_spec (now w / 1000) x); [lia | reflexivity].
Qed.

Lemma same_string_truthy v s :
  s <> "" -> same_string v s = true -> truthy (Some v) = true.
Proof.
  intros Hs. destruct v as [x|n|j]; cbn; [|done..].
  intros H. apply String.eqb_eq in H. subst x.
  by destruct (String.eqb_spec s "").
Qed.

Lemma nonempty_some s x : nonempty s = Some x -> s = Some x /\ x <> "".
Proof.
  unfold nonempty. destruct s as [y|]; [|discriminate].
  destruct (String.eqb_spec y ""); [discriminate|]. by intros [= ->].
Qed.

(** The accepting branch of [refreshToken]: the presented token verifies,
    it is the one stored, its user is active; the new tokens are generated
    and the call that should store the new refresh token throws. *)
Lemma refresh_of_stored_token req w presented c u e :
  faults w = [] -> nonempty (body_refreshToken req) = Some presented ->
  jwt_parse (lib w) presented = Some (JwtView RefreshSecret c) ->
  match exp c with Some x => now w / 1000 < x | None => True end ->
  peek (now w) (db w) (refresh_key (userId c)) = Some e ->
  same_string (e_val e) presented = true ->
  findById (userId c) w = Some u -> is_active u = true ->
  refreshToken req w
  = (Ok (Respond (Response 500 "Token refresh failed" None None)),
     after (GET (refresh_key (userId c))) (db w) w).
Proof.
  intros Hf Hp Hc Hx Hk Hs Hu Ha.
  destruct (nonempty_some _ _ Hp) as [_ Hne].
  pose proof (same_string_truthy _ _ Hne Hs) as Ht.
  unfold refreshToken. rewrite Hp.
  unfold try_catch at 1. unfold bind at 1. unfold try_catch at 1. unfold bind at 1.
  rewrite (jwt_verify_ok _ _ _ _ Hc Hx). unfold ret at 1. cbn iota beta.
  unfold bind at 1. rewrite (redis_get_ok _ _ Hf). rewrite Hk.
  cbn [option_map]. rewrite Ht, Hs. cbn [negb orb].
  unfold bind at 1, get_world.
  change (findById (userId c) (after (GET (refresh_key (userId c))) (db w) w))
    with (findById (userId c) w).
  rewrite Hu, Ha. reflexivity.
Qed.

End RefreshTokens.

(** C8, where the code departs from it.  [register] and [login] store the
    refresh token they issue under the key of the identity, and
    [refreshToken] answers 401 for a token that is not the one stored.  For
    the token that is stored, presented for an active user before it
    expires, [refreshToken] answers 500 and stores nothing: the method it
    calls to store the new refresh token does not exist on the client. *)
Theorem stored_refresh_token_is_answered_500 req w presented c u e :
  faults w = [] -> nonempty (body_refreshToken req) = Some presented ->
  jwt_parse (lib w) presented = Some (JwtView RefreshSecret c) ->
  match exp c with Some x => now w / 1000 < x | None => True end ->
  peek (now w) (db w) (UserService.refresh_key (userId c)) = Some e ->
  UserService.same_string (e_val e) presented = true ->
  UserService.findById (userId c) w = Some u -> is_active u = true ->
  fst (UserService.refreshToken req w)
  = Ok (Respond (Response 500 "Token refresh failed" None None))
  /\ db (snd (UserService.refreshToken req w)) = db w.
Proof.
  intros Hf Hp Hc Hx Hk Hs Hu Ha.
  rewrite (refresh_of_stored_token req w presented c u e Hf Hp Hc Hx Hk Hs Hu Ha).
  split; reflexivity.
Qed.

(** Alice logs in at second 1000 and presents the refresh token of that
    login a second later: the answer is 500, and the store holds the same
    refresh token as before. *)
Lemma stored_refresh_token_is_answered_500_witness :
  let signin := Scenario.login_request "alice@example.com" "Secret123!" false "10.0.0.1" in
  let issued := UserService.login signin Scenario.start in
  let w1 := set_now 1001000 (snd issued) in
  let again := Scenario.refresh_request Scenario.token_refresh "10.0.0.1" in
  option_map snd (match answer (fst issued) with
                  | Some r => tokens r
                  | None => None
                  end) = Some Scenario.token_refresh
  /\ db w1 !! UserService.refresh_key "u1"
     = Some (Entry (VStr Scenario.token_refresh) (Some 605800000))
  /\ verdict_of (fst (UserService.refreshToken again w1)) = Answered 500
  /\ db (snd (UserService.refreshToken again w1)) !! UserService.refresh_key "u1"
     = Some (Entry (VStr Scenario.token_refresh) (Some 605800000)).
Proof.
  intros signin issued w1 again.
  destruct (stored_refresh_token_is_answered_500 again w1 Scenario.token_refresh
              (Claims "u1" None 1000 (Some 605800)) Scenario.alice
              (Entry (VStr Scenario.token_refresh) (Some 605800000)))
    as [H500 Hdb];
    [ reflexivity | reflexivity | reflexivity | vm_compute; reflexivity
    | vm_compute; reflexivity | vm_compute; reflexivity
    | vm_compute; reflexivity | reflexivity | ].
  split; [vm_compute; reflexivity|]. split; [vm_compute; reflexivity|].
  split; [rewrite H500; reflexivity|].
  rewrite Hdb. vm_compute. reflexivity.
Defined.

(** ** Tokens issued before a password change (C2) *)

Section Authentication.

Import UserService.

Lemma authenticate_revoked req w token :
  faults w = [] -> nonempty (bearer (authorization req)) = Some token ->
  blacklisted w token = true ->
  fst (authenticateToken req w) = Ok (Respond token_revoked).
Proof.
  intros Hf Hb Hbl. unfold authenticateToken. rewrite Hb.
  destruct w as [t0 m rdy fs us L tr n]. cbn in Hf. subst fs.
  unfold blacklisted in Hbl. cbn in Hbl. mexec. rewrite Hbl. reflexivity.
Qed.

Lemma authenticate_decides req w token c u :
  faults w = [] -> nonempty (bearer (authorization req)) = Some token ->
  blacklisted w token = false -> valid_at w token c ->
  findById (userId c) w = Some u -> is_active u = true ->
  fst (authenticateToken req w)
  = Ok (if stale c u then Respond password_changed
        else Next (authenticated (id u) token req)).
Proof.
  intros Hf Hb Hbl Hv Hu Ha. unfold authenticateToken. rewrite Hb.
  destruct w as [t0 m rdy fs us L tr n]. cbn in Hf. subst fs.
  unfold blacklisted in Hbl. cbn in Hbl. mexec. rewrite Hbl. cbn.
  rewrite (jwt_verify_valid_in _ _ _ _ Hv) by reflexivity. cbn.
  unfold findById in *. cbn in *. rewrite Hu. cbn. rewrite Ha. cbn.
  unfold stale. destruct (password_changed_at u) as [t|]; [|reflexivity].
  destruct (iat c <? t / 1000); reflexivity.
Qed.

(** *** Logout, password change and the sessions *)

Lemma session_keys t (m : gmap string entry) :
  Forall (fun k => String.prefix "session:" k = true)
         (filter (fun k => String.prefix "session:" k
                           && bool_decide (is_Some (peek t m k)))
                 (map fst (map_to_list m))).
Proof.
  apply List.Forall_forall. intros k Hk. rewrite <- list_elem_of_In in Hk.
  apply list_elem_of_filter in Hk as [Hk _].
  apply andb_prop_elim in Hk as [Hk _]. by apply Is_true_eq_true.
Qed.

(** [logout] deletes the refresh token and stops at the blacklisting, whose
    method the client does not have. *)
Lemma logout_run req w uid :
  faults w = [] -> req_user req = Some uid ->
  logout req w
  = (Ok (Respond (Response 500 "Logout failed" None None)),
     after (DEL (refresh_key uid)) (delete (refresh_key uid) (db w)) w).
Proof.
  intros Hf Hu. unfold logout. rewrite Hu.
  unfold try_catch, bind. rewrite (redis_del_ok _ _ Hf). reflexivity.
Qed.

Lemma updated_user us uid pw t u :
  find (fun u => String.eqb (id u) uid) us = Some u ->
  find (fun u => String.eqb (id u) uid)
       (map (fun u => if String.eqb (id u) uid
                      then User (id u) (email u) (username u) pw (is_active u) (Some t)
                      else u) us)
  = Some (User (id u) (email u) (username u) pw (is_active u) (Some t)).
Proof.
  induction us as [|v us IH]; [discriminate|]. cbn.
  destruct (String.eqb (id v) uid) eqn:E; cbn.
  - rewrite E. by intros [= ->].
  - rewrite E. exact IH.
Qed.

(** A password change stamps the account with the time of the change, and
    stops at the call of the helper on [this]. *)
Lemma changePassword_stamps req w uid u :
  req_user req = Some uid -> findById uid w = Some u ->
  password u = body_currentPassword req ->
  validatePasswordStrength (lib w) (body_newPassword req) = true ->
  body_newPassword req <> password u ->
  changePassword req w
  = (Ok (Respond (Response 500 "Password change failed" None None)),
     set_users
       (map (fun v => if String.eqb (id v) uid
                      then User (id v) (email v) (username v)
                                (body_newPassword req) (is_active v) (Some (now w))
                      else v)
            (users w))
       (log (VerifyPassword (id u)) w))
  /\ findById uid (snd (changePassword req w))
     = Some (User (id u) (email u) (username u) (body_newPassword req)
                  (is_active u) (Some (now w))).
Proof.
  intros Hr Hu Hpw Hstrong Hnew.
  assert (Hrun : changePassword req w
    = (Ok (Respond (Response 500 "Password change failed" None None)),
       set_users
         (map (fun v => if String.eqb (id v) uid
                        then User (id v) (email v) (username v)
                                  (body_newPassword req) (is_active v) (Some (now w))
                        else v)
              (users w))
         (log (VerifyPassword (id u)) w))).
  { unfold changePassword. rewrite Hr.
    unfold try_catch, bind, get_world. rewrite Hu.
    unfold verifyPassword. rewrite Hpw, String.eqb_refl. cbn. rewrite Hstrong.
    cbn. rewrite <- Hpw.
    destruct (String.eqb_spec (body_newPassword req) (password u)); [done|].
    reflexivity. }
  rewrite Hrun. split; [reflexivity|]. unfold findById. cbn.
  apply updated_user. exact Hu.
Qed.

End Authentication.

(** C2, as the verifier implements it.  For a token that passes the checks
    made before (it is not on the blacklist, its signature verifies, it has
    not expired, its identity exists and is active) and an identity whose
    password was changed at [t1]: the token is answered 401
    [PASSWORD_CHANGED] when its issued-at second is before the second of
    [t1], and is accepted when it is that second or a later one. *)
Theorem token_issued_before_password_change req w token c u t1 :
  faults w = [] ->
  nonempty (bearer (authorization req)) = Some token ->
  blacklisted w token = false ->
  valid_at w token c ->
  UserService.findById (userId c) w = Some u -> is_active u = true ->
  password_changed_at u = Some t1 ->
  (iat c < t1 / 1000 ->
   fst (UserService.authenticateToken req w) = Ok (Respond password_changed))
  /\ (t1 / 1000 <= iat c ->
      fst (UserService.authenticateToken req w)
      = Ok (Next (authenticated (id u) token req))).
Proof.
  intros Hf Hb Hbl Hv Hu Ha Ht.
  rewrite (authenticate_decides req w token c u Hf Hb Hbl Hv Hu Ha).
  unfold stale. rewrite Ht.
  split; intros H; destruct (Z.ltb_spec (iat c) (t1 / 1000)); try lia; reflexivity.
Qed.

(** Alice holds a token issued in second 1000 and changes her password in
    second 1002: the token is then answered 401 [PASSWORD_CHANGED]. *)
Lemma token_issued_before_password_change_witness :
  let change := Scenario.password_request "u1" Scenario.token_day
                  "Secret123!" "NewSecret1!" "10.0.0.1" in
  let w1 := snd (UserService.changePassword change (set_now 1002500 Scenario.start)) in
  let w2 := set_now 1010000 w1 in
  let req := Scenario.with_bearer Scenario.token_day "10.0.0.1" in
  UserService.findById "u1" w2
  = Some (User "u1" "alice@example.com" "alice" "NewSecret1!" true (Some 1002500))
  /\ fst (UserService.authenticateToken req w2) = Ok (Respond password_changed).
Proof.
  intros change w1 w2 req.
  destruct (token_issued_before_password_change req w2 Scenario.token_day
              (Claims "u1" (Some "user") 1000 (Some 87400))
              (User "u1" "alice@example.com" "alice" "NewSecret1!" true (Some 1002500))
              1002500)
    as [Hstale _];
    [ vm_compute; reflexivity | reflexivity | vm_compute; reflexivity
    | split; vm_compute; reflexivity | vm_compute; reflexivity | reflexivity
    | reflexivity | ].
  split; [vm_compute; reflexivity|]. apply Hstale. reflexivity.
Defined.

(** C2 as stated fails: alice logs in at 1000.000 s, changes her password
    at 1000.999 s, and the token of the login, presented at 1002 s, is still
    accepted, because both instants fall in second 1000. *)
Lemma token_of_the_same_second_survives :
  let signin := Scenario.login_request "alice@example.com" "Secret123!" false "10.0.0.1" in
  let issued := UserService.login signin Scenario.start in
  let change := Scenario.password_request "u1" Scenario.token_day
                  "Secret123!" "NewSecret1!" "10.0.0.1" in
  let w1 := snd (UserService.changePassword change (set_now 1000999 (snd issued))) in
  let req := Scenario.with_bearer Scenario.token_day "10.0.0.1" in
  access_token_of (fst issued) = Some Scenario.token_day
  /\ option_map password_changed_at (UserService.findById "u1" w1)
     = Some (Some 1000999)
  /\ verdict_of (fst (UserService.authenticateToken req (set_now 1002000 w1)))
     = Passed.
Proof. vm_compute. repeat split. Qed.

(** ** Revocation (C1, C3) *)

(** *** At the gateway *)

(** [blacklistToken] writes an entry that lives for the whole seconds the
    token has left. *)
Lemma blacklistToken_entry token w c e :
  isReady w = true -> faults w = [] ->
  jwt_decode token w = Some c -> exp c = Some e ->
  0 <= now w -> now w / 1000 < e ->
  fst (Gateway.blacklistToken token w) = Ok tt
  /\ db (snd (Gateway.blacklistToken token w)) !! Gateway.blacklist_key token
     = Some (Entry (VStr "true") (Some (now w + 1000 * (e - now w / 1000)))).
Proof.
  intros Hr Hf Hd He Hn Hlt.
  assert (Hrun : Gateway.blacklistToken token w
                 = (Ok tt, after (SETEX (Gateway.blacklist_key token)
                                        (e - now w / 1000) (VStr "true"))
                                 (<[Gateway.blacklist_key token :=
                                      Entry (VStr "true")
                                            (Some (now w + 1000 * (e - now w / 1000)))]>
                                    (db w)) w)).
  { unfold Gateway.blacklistToken, bind, get_world. rewrite Hr.
    unfold try_catch. rewrite Hd, He.
    assert (0 <= now w / 1000) by (apply Z.div_pos; lia).
    destruct (Z.eqb_spec e 0); [lia|].
    destruct (Z.gtb_spec (e - now w / 1000) 0); [|lia].
    by rewrite (redis_setex_ok _ _ _ _ Hf). }
  rewrite Hrun. cbn. split; [reflexivity|]. apply lookup_insert_eq.
Qed.

(** The entry expires in the second in which the token does: not while the
    token is valid, and less than a second after. *)
Lemma blacklist_entry_covers t e :
  1000 * e <= t + 1000 * (e - t / 1000) < 1000 * e + 1000.
Proof.
  pose proof (Z.mod_pos_bound t 1000 ltac:(lia)).
  pose proof (Z.div_mod t 1000 ltac:(lia)). lia.
Qed.

Lemma verifyToken_revoked req w token v x :
  isReady w = true -> faults w = [] ->
  bearer (authorization req) = Some token ->
  db w !! Gateway.blacklist_key token = Some (Entry v (Some x)) ->
  truthy (Some v) = true -> now w < x ->
  fst (Gateway.verifyToken req w) = Ok (Respond gateway_token_revoked).
Proof.
  intros Hr Hf Hb Hk Hv Hx. unfold Gateway.verifyToken. rewrite Hb.
  unfold try_catch, bind, get_world. rewrite Hr.
  rewrite (redis_get_ok _ _ Hf).
  rewrite (peek_live _ _ _ _ _ Hk Hx). cbn [option_map e_val ret].
  rewrite Hv. reflexivity.
Qed.

(** At the gateway a blacklisted token is answered 401 [TOKEN_REVOKED] for
    as long as it would be valid: in any later world that still holds the
    entry, with the client ready and the store answering. *)
Lemma gateway_revocation_lasts req token c e w w' :
  isReady w = true -> faults w = [] ->
  jwt_decode token w = Some c -> exp c = Some e ->
  0 <= now w -> now w / 1000 < e ->
  isReady w' = true -> faults w' = [] ->
  bearer (authorization req) = Some token ->
  db w' !! Gateway.blacklist_key token
  = db (snd (Gateway.blacklistToken token w)) !! Gateway.blacklist_key token ->
  now w' / 1000 < e ->
  fst (Gateway.verifyToken req w') = Ok (Respond gateway_token_revoked).
Proof.
  intros Hr Hf Hd He Hn Hlt Hr' Hf' Hb Hsame Hlt'.
  destruct (blacklistToken_entry token w c e Hr Hf Hd He Hn Hlt) as [_ Hk].
  rewrite Hk in Hsame.
  apply (verifyToken_revoked req w' token _ _ Hr' Hf' Hb Hsame eq_refl).
  pose proof (blacklist_entry_covers (now w) e).
  pose proof (Z.mul_succ_div_gt (now w') 1000 ltac:(lia)).
  pose proof (Z.mul_div_le (now w') 1000 ltac:(lia)). nia.
Qed.

(** C3, as the gateway implements it.  [blacklistToken], the one place
    where an entry is created, gives it the whole seconds the token has left,
    [exp - floor(now / 1000)]: the entry is there at every instant at which
    the token has not expired, it expires in the second in which the token
    does, and is gone a second after. *)
Theorem blacklist_entry_lives_with_the_token token w c e :
  isReady w = true -> faults w = [] ->
  jwt_decode token w = Some c -> exp c = Some e ->
  0 <= now w -> now w / 1000 < e ->
  let w' := snd (Gateway.blacklistToken token w) in
  let x := now w + 1000 * (e - now w / 1000) in
  since w w' = [Store (SETEX (Gateway.blacklist_key token) (e - now w / 1000)
                             (VStr "true"))]
  /\ db w' !! Gateway.blacklist_key token = Some (Entry (VStr "true") (Some x))
  /\ 1000 * e <= x < 1000 * e + 1000
  /\ (forall t, t / 1000 < e ->
        peek t (db w') (Gateway.blacklist_key token)
        = Some (Entry (VStr "true") (Some x)))
  /\ (forall t, 1000 * e + 1000 <= t ->
        peek t (db w') (Gateway.blacklist_key token) = None).
Proof.
  intros Hr Hf Hd He Hn Hlt w' x.
  assert (Hrun : Gateway.blacklistToken token w
                 = (Ok tt, after (SETEX (Gateway.blacklist_key token)
                                        (e - now w / 1000) (VStr "true"))
                                 (<[Gateway.blacklist_key token :=
                                      Entry (VStr "true") (Some x)]> (db w)) w)).
  { unfold Gateway.blacklistToken, bind, get_world. rewrite Hr.
    unfold try_catch. rewrite Hd, He.
    assert (0 <= now w / 1000) by (apply Z.div_pos; lia).
    destruct (Z.eqb_spec e 0); [lia|].
    destruct (Z.gtb_spec (e - now w / 1000) 0); [|lia].
    by rewrite (redis_setex_ok _ _ _ _ Hf). }
  pose proof (blacklist_entry_covers (now w) e) as Hx. fold x in Hx.
  assert (Hk : db w' !! Gateway.blacklist_key token
               = Some (Entry (VStr "true") (Some x))).
  { subst w'. rewrite Hrun. cbn. apply lookup_insert_eq. }
  split; [|split; [exact Hk|split; [exact Hx|split]]].
  - subst w'. rewrite Hrun. cbn [snd]. apply since_app. reflexivity.
  - intros t Ht. apply (peek_live _ _ _ _ _ Hk).
    pose proof (Z.mul_succ_div_gt t 1000 ltac:(lia)). nia.
  - intros t Ht. apply (peek_expired _ _ _ _ _ Hk). lia.
Qed.

(** The one-day token of alice, valid until 87400 s, is revoked at the
    gateway at 4600 s: the entry gets the 82800 seconds left and expires at
    87400 s. *)
Lemma blacklist_entry_lives_with_the_token_witness :
  let w := set_now 4600000 Scenario.start in
  let w' := snd (Gateway.blacklistToken Scenario.token_day w) in
  since w w' = [Store (SETEX (Gateway.blacklist_key Scenario.token_day) 82800
                             (VStr "true"))]
  /\ expiry_at 4600000 (db w') (Gateway.blacklist_key Scenario.token_day)
     = Some 87400000.
Proof.
  intros w w'.
  destruct (blacklist_entry_lives_with_the_token Scenario.token_day w
              (Claims "u1" (Some "user") 1000 (Some 87400)) 87400)
    as (Hcmd & Hk & _);
    [ reflexivity | reflexivity | reflexivity | reflexivity
    | vm_compute; discriminate | reflexivity | ].
  split; [exact Hcmd|].
  subst w'. unfold expiry_at, peek. rewrite Hk. reflexivity.
Defined.

(** C3 as stated fails by the part of a second: the one-day token of
    alice, valid until 87400 s, is revoked at the gateway at 4600.5 s; the
    time to live is 82800 s, the token has 82799.5 s left, and at 87400.2 s
    the token has expired while its entry is still there. *)
Lemma blacklist_entry_outlives_the_token_by_half_a_second :
  let one := Scenario.with_bearer Scenario.token_day "10.0.0.1" in
  let w := set_now 4600500 Scenario.start in
  let w' := snd (Gateway.logout one w) in
  expiry_at 4600500 (db w') (Gateway.blacklist_key Scenario.token_day)
  = Some 87400500
  /\ fst (jwt_verify Scenario.token_day AccessSecret (set_now 87400200 w'))
     = Thrown TokenExpiredError
  /\ option_map e_val (peek 87400200 (db w') (Gateway.blacklist_key Scenario.token_day))
     = Some (VStr "true")
  /\ 87400500 - 4600500 <> 87400000 - 4600500.
Proof. vm_compute. repeat split; discriminate. Qed.

(** *** At the user service *)

Section UserLogout.

Import UserService.

(** A token that passes [authenticateToken]: the blacklist is read, and
    nothing else is called. *)
Lemma authenticate_passes req w token c u :
  faults w = [] -> nonempty (bearer (authorization req)) = Some token ->
  blacklisted w token = false -> valid_at w token c ->
  findById (userId c) w = Some u -> is_active u = true -> stale c u = false ->
  authenticateToken req w
  = (Ok (Next (authenticated (id u) token req)),
     after (GET (blacklisted_key token)) (db w) w).
Proof.
  intros Hf Hb Hbl Hv Hu Ha Hs. unfold authenticateToken. rewrite Hb.
  unfold try_catch at 1. unfold bind at 1. rewrite (redis_get_ok _ _ Hf).
  unfold blacklisted in Hbl. rewrite Hbl.
  unfold bind at 1. unfold try_catch at 1. unfold bind at 1.
  rewrite (jwt_verify_valid_in w (after (GET (blacklisted_key token)) (db w) w)
             token c Hv eq_refl eq_refl).
  unfold ret at 1. cbn iota beta. unfold bind at 1, get_world.
  change (findById (userId c) (after (GET (blacklisted_key token)) (db w) w))
    with (findById (userId c) w).
  rewrite Hu, Ha. unfold stale in Hs. cbn [negb]. rewrite Hs. reflexivity.
Qed.

(** What is not on the blacklist now is not on it later, as long as the
    entry is left alone. *)
Lemma blacklisted_later w w' token :
  blacklisted w token = false -> now w <= now w' ->
  db w' !! blacklisted_key token = db w !! blacklisted_key token ->
  blacklisted w' token = false.
Proof.
  unfold blacklisted, peek. intros Hbl Hn ->.
  destruct (db w !! blacklisted_key token) as [[v [x|]]|]; [|exact Hbl|reflexivity].
  unfold live in *. cbn [e_exp] in *.
  destruct (Z.ltb_spec (now w') x); [|reflexivity].
  destruct (Z.ltb_spec (now w) x); [exact Hbl | lia].
Qed.

End UserLogout.

(** C1, where the code departs from it.  At the user service a logout
    revokes nothing.  For a token that [authenticateToken] accepts, the
    route [POST /auth/logout] answers 500: the controller deletes the
    refresh token and then calls a method the Redis client does not have.
    No entry is written for the token, which is accepted afterwards at every
    instant before its expiry. *)
Theorem logout_leaves_the_token_accepted req w token c u t' :
  faults w = [] ->
  nonempty (bearer (authorization req)) = Some token ->
  blacklisted w token = false -> valid_at w token c ->
  UserService.findById (userId c) w = Some u -> is_active u = true ->
  stale c u = false ->
  now w <= t' -> match exp c with Some e => t' / 1000 < e | None => True end ->
  let left := UserService.logoutRoute req w in
  fst left = Ok (Respond (Response 500 "Logout failed" None None))
  /\ db (snd left) !! UserService.blacklisted_key token
     = db w !! UserService.blacklisted_key token
  /\ fst (UserService.authenticateToken req (set_now t' (snd left)))
     = Ok (Next (authenticated (id u) token req)).
Proof.
  intros Hf Hb Hbl Hv Hu Ha Hs Ht' Hx left.
  assert (Hrun : UserService.logoutRoute req w
    = (Ok (Respond (Response 500 "Logout failed" None None)),
       after (DEL (UserService.refresh_key (id u)))
             (delete (UserService.refresh_key (id u)) (db w))
             (after (GET (UserService.blacklisted_key token)) (db w) w))).
  { unfold UserService.logoutRoute, UserService.and_then. unfold bind at 1.
    rewrite (authenticate_passes req w token c u Hf Hb Hbl Hv Hu Ha Hs).
    rewrite (logout_run _ _ (id u)); [reflexivity | exact Hf | reflexivity]. }
  subst left. rewrite Hrun. cbn [fst snd].
  set (w1 := after (DEL _) _ _).
  assert (Hk : db w1 !! UserService.blacklisted_key token
               = db w !! UserService.blacklisted_key token).
  { subst w1. cbn. apply lookup_delete_ne. discriminate. }
  split; [reflexivity|]. split; [exact Hk|].
  rewrite (authenticate_passes req (set_now t' w1) token c u); try done.
  - apply (blacklisted_later w); [exact Hbl | exact Ht' | exact Hk].
  - destruct Hv as [Hp _]. split; [exact Hp | exact Hx].
Qed.

(** Alice logs in with the option to be remembered at second 1000 and
    receives a token valid until second 605800; she logs out at second 4600
    and is answered 500; an hour later the token is accepted. *)
Lemma logout_leaves_the_token_accepted_witness :
  let signin := Scenario.login_request "alice@example.com" "Secret123!" true "10.0.0.1" in
  let issued := UserService.login signin Scenario.start in
  let req := Scenario.with_bearer Scenario.token_week "10.0.0.1" in
  let left := UserService.logoutRoute req (set_now 4600000 (snd issued)) in
  access_token_of (fst issued) = Some Scenario.token_week
  /\ verdict_of (fst left) = Answered 500
  /\ db (snd left) !! UserService.blacklisted_key Scenario.token_week = None
  /\ verdict_of (fst (UserService.authenticateToken req (set_now 8200000 (snd left))))
     = Passed.
Proof.
  intros signin issued req left.
  destruct (logout_leaves_the_token_accepted req (set_now 4600000 (snd issued))
              Scenario.token_week (Claims "u1" (Some "user") 1000 (Some 605800))
              Scenario.alice 8200000)
    as (H500 & Hk & Hpass);
    [ vm_compute; reflexivity | reflexivity | vm_compute; reflexivity
    | split; vm_compute; reflexivity | vm_compute; reflexivity | reflexivity
    | reflexivity | vm_compute; discriminate | vm_compute; reflexivity | ].
  split; [vm_compute; reflexivity|].
  split; [subst left; rewrite H500; reflexivity|].
  split; [subst left; rewrite Hk; vm_compute; reflexivity|].
  subst left. rewrite Hpass. reflexivity.
Defined.

(** * Further properties *)

(** ** What a store call leaves alone *)

Lemma exec_frame t c m k :
  written c <> Some k -> snd (exec t c m) !! k = m !! k.
Proof.
  destruct c as [k'|k' s v|k'|k'|k' s|k'|k'|p]; cbn; intros H; try reflexivity.
  - apply lookup_insert_ne. congruence.
  - apply lookup_delete_ne. congruence.
  - destruct (peek t m k') as [[[] x]|]; cbn; try reflexivity;
      apply lookup_insert_ne; congruence.
  - destruct (peek t m k') as [e|]; cbn; [|reflexivity].
    destruct (s <=? 0); cbn; [apply lookup_delete_ne | apply lookup_insert_ne]; congruence.
  - destruct (peek t m k') as [e|]; reflexivity.
Qed.

Lemma call_frame c w k :
  written c <> Some k -> db (snd (call c w)) !! k = db w !! k.
Proof.
  intros H. destruct w as [t m rdy fs us L tr n]. unfold call. cbn.
  destruct (match fs with [] => false | b :: _ => b end); cbn; [reflexivity|].
  pose proof (exec_frame t c m k H) as He.
  destruct (exec t c m) as [[] m']; cbn in *; exact He.
Qed.

Lemma call_reads c w :
  written c = None ->
  db (snd (call c w)) = db w /\ users (snd (call c w)) = users w.
Proof.
  intros H. destruct w as [t m rdy fs us L tr n]. unfold call. cbn.
  destruct (match fs with [] => false | b :: _ => b end); cbn; [auto|].
  destruct c; try discriminate; cbn.
  - destruct (peek t m k); auto.
  - auto.
  - destruct (peek t m k) as [[v [x|]]|]; auto.
  - auto.
Qed.

Ltac frame_call k :=
  match goal with
  | |- context [call ?c ?w] =>
      let H := fresh "Hfr" in
      assert (H : db (snd (call c w)) !! k = db w !! k)
        by (apply call_frame; cbn; congruence);
      destruct (call c w) as [[?|?] ?]; cbn in H |- *
  end.

Ltac read_call :=
  match goal with
  | |- context [call ?c ?w] =>
      let H := fresh "Hrd" in
      pose proof (call_reads c w eq_refl) as H;
      destruct (call c w) as [[?|?] ?]; cbn in H |- *; destruct H
  end.

(** ** The token middleware of the gateway *)

Lemma blacklistToken_total token w :
  exists w', Gateway.blacklistToken token w = (Ok tt, w')
             /\ (isReady w = false -> w' = w).
Proof.
  unfold Gateway.blacklistToken, bind, get_world, try_catch.
  destruct (isReady w); [|eauto].
  destruct (jwt_decode token w) as [c|]; cbn; [|eexists; split; [reflexivity | discriminate]].
  destruct (exp c) as [e|]; cbn; [|eexists; split; [reflexivity | discriminate]].
  destruct (e =? 0); cbn; [eexists; split; [reflexivity | discriminate]|].
  destruct (e - now w / 1000 >? 0); cbn; [|eexists; split; [reflexivity | discriminate]].
  unfold redis_setex, bind, ret.
  destruct (call _ w) as [[r|err] w1]; eexists; (split; [reflexivity | discriminate]).
Qed.

Lemma verifyToken_accepts req w token c :
  isReady w = true -> faults w = [] ->
  bearer (authorization req) = Some token -> valid_at w token c ->
  truthy (option_map e_val (peek (now w) (db w) (Gateway.blacklist_key token))) = false ->
  Gateway.verifyToken req w
  = (Ok (Next (authenticated (userId c) token req)),
     after (SETEX (Gateway.user_cache_key (userId c)) Gateway.ttl_cache (VStr (userId c)))
           (<[Gateway.user_cache_key (userId c) :=
                Entry (VStr (userId c)) (Some (now w + 1000 * Gateway.ttl_cache))]> (db w))
           (after (GET (Gateway.blacklist_key token)) (db w) w)).
Proof.
  intros Hr Hf Hb Hv Hbl. unfold Gateway.verifyToken. rewrite Hb.
  unfold try_catch, bind, get_world. rewrite Hr.
  rewrite (redis_get_ok _ _ Hf). unfold ret at 1. rewrite Hbl.
  set (w1 := after _ _ w).
  rewrite (jwt_verify_valid_in w w1 token c Hv eq_refl eq_refl).
  destruct Hv as [_ He]. change (now w1) with (now w). change (isReady w1) with (isReady w).
  rewrite Hr.
  assert (Hexp : match exp c with Some e => e <? now w / 1000 | None => false end = false).
  { destruct (exp c) as [e|]; [|reflexivity]. apply Z.ltb_ge. lia. }
  rewrite Hexp. rewrite redis_setex_ok by exact Hf. reflexivity.
Qed.

Lemma verifyToken_expired req w token c e :
  isReady w = true -> faults w = [] ->
  bearer (authorization req) = Some token ->
  jwt_parse (lib w) token = Some (JwtView AccessSecret c) -> exp c = Some e ->
  e <= now w / 1000 ->
  verdict_of (fst (Gateway.verifyToken req w)) = Answered 401.
Proof.
  intros Hr Hf Hb Hp He Hle. unfold Gateway.verifyToken. rewrite Hb.
  unfold try_catch, bind, get_world. rewrite Hr.
  rewrite (redis_get_ok _ _ Hf). unfold ret at 1.
  destruct (truthy _); [reflexivity|].
  unfold jwt_verify. cbn [lib after set_db log now]. rewrite Hp. cbn. rewrite He.
  destruct (Z.geb_spec (now w / 1000) e); [reflexivity | lia].
Qed.

(** X1: a logout at the gateway revokes the token for good.  For a token
    that is valid and not yet on the blacklist, with the client ready and
    the store answering, [POST /auth/logout] answers 200 and leaves an entry
    that expires within the second in which the token does; in any later
    world that still holds the entry the token is answered 401
    [TOKEN_REVOKED] for as long as it would be valid, and it is never passed
    on again, the expiry of the token taking over from the entry. *)
Theorem gateway_logout_revokes req token c e w :
  isReady w = true -> faults w = [] -> 0 <= now w ->
  bearer (authorization req) = Some token ->
  valid_at w token c -> exp c = Some e ->
  truthy (option_map e_val (peek (now w) (db w) (Gateway.blacklist_key token))) = false ->
  let left := Gateway.logout req w in
  fst left = Ok (Respond (Response 200 "" None None))
  /\ (exists x,
        db (snd left) !! Gateway.blacklist_key token
        = Some (Entry (VStr "true") (Some x))
        /\ 1000 * e <= x < 1000 * e + 1000)
  /\ (forall w',
        isReady w' = true -> faults w' = [] -> lib w' = lib w ->
        db w' !! Gateway.blacklist_key token
        = db (snd left) !! Gateway.blacklist_key token ->
        (now w' / 1000 < e ->
         fst (Gateway.verifyToken req w') = Ok (Respond gateway_token_revoked))
        /\ verdict_of (fst (Gateway.verifyToken req w')) = Answered 401).
Proof.
  intros Hr Hf Hn Hb Hv He Hbl left.
  assert (Hlt : now w / 1000 < e) by (destruct Hv as [_ H]; by rewrite He in H).
  assert (Hrun : exists w2,
            left = (Ok (Respond (Response 200 "" None None)), w2)
            /\ db w2 !! Gateway.blacklist_key token
               = Some (Entry (VStr "true") (Some (now w + 1000 * (e - now w / 1000))))).
  { subst left. unfold Gateway.logout, bind.
    rewrite (verifyToken_accepts req w token c Hr Hf Hb Hv Hbl).
    set (w1 := after (SETEX _ _ _) _ _). cbn [req_token authenticated].
    destruct (blacklistToken_entry token w1 c e) as [Hok Hk];
      [exact Hr | exact Hf | | exact He | exact Hn | exact Hlt |].
    { unfold jwt_decode. destruct Hv as [Hp _]. cbn [lib w1 after set_db log].
      by rewrite Hp. }
    destruct (Gateway.blacklistToken token w1) as [o w2]. cbn in Hok, Hk. subst o.
    exists w2. split; [reflexivity | exact Hk]. }
  destruct Hrun as (w2 & Hrun & Hk). rewrite Hrun. cbn [fst snd].
  pose proof (blacklist_entry_covers (now w) e) as Hcov.
  split; [reflexivity|]. split; [eauto|].
  intros w' Hr' Hf' Hl' Hsame. rewrite Hk in Hsame.
  assert (Hrev : now w' < now w + 1000 * (e - now w / 1000) ->
                 fst (Gateway.verifyToken req w') = Ok (Respond gateway_token_revoked)).
  { intros Hx. by apply (verifyToken_revoked req w' token _ _ Hr' Hf' Hb Hsame). }
  split.
  - intros Hlt'. apply Hrev.
    pose proof (Z.mul_succ_div_gt (now w') 1000 ltac:(lia)). nia.
  - destruct (Z.lt_ge_cases (now w') (now w + 1000 * (e - now w / 1000))) as [Hx|Hx].
    + by rewrite (Hrev Hx).
    + apply (verifyToken_expired req w' token c e Hr' Hf' Hb); [|exact He|].
      * rewrite Hl'. by destruct Hv.
      * apply Z.div_le_lower_bound; lia.
Qed.

(** The one-day token of alice, logged out at second 1000: answered 401
    [TOKEN_REVOKED] at second 80000, and 401 at second 90000, after its
    expiry. *)
Lemma gateway_logout_revokes_witness :
  let req := Scenario.with_bearer Scenario.token_day "10.0.0.1" in
  let left := Gateway.logout req Scenario.start in
  fst left = Ok (Respond (Response 200 "" None None))
  /\ fst (Gateway.verifyToken req (set_now 80000000 (snd left)))
     = Ok (Respond gateway_token_revoked)
  /\ verdict_of (fst (Gateway.verifyToken req (set_now 90000000 (snd left))))
     = Answered 401.
Proof.
  intros req left.
  destruct (gateway_logout_revokes req Scenario.token_day
              (Claims "u1" (Some "user") 1000 (Some 87400)) 87400 Scenario.start)
    as (H200 & _ & Hlater);
    [ reflexivity | reflexivity | vm_compute; discriminate | reflexivity
    | split; vm_compute; reflexivity | reflexivity | reflexivity | ].
  split; [exact H200|]. split.
  - apply (Hlater (set_now 80000000 (snd left))); reflexivity.
  - apply (Hlater (set_now 90000000 (snd left))); reflexivity.
Defined.

(** X2: the logout of the gateway answers 200 whenever the token verifies,
    whether or not it could be blacklisted: [blacklistToken] never throws,
    and with a client that is not ready it writes nothing, so that the world
    is left as it was and the token is accepted afterwards as before. *)
Theorem gateway_logout_answers_200 req w r' :
  fst (Gateway.verifyToken req w) = Ok (Next r') ->
  fst (Gateway.logout req w) = Ok (Respond (Response 200 "" None None))
  /\ (isReady w = false ->
      snd (Gateway.logout req w) = w
      /\ fst (Gateway.verifyToken req (snd (Gateway.logout req w))) = Ok (Next r')).
Proof.
  intros Hv. unfold Gateway.logout, bind.
  destruct (Gateway.verifyToken req w) as [o w1] eqn:Hrun. cbn in Hv. subst o.
  assert (Hw1 : isReady w = false -> w1 = w).
  { intros Hr. revert Hrun. unfold Gateway.verifyToken.
    destruct (bearer (authorization req)) as [token|]; munfold; [|intros [= _ <-]; reflexivity].
    rewrite Hr. cbn.
    jwt_case token AccessSecret w; [|intros [= _ <-]; reflexivity].
    destruct (match exp _ with Some _ => _ | None => _ end); cbn;
      [intros [= _ <-]; reflexivity|].
    rewrite Hr. cbn. intros [= _ <-]; reflexivity. }
  destruct (req_token r') as [token|].
  - destruct (blacklistToken_total token w1) as (w2 & Hb & Hsame). rewrite Hb. cbn.
    split; [reflexivity|]. intros Hr. specialize (Hw1 Hr). subst w1.
    rewrite (Hsame Hr). split; [reflexivity|]. by rewrite Hrun.
  - cbn. split; [reflexivity|]. intros Hr. specialize (Hw1 Hr). subst w1.
    split; [reflexivity|]. by rewrite Hrun.
Qed.

(** With the client not ready, alice logs out and her token still
    passes. *)
Lemma gateway_logout_answers_200_witness :
  let req := Scenario.with_bearer Scenario.token_day "10.0.0.1" in
  let w := set_ready false Scenario.start in
  fst (Gateway.logout req w) = Ok (Respond (Response 200 "" None None))
  /\ snd (Gateway.logout req w) = w
  /\ verdict_of (fst (Gateway.verifyToken req (snd (Gateway.logout req w)))) = Passed.
Proof.
  intros req w.
  destruct (gateway_logout_answers_200 req w
              (authenticated "u1" Scenario.token_day req)) as [H200 Hdown];
    [vm_compute; reflexivity|].
  destruct (Hdown eq_refl) as [Hsame Hpass].
  split; [exact H200|]. split; [exact Hsame|]. rewrite Hpass. reflexivity.
Defined.

(** X3: [extractUser] passes every request on and calls nothing: the world
    is left as it was, the blacklist is not read.  The request comes out
    unchanged or with the identity of a token that verifies; a token that is
    valid in itself always identifies its user, revoked or not. *)
Theorem extractUser_never_blocks req w :
  exists r',
    Gateway.extractUser req w = (Ok (Next r'), w)
    /\ (r' = req
        \/ exists token c,
             bearer (authorization req) = Some token
             /\ jwt_parse (lib w) token = Some (JwtView AccessSecret c)
             /\ r' = Gateway.with_user (userId c) req)
    /\ (forall token c,
          bearer (authorization req) = Some token -> valid_at w token c ->
          r' = Gateway.with_user (userId c) req).
Proof.
  unfold Gateway.extractUser, bind, try_catch.
  destruct (bearer (authorization req)) as [token|] eqn:Hb.
  - destruct (jwt_verify_cases token AccessSecret w) as [(c & Hc & Hv)|(e & Hv)];
      rewrite Hv; cbn.
    + eexists. split; [reflexivity|]. split; [right; eauto|].
      intros token' c' [= <-] [Hp _]. rewrite Hp in Hc. by injection Hc as ->.
    + eexists. split; [reflexivity|]. split; [by left|].
      intros token' c' [= <-] Hval.
      rewrite (jwt_verify_valid _ _ _ Hval) in Hv. discriminate.
  - cbn. eexists. split; [reflexivity|]. split; [by left|]. intros; discriminate.
Qed.

(** ** The rate-limit store of the gateway, continued *)

Lemma increment_frame p key W w k :
  k <> p +:+ key ->
  db (snd (Gateway.increment p key W w)) !! k = db w !! k.
Proof.
  intros Hk. unfold Gateway.increment. munfold.
  destruct (isReady w); cbn; [|reflexivity].
  frame_call k; [|exact Hfr].
  destruct (_ =? 1); [destruct W as [ms|]|]; cbn.
  - frame_call k; [|congruence]. frame_call k; congruence.
  - frame_call k; [|congruence]. frame_call k; congruence.
  - frame_call k; congruence.
Qed.

Lemma rateLimit_frame l req w k :
  k <> gw_key l req ->
  db (snd (Gateway.rateLimit l req w)) !! k = db w !! k.
Proof.
  intros Hk. unfold Gateway.rateLimit.
  destruct (Gateway.skip_health l && _); [reflexivity|].
  unfold bind.
  pose proof (increment_frame (Gateway.store_prefix l) (Gateway.keyGenerator req)
                None w k Hk) as H.
  destruct (Gateway.increment _ _ _ w) as [[h|e] w']; cbn in *; [|exact H].
  destruct (Gateway.totalHits h >? Gateway.max l); exact H.
Qed.

(** X4: the counters of the gateway are kept apart.  Two of the four
    limiters never count under the same key, nor does one limiter for two
    identities; a request counted by a limiter leaves every other counter as
    it was, in any world; and an authenticated user never shares a counter
    with an anonymous origin. *)
Theorem counters_are_separate l l' req req' w :
  In l configured -> In l' configured ->
  l <> l' \/ Gateway.keyGenerator req <> Gateway.keyGenerator req' ->
  gw_key l req <> gw_key l' req'
  /\ db (snd (Gateway.rateLimit l req w)) !! gw_key l' req'
     = db w !! gw_key l' req'
  /\ (forall uid, nonempty (req_user req) = Some uid ->
                  nonempty (req_user req') = None ->
                  Gateway.keyGenerator req <> Gateway.keyGenerator req').
Proof.
  intros Hl Hl' Hne.
  assert (Hkeys : gw_key l req <> gw_key l' req').
  { destruct (decide (Gateway.store_prefix l = Gateway.store_prefix l')) as [Hp|Hp].
    - unfold gw_key. rewrite Hp. intros H. apply String.app_inj in H.
      destruct Hne as [Hne|Hne]; [|done]. apply Hne.
      unfold configured in Hl, Hl'. cbn in Hl, Hl'.
      destruct Hl as [<-|[<-|[<-|[<-|[]]]]], Hl' as [<-|[<-|[<-|[<-|[]]]]];
        try reflexivity; discriminate Hp.
    - unfold configured in Hl, Hl'. cbn in Hl, Hl'.
      destruct Hl as [<-|[<-|[<-|[<-|[]]]]], Hl' as [<-|[<-|[<-|[<-|[]]]]];
        try (exfalso; apply Hp; reflexivity); unfold gw_key; cbn; discriminate. }
  split; [exact Hkeys|]. split; [apply rateLimit_frame; congruence|].
  intros uid Hu Hn. unfold Gateway.keyGenerator. rewrite Hu, Hn. discriminate.
Qed.

(** A request of alice to an authentication route is counted for her
    under [auth:], not under [general:], and not for her address. *)
Lemma counters_are_separate_witness :
  let user := authenticated "u1" Scenario.token_day (Scenario.blank "10.0.0.1") in
  let anonymous := Scenario.blank "10.0.0.1" in
  let w := snd (Gateway.rateLimit Gateway.authLimiter user Scenario.start) in
  count_at 1000000 (db w) (gw_key Gateway.authLimiter user) = 1
  /\ db w !! gw_key Gateway.generalLimiter user = None
  /\ db w !! gw_key Gateway.authLimiter anonymous = None.
Proof.
  intros user anonymous w.
  destruct (counters_are_separate Gateway.authLimiter Gateway.generalLimiter
              user user Scenario.start) as (_ & Hclass & _);
    [ right; left; reflexivity | left; reflexivity | left; discriminate | ].
  destruct (counters_are_separate Gateway.authLimiter Gateway.authLimiter
              user anonymous Scenario.start) as (_ & Hident & _);
    [ right; left; reflexivity | right; left; reflexivity | right; discriminate | ].
  split; [vm_compute; reflexivity|]. split.
  - fold w in Hclass. rewrite Hclass. reflexivity.
  - fold w in Hident. rewrite Hident. reflexivity.
Defined.

(** X5: [RedisStore.resetKey] starts a new cycle.  With the client ready
    and the store answering the counter is deleted, whatever it read; the
    next request is the first of a cycle again: it passes (for a maximum of
    one at least) and the counter reads one, stored with no expiry, the
    store having been handed no window to ask one for. *)
Theorem resetKey_restarts_the_cycle l req w :
  isReady w = true -> faults w = [] -> counted l req ->
  let w1 := snd (Gateway.resetKey (Gateway.store_prefix l) (Gateway.keyGenerator req) w) in
  db w1 = delete (gw_key l req) (db w)
  /\ fst (Gateway.rateLimit l req w1)
     = Ok (if 1 <=? Gateway.max l then Next req else too_many l)
  /\ db (snd (Gateway.rateLimit l req w1)) !! gw_key l req
     = Some (Entry (VInt 1) None)
  /\ forall t, count_at t (db (snd (Gateway.rateLimit l req w1))) (gw_key l req) = 1.
Proof.
  intros Hr Hf Hc w1.
  assert (Hrun : Gateway.resetKey (Gateway.store_prefix l) (Gateway.keyGenerator req) w
                 = (Ok tt, after (DEL (gw_key l req)) (delete (gw_key l req) (db w)) w)).
  { unfold Gateway.resetKey, bind, get_world, try_catch. rewrite Hr. cbn [negb].
    fold (gw_key l req). by rewrite (redis_del_ok _ _ Hf). }
  subst w1. rewrite Hrun. cbn [snd].
  set (w1 := after _ _ w).
  destruct (rateLimit_first l req w1 Hr Hf Hc) as (w2 & Hlim & Hdb & _).
  { apply peek_absent. apply lookup_delete_eq. }
  rewrite Hlim. cbn [fst snd].
  assert (Hk : db w2 !! gw_key l req = Some (Entry (VInt 1) None))
    by (rewrite Hdb; apply lookup_insert_eq).
  split; [reflexivity|]. split; [reflexivity|]. split; [exact Hk|].
  intros t. by apply count_at_kept.
Qed.

(** The origin has used seven of two requests and is answered 429; after
    a reset its request passes and is counted as the first. *)
Lemma resetKey_restarts_the_cycle_witness :
  let l := Scenario.two_per_two_seconds in
  let req := Scenario.blank "10.0.0.1" in
  let w1 := snd (Gateway.resetKey (Gateway.store_prefix l) (Gateway.keyGenerator req)
                   Scenario.busy) in
  verdict_of (fst (Gateway.rateLimit l req Scenario.busy)) = Answered 429
  /\ fst (Gateway.rateLimit l req w1) = Ok (Next req)
  /\ count_at 1000000 (db (snd (Gateway.rateLimit l req w1))) (gw_key l req) = 1.
Proof.
  intros l req w1.
  destruct (resetKey_restarts_the_cycle l req Scenario.busy)
    as (_ & Hpass & _ & Hcount);
    [ reflexivity | reflexivity | reflexivity | ].
  split; [vm_compute; reflexivity|]. split; [exact Hpass | apply Hcount].
Defined.

(** ** The checks of the user service *)

(** X6: [optionalAuth] never answers.  In every world, failing store
    included, it passes the request on, and leaves the world as
    [authenticateToken] does; the request carries an identity exactly when
    [authenticateToken] would pass it on, and then the same one. *)
Theorem optionalAuth_never_blocks req w :
  exists r',
    fst (UserService.optionalAuth req w) = Ok (Next r')
    /\ snd (UserService.optionalAuth req w) = snd (UserService.authenticateToken req w)
    /\ (r' = req \/ fst (UserService.authenticateToken req w) = Ok (Next r'))
    /\ (forall r'', fst (UserService.authenticateToken req w) = Ok (Next r'') ->
                    r' = r'').
Proof.
  unfold UserService.optionalAuth, UserService.authenticateToken.
  destruct (nonempty (bearer (authorization req))) as [token|]; munfold;
    [|exists req; repeat split; auto; discriminate].
  next_call; [|exists req; repeat split; auto; discriminate].
  destruct (truthy _); cbn; [exists req; repeat split; auto; discriminate|].
  match goal with |- context [jwt_verify ?t ?s ?w'] => jwt_case t s w' end.
  - destruct (UserService.findById _ _) as [u|]; cbn;
      [|exists req; repeat split; auto; discriminate].
    destruct (is_active u); cbn; [|exists req; repeat split; auto; discriminate].
    destruct (password_changed_at u) as [t|]; cbn.
    + match goal with |- context [iat ?c >=? _] => destruct (Z.geb_spec (iat c) (t / 1000)), (Z.ltb_spec (iat c) (t / 1000)) end;
        try lia; cbn.
      * eexists; repeat split; auto. by intros r'' [= <-].
      * exists req; repeat split; auto; discriminate.
    + eexists; repeat split; auto. by intros r'' [= <-].
  - match goal with |- context [match ?e with TokenExpiredError => _ | _ => _ end] => destruct e end; cbn;
      exists req; repeat split; auto; discriminate.
Qed.

Lemma authenticateToken_reads req w :
  db (snd (UserService.authenticateToken req w)) = db w
  /\ users (snd (UserService.authenticateToken req w)) = users w.
Proof.
  unfold UserService.authenticateToken.
  destruct (nonempty (bearer (authorization req))) as [token|]; munfold; [|auto].
  read_call; [|auto].
  destruct (truthy _); cbn; [auto|].
  match goal with |- context [jwt_verify ?t ?s ?w'] => jwt_case t s w' end.
  - destruct (UserService.findById _ _) as [u|]; cbn; [|auto].
    destruct (is_active u); cbn; [|auto].
    destruct (match password_changed_at u with Some _ => _ | None => _ end); cbn; auto.
  - match goal with |- context [match ?e with TokenExpiredError => _ | _ => _ end] => destruct e end; cbn; auto.
Qed.

Lemma guard_reads req w :
  db (snd (UserService.checkFailedAttempts req w)) = db w
  /\ users (snd (UserService.checkFailedAttempts req w)) = users w
  /\ lib (snd (UserService.checkFailedAttempts req w)) = lib w.
Proof.
  unfold UserService.checkFailedAttempts.
  destruct (nonempty (body_email req)) as [e|]; munfold; [|auto].
  destruct (UserService.findByEmail e w) as [u|]; cbn.
  - pose proof (call_cases (GET (UserService.failed_user_key (id u))) w) as Hc1.
    read_call; [|tauto].
    match goal with |- context [call ?c ?w'] =>
      pose proof (call_cases c w') as Hc2 end.
    read_call; [|intuition congruence].
    destruct (js_ge _ _); cbn; [intuition congruence|].
    destruct (js_ge _ _); cbn; intuition congruence.
  - pose proof (call_cases (GET (UserService.failed_ip_key (ip req))) w) as Hc1.
    read_call; [|tauto]. destruct (js_ge _ _); cbn; tauto.
Qed.

Lemma rateLimiter_reads_only o req w :
  db (snd (UserService.rateLimiter o req w)) = db w.
Proof.
  unfold UserService.rateLimiter. munfold. read_call; [|auto].
  destruct (match _ with Some n => _ | None => false end); cbn; auto.
Qed.

Lemma verifyToken_frame req w k :
  (forall uid, k <> Gateway.user_cache_key uid) ->
  db (snd (Gateway.verifyToken req w)) !! k = db w !! k.
Proof.
  intros Hk. unfold Gateway.verifyToken.
  destruct (bearer (authorization req)) as [token|]; munfold; [|reflexivity].
  destruct (isReady w) eqn:Hr; cbn.
  - frame_call k; [|exact Hfr].
    destruct (truthy _); cbn; [exact Hfr|].
    match goal with |- context [jwt_verify ?t ?s ?w'] => jwt_case t s w' end; [|exact Hfr].
    destruct (match exp _ with Some _ => _ | None => _ end); cbn; [exact Hfr|].
    match goal with |- context [isReady ?x] => destruct (isReady x); cbn end; [|exact Hfr].
    match goal with
    | |- context [call ?c ?w] =>
        let H := fresh "Hfr" in
        assert (H : db (snd (call c w)) !! k = db w !! k)
          by (apply call_frame; cbn; intros [= E]; exact (Hk _ (eq_sym E)));
        destruct (call c w) as [[?|?] ?]; cbn in H |- *
    end; congruence.
  - jwt_case token AccessSecret w; [|reflexivity].
    destruct (match exp _ with Some _ => _ | None => _ end); cbn; [reflexivity|].
    rewrite Hr. reflexivity.
Qed.

(** X7: the checks a request goes through read the store and write
    nothing.  In every world [authenticateToken] leaves the store and the
    users as they were, and so do the failed-attempt guard and the
    middleware part of the rate limiter with the store; [verifyToken] of the
    gateway writes under the key of a cached profile and nowhere else, the
    blacklist in particular is as before. *)
Theorem checks_leave_the_store req o w :
  (db (snd (UserService.authenticateToken req w)) = db w
   /\ users (snd (UserService.authenticateToken req w)) = users w)
  /\ db (snd (UserService.checkFailedAttempts req w)) = db w
  /\ db (snd (UserService.rateLimiter o req w)) = db w
  /\ (forall k, (forall uid, k <> Gateway.user_cache_key uid) ->
                db (snd (Gateway.verifyToken req w)) !! k = db w !! k).
Proof.
  split; [apply authenticateToken_reads|].
  split; [apply guard_reads|].
  split; [apply rateLimiter_reads_only|].
  intros k. apply verifyToken_frame.
Qed.

(** ** The rate limiter of the user service, continued *)

Section UserLimiterMore.

Import UserService.

(** The middleware on a store that answers, with a counter (or nothing)
    under the key of the window. *)
Lemma rateLimiter_reads o req w :
  faults w = [] ->
  counter_or_absent (now w) (db w) (redisKey o req (now w)) ->
  rateLimiter o req w
  = (Ok (if count_at (now w) (db w) (redisKey o req (now w)) >=? max o
         then (limit_exceeded, None)
         else (Next req, Some (redisKey o req (now w)))),
     after (GET (redisKey o req (now w))) (db w) w).
Proof.
  intros Hf Hc. unfold rateLimiter, try_catch, bind, get_world.
  rewrite (redis_get_ok _ _ Hf). unfold ret, count_at.
  destruct (peek (now w) (db w) (redisKey o req (now w))) as [[v x]|] eqn:Hp; cbn.
  - destruct (Hc _ Hp) as [n Hn]. cbn in Hn. subst v. cbn.
    destruct (n >=? max o); reflexivity.
  - destruct (0 >=? max o); reflexivity.
Qed.

Lemma window_state_counter o k q c m t :
  window_state o k q c m -> counter_or_absent t m k.
Proof.
  unfold window_state, counter_or_absent. intros Hst e Hp.
  destruct (c =? 0).
  - rewrite (peek_absent _ _ _ Hst) in Hp. discriminate.
  - destruct Hst as (x & Hm & _). unfold peek in Hp. rewrite Hm in Hp.
    destruct (live t _); [|discriminate]. injection Hp as <-. eauto.
Qed.

(** Requests of window [q], after [j] earlier ones: what the world is
    afterwards. *)
Lemma requests_from_world o req st q ts : forall w j,
  faults w = [] -> plain o -> 0 < windowMs o ->
  Forall (fun t => t / windowMs o = q) ts -> 0 <= j ->
  window_state o (us_key o req q) q (Z.min j (Z.max 0 (max o))) (db w) ->
  faults (snd (requests_at o req st ts w)) = []
  /\ window_state o (us_key o req q) q
       (Z.min (j + Z.of_nat (length ts)) (Z.max 0 (max o)))
       (db (snd (requests_at o req st ts w))).
Proof.
  induction ts as [|t ts IH]; intros w j Hf Hpl HW Hts Hj Hst.
  - cbn. rewrite Z.add_0_r. auto.
  - apply Forall_cons in Hts as [Ht Hts'].
    assert (Hmin : 0 <= Z.min j (Z.max 0 (max o))) by lia.
    destruct (serve_counts o req st t w q _ Hf Hpl HW Ht Hmin Hst)
      as (w1 & Hrun & Hst1 & _ & Hf1 & _).
    cbn [requests_at]. rewrite Hrun.
    assert (Hc : (if Z.min j (Z.max 0 (max o)) <? max o
                  then Z.min j (Z.max 0 (max o)) + 1
                  else Z.min j (Z.max 0 (max o)))
                 = Z.min (j + 1) (Z.max 0 (max o))).
    { destruct (Z.ltb_spec (Z.min j (Z.max 0 (max o))) (max o)); lia. }
    rewrite Hc in Hst1.
    destruct (IH w1 (j + 1) Hf1 Hpl HW Hts' ltac:(lia) Hst1) as (Ha & Hd).
    destruct (requests_at o req st ts w1) as [rs w2]. cbn in *.
    split; [exact Ha|].
    replace (j + Z.of_nat (S (length ts)))
      with (j + 1 + Z.of_nat (length ts)) by lia. exact Hd.
Qed.

End UserLimiterMore.

(** X8: the limiters of the user service that have the same window length
    count under the same key, whatever their maximum and their route: the
    key names the client and the window only.  After requests of a client
    counted by one limiter, a limiter with the same window finds that count,
    and rejects the client when it reaches its own maximum. *)
Theorem limiters_of_one_window_share_the_counter o o' req req' st q ts t w :
  faults w = [] -> plain o -> 0 < UserService.windowMs o ->
  UserService.windowMs o' = UserService.windowMs o ->
  UserService.keyGenerator req' = UserService.keyGenerator req ->
  db w !! us_key o req q = None ->
  Forall (fun t => t / UserService.windowMs o = q) ts ->
  t / UserService.windowMs o = q ->
  let w' := snd (UserService.requests_at o req st ts w) in
  let n := Z.min (Z.of_nat (length ts)) (Z.max 0 (UserService.max o)) in
  UserService.redisKey o' req' t = UserService.redisKey o req t
  /\ count_at t (db w') (UserService.redisKey o' req' t) = n
  /\ fst (UserService.rateLimiter o' req' (set_now t w'))
     = Ok (if n >=? UserService.max o'
           then (limit_exceeded, None)
           else (Next req', Some (UserService.redisKey o' req' t))).
Proof.
  intros Hf Hpl HW HW' Hkg Hnone Hts Ht w' n.
  assert (Hzero : window_state o (us_key o req q) q
                    (Z.min 0 (Z.max 0 (UserService.max o))) (db w)).
  { replace (Z.min 0 (Z.max 0 (UserService.max o))) with 0 by lia. exact Hnone. }
  destruct (requests_from_world o req st q ts w 0 Hf Hpl HW Hts ltac:(lia) Hzero)
    as (Hf' & Hst).
  fold w' in Hf', Hst. rewrite Z.add_0_l in Hst. fold n in Hst.
  assert (Hkey : UserService.redisKey o' req' t = us_key o req q).
  { unfold UserService.redisKey, UserService.windowStart, us_key.
    rewrite HW', Hkg, Ht. reflexivity. }
  assert (Hcount : count_at t (db w') (us_key o req q) = n)
    by exact (count_at_window _ _ _ _ _ _ HW Ht Hst).
  split; [by rewrite Hkey, (redisKey_window o req t q Ht)|].
  split; [by rewrite Hkey|].
  rewrite rateLimiter_reads; cbn [now set_now db fst].
  - rewrite Hkey. change (db (set_now t w')) with (db w'). by rewrite Hcount.
  - exact Hf'.
  - rewrite Hkey. apply (window_state_counter _ _ _ _ _ _ Hst).
Qed.

(** Three logins of an origin (ten per fifteen minutes) use up the three
    requests for a password reset of the same fifteen minutes. *)
Lemma limiters_of_one_window_share_the_counter_witness :
  let login := UserService.Options 900000 10 false false in
  let reset := UserService.Options 900000 3 false false in
  let req := Scenario.login_request "alice@example.com" "x" false "10.0.0.1" in
  let req' := Scenario.blank "10.0.0.1" in
  let w' := snd (UserService.requests_at login req 401
                   [1000000; 1001000; 1002000] Scenario.start) in
  fst (UserService.rateLimiter reset req' (set_now 1003000 Scenario.start))
  = Ok (Next req', Some (UserService.redisKey reset req' 1003000))
  /\ fst (UserService.rateLimiter reset req' (set_now 1003000 w'))
     = Ok (limit_exceeded, None).
Proof.
  intros login reset req req' w'.
  destruct (limiters_of_one_window_share_the_counter login reset req req' 401 1
              [1000000; 1001000; 1002000] 1003000 Scenario.start)
    as (_ & _ & Hrun);
    [ reflexivity | split; reflexivity | reflexivity | reflexivity | reflexivity
    | vm_compute; reflexivity | repeat constructor | reflexivity | ].
  split; [vm_compute; reflexivity | exact Hrun].
Defined.

Lemma serve_skipped o req st t w :
  (UserService.skipSuccessfulRequests o && (st <? 400))
  || (UserService.skipFailedRequests o && (st >=? 400)) = true ->
  db (snd (UserService.serve o req st t w)) = db w.
Proof.
  intros Hskip. unfold UserService.serve.
  pose proof (rateLimiter_reads_only o req (set_now t w)) as Hrd.
  destruct (UserService.rateLimiter o req (set_now t w)) as [[[res [key|]]|e] w1];
    cbn in *; try exact Hrd.
  unfold UserService.onFinish. rewrite Hskip. exact Hrd.
Qed.

Lemma serve_skipped_passes o req st t w :
  (UserService.skipSuccessfulRequests o && (st <? 400))
  || (UserService.skipFailedRequests o && (st >=? 400)) = true ->
  faults w = [] ->
  counter_or_absent t (db w) (UserService.redisKey o req t) ->
  count_at t (db w) (UserService.redisKey o req t) < UserService.max o ->
  UserService.serve o req st t w
  = (Ok (Next req), after (GET (UserService.redisKey o req t)) (db w) (set_now t w)).
Proof.
  intros Hskip Hf Hc Hlt. unfold UserService.serve.
  rewrite rateLimiter_reads; [|exact Hf|exact Hc]. cbn [now set_now db].
  change (db (set_now t w)) with (db w).
  destruct (Z.geb_spec (count_at t (db w) (UserService.redisKey o req t))
                       (UserService.max o)); [lia|].
  unfold UserService.onFinish. rewrite Hskip. reflexivity.
Qed.

(** X9: a response the options tell the limiter to skip is not counted.
    With [skipSuccessfulRequests] and a status below 400, or
    [skipFailedRequests] and a status from 400 on, any number of requests
    leaves the store as it was, in every world; and on a store that answers,
    a client below the maximum stays below it: every one of its requests is
    passed on. *)
Theorem skipped_responses_are_not_counted o req st ts w :
  (UserService.skipSuccessfulRequests o && (st <? 400))
  || (UserService.skipFailedRequests o && (st >=? 400)) = true ->
  db (snd (UserService.requests_at o req st ts w)) = db w
  /\ (faults w = [] ->
      Forall (fun t => counter_or_absent t (db w) (UserService.redisKey o req t)
                       /\ count_at t (db w) (UserService.redisKey o req t)
                          < UserService.max o) ts ->
      Forall (fun r => r = Ok (Next req))
             (fst (UserService.requests_at o req st ts w))).
Proof.
  intros Hskip. split.
  - revert w. induction ts as [|t ts IH]; intros w; [reflexivity|].
    cbn [UserService.requests_at].
    pose proof (serve_skipped o req st t w Hskip) as H1.
    destruct (UserService.serve o req st t w) as [r w1].
    specialize (IH w1).
    destruct (UserService.requests_at o req st ts w1) as [rs w2]. cbn in *. congruence.
  - revert w. induction ts as [|t ts IH]; intros w Hf Hts; [constructor|].
    apply Forall_cons in Hts as [[Hc Hlt] Hts'].
    cbn [UserService.requests_at].
    rewrite (serve_skipped_passes o req st t w Hskip Hf Hc Hlt).
    set (w1 := after _ _ _).
    specialize (IH w1 Hf Hts').
    destruct (UserService.requests_at o req st ts w1) as [rs w2]. cbn in *.
    constructor; [reflexivity | exact IH].
Qed.

(** Four successful requests in a window of two: all pass and nothing is
    stored when successes are skipped; the third is answered 429 when they
    are counted. *)
Lemma skipped_responses_are_not_counted_witness :
  let o := UserService.Options 60000 2 true false in
  let req := Scenario.blank "10.0.0.1" in
  let run := UserService.requests_at o req 200
               [1000000; 1000500; 1001000; 1001500] Scenario.start in
  db (snd run) = ∅
  /\ fst run = [Ok (Next req); Ok (Next req); Ok (Next req); Ok (Next req)]
  /\ map verdict_of
         (fst (UserService.requests_at Scenario.two_per_minute req 200
                 [1000000; 1000500; 1001000; 1001500] Scenario.start))
     = [Passed; Passed; Answered 429; Answered 429].
Proof.
  intros o req run.
  destruct (skipped_responses_are_not_counted o req 200
              [1000000; 1000500; 1001000; 1001500] Scenario.start eq_refl)
    as [Hdb _].
  split; [exact Hdb|]. split; vm_compute; reflexivity.
Defined.

Section Bursts.

Import UserService.

Lemma arrive_below o req q c ts : forall w,
  faults w = [] -> 0 < windowMs o ->
  Forall (fun t => t / windowMs o = q) ts ->
  window_state o (us_key o req q) q c (db w) -> c < max o ->
  exists w',
    arrive o req ts w
    = (map (fun _ => Ok (Next req, Some (us_key o req q))) ts, w')
    /\ faults w' = [] /\ db w' = db w.
Proof.
  induction ts as [|t ts IH]; intros w Hf HW Hts Hst Hc.
  - exists w. auto.
  - apply Forall_cons in Hts as [Ht Hts'].
    cbn [arrive map].
    rewrite rateLimiter_reads;
      [|exact Hf
       |cbn [now set_now db]; rewrite (redisKey_window o req t q Ht);
        apply (window_state_counter _ _ _ _ _ _ Hst)].
    cbn [now set_now db]. rewrite (redisKey_window o req t q Ht).
    change (db (set_now t w)) with (db w).
    rewrite (count_at_window o _ q c t (db w) HW Ht Hst).
    destruct (Z.geb_spec c (max o)); [lia|].
    set (w1 := after _ _ _).
    destruct (IH w1 Hf HW Hts' Hst Hc) as (w' & -> & Hf' & Hdb').
    exists w'. auto.
Qed.

Lemma onFinish_counts o key st q c w :
  faults w = [] -> plain o -> 0 < windowMs o -> now w / windowMs o = q ->
  0 <= c -> window_state o key q c (db w) ->
  exists w',
    onFinish o key st w = (Ok tt, w')
    /\ faults w' = [] /\ now w' = now w
    /\ window_state o key q (c + 1) (db w').
Proof.
  intros Hf [Hs1 Hs2] HW Hq Hc Hst.
  pose proof (in_window _ _ _ HW Hq) as Hlo.
  pose proof (ceil_div_covers _ HW) as Hcov.
  pose proof (ceil_div_pos _ HW) as Hpos.
  unfold onFinish. rewrite Hs1, Hs2. cbn [andb orb].
  assert (Hcnt : counter_or_absent (now w) (db w) key)
    by apply (window_state_counter _ _ _ _ _ _ Hst).
  unfold bind. rewrite (redis_incr_ok _ _ Hf Hcnt).
  set (w1 := after _ _ w).
  rewrite (redis_expire_ok key _ w1 _ _ Hf Hpos (lookup_insert_eq _ _ _)
             (live_expiry_at _ _ _ _)).
  eexists. split; [reflexivity|]. split; [exact Hf|]. split; [reflexivity|].
  subst w1. cbn [db after set_db now log]. rewrite insert_insert_eq.
  rewrite (count_at_window o key q c (now w) (db w) HW Hq Hst).
  unfold window_state. destruct (Z.eqb_spec (c + 1) 0); [lia|].
  eexists. rewrite lookup_insert_eq. split; [reflexivity|]. lia.
Qed.

Lemma finish_counts o key req st q n : forall c w,
  faults w = [] -> plain o -> 0 < windowMs o -> now w / windowMs o = q ->
  0 <= c -> window_state o key q c (db w) ->
  window_state o key q (c + Z.of_nat n)
    (db (finish o st (repeat (Ok (Next req, Some key)) n) w)).
Proof.
  induction n as [|n IH]; intros c w Hf Hpl HW Hq Hc Hst.
  - cbn. by rewrite Z.add_0_r.
  - cbn [repeat finish].
    destruct (onFinish_counts o key st q c w Hf Hpl HW Hq Hc Hst)
      as (w1 & -> & Hf1 & Hn1 & Hst1).
    cbn [snd].
    replace (c + Z.of_nat (S n)) with (c + 1 + Z.of_nat n) by lia.
    apply IH; try assumption; [by rewrite Hn1 | lia].
Qed.

End Bursts.

(** X10: requests in flight are not counted.  The limiter of the user
    service reads the counter when a request arrives and counts the request
    when its response is sent: of requests that all arrive in one window
    before any of their responses is sent, every one is passed on when the
    counter is below the maximum, however many they are, and the counter reads
    their number more once the responses are sent, past the maximum if need
    be. *)
Theorem burst_passes_the_limit o req st q c ts tf w :
  faults w = [] -> plain o -> 0 < UserService.windowMs o ->
  Forall (fun t => t / UserService.windowMs o = q) ts ->
  tf / UserService.windowMs o = q ->
  0 <= c < UserService.max o ->
  window_state o (us_key o req q) q c (db w) ->
  let run := UserService.burst o req st ts tf w in
  fst run = map (fun _ => Ok (Next req, Some (us_key o req q))) ts
  /\ count_at tf (db (snd run)) (us_key o req q) = c + Z.of_nat (length ts).
Proof.
  intros Hf Hpl HW Hts Htf Hc Hst run. subst run. unfold UserService.burst.
  destruct (arrive_below o req q c ts w Hf HW Hts Hst ltac:(lia))
    as (w1 & -> & Hf1 & Hdb1).
  cbn [fst snd]. split; [reflexivity|].
  apply (count_at_window o _ q _ tf _ HW Htf).
  rewrite <- (repeat_length (Ok (Next req, Some (us_key o req q))) (length ts)) at 1.
  assert (Hrep : map (fun _ : Z => @Ok (result * option string)
                                       (Next req, Some (us_key o req q))) ts
                 = repeat (Ok (Next req, Some (us_key o req q))) (length ts)).
  { clear. induction ts as [|t ts IH]; cbn; [reflexivity | by rewrite IH]. }
  rewrite Hrep, repeat_length.
  apply finish_counts;
    [ exact Hf1 | exact Hpl | exact HW | exact Htf | lia
    | change (db (set_now tf w1)) with (db w1); by rewrite Hdb1 ].
Qed.

(** Five requests in flight together pass a limiter of two per minute
    and leave the counter at five; one after the other, the third is answered
    429. *)
Lemma burst_passes_the_limit_witness :
  let o := Scenario.two_per_minute in
  let req := Scenario.blank "10.0.0.1" in
  let ts := [1000000; 1000010; 1000020; 1000030; 1000040] in
  let run := UserService.burst o req 200 ts 1000500 Scenario.start in
  map (fun r => match r with Ok (res, _) => verdict_of (Ok res) | Thrown _ => Crashed end)
      (fst run)
  = [Passed; Passed; Passed; Passed; Passed]
  /\ count_at 1000500 (db (snd run)) (us_key o req 16) = 5
  /\ map verdict_of (fst (UserService.requests_at o req 200 ts Scenario.start))
     = [Passed; Passed; Answered 429; Answered 429; Answered 429].
Proof.
  intros o req ts run.
  destruct (burst_passes_the_limit o req 200 16 0 ts 1000500 Scenario.start)
    as (Hall & Hcount);
    [ reflexivity | split; reflexivity | reflexivity | repeat constructor
    | reflexivity | split; [lia | reflexivity] | reflexivity | ].
  split; [fold run in Hall; rewrite Hall; reflexivity|].
  split; [exact Hcount | vm_compute; reflexivity].
Defined.

(** ** Sessions *)

Lemma peek_delete_eq t (m : gmap string entry) k : peek t (delete k m) k = None.
Proof. unfold peek. by rewrite lookup_delete_eq. Qed.

Section Sessions.

Import UserService.

Lemma listed_keys_wf t (m : gmap string entry) :
  sessions_wf t m ->
  forall k e,
    In k (filter (fun k => String.prefix "session:" k
                           && bool_decide (is_Some (peek t m k)))
                 (map fst (map_to_list m))) ->
    peek t m k = Some e -> exists s, e_val e = VJson s.
Proof.
  intros Hwf k e Hin Hp. apply (Hwf k e); [|exact Hp].
  pose proof (session_keys t m) as Hall.
  rewrite List.Forall_forall in Hall. by apply Hall.
Qed.

End Sessions.

Section SessionsMore.

Import UserService.

(** What [logout] leaves of the store, whether the store answers or
    not. *)
Lemma logout_any req w uid :
  req_user req = Some uid ->
  exists w',
    logout req w = (Ok (Respond (Response 500 "Logout failed" None None)), w')
    /\ db w' = if failing w then db w else delete (refresh_key uid) (db w).
Proof.
  intros Hu. unfold logout. rewrite Hu.
  destruct w as [t m rdy fs us L tr n].
  unfold failing. munfold. unfold call. cbn.
  destruct (match fs with [] => false | b :: _ => b end); cbn;
    [eexists; split; reflexivity|].
  destruct (peek t m (refresh_key uid)); cbn; eexists; split; reflexivity.
Qed.

(** A refresh token is answered 401 when the store holds nothing, or
    something else, for the identity it names. *)
Lemma refresh_rejected req w presented :
  faults w = [] -> nonempty (body_refreshToken req) = Some presented ->
  (forall c e,
      jwt_parse (lib w) presented = Some (JwtView RefreshSecret c) ->
      peek (now w) (db w) (refresh_key (userId c)) = Some e ->
      same_string (e_val e) presented = false) ->
  fst (refreshToken req w)
  = Ok (Respond (Response 401 "Invalid refresh token" None None)).
Proof.
  intros Hf Hp Hno. unfold refreshToken. rewrite Hp.
  destruct (jwt_verify_cases presented RefreshSecret w) as [(c & Hc & Hv)|(e & Hv)].
  2:{ mexec. rewrite Hv. reflexivity. }
  mexec. rewrite Hv. cbn.
  destruct w as [t0 m rdy fs us L tr n]. cbn in Hf, Hc, Hno. subst fs.
  mexec. specialize (Hno c).
  destruct (peek t0 m (refresh_key (userId c))) as [[v x]|] eqn:Hk; cbn; [|reflexivity].
  pose proof (Hno _ Hc eq_refl) as Hs. cbn in Hs. rewrite Hs. cbn.
  rewrite orb_true_r. reflexivity.
Qed.

End SessionsMore.

Lemma sessions_wfb_spec t (m : gmap string entry) :
  sessions_wfb m = true -> sessions_wf t m.
Proof.
  intros H k e Hk Hp. unfold peek in Hp.
  destruct (m !! k) as [e'|] eqn:Hm; [|discriminate].
  destruct (live t e'); [|discriminate]. injection Hp as <-.
  unfold sessions_wfb in H. rewrite forallb_forall in H.
  specialize (H (k, e')). cbn in H. rewrite Hk in H. cbn in H.
  destruct (e_val e') as [| |s]; [discriminate H | discriminate H | eauto];
    rewrite <- list_elem_of_In; by apply elem_of_map_to_list.
Qed.

(** X11: what a logout at the user service changes.  Whatever the store
    holds and whether it answers or not, [logout] answers 500, puts no token
    on the blacklist and removes no session: but for the refresh token of
    the caller, every key holds what it held.  When the first call is
    answered that refresh token is deleted, and a refresh token that names
    the user is answered 401 from then on, while nothing is stored for them
    again. *)
Theorem logout_deletes_the_refresh_token_only req req' w w' uid presented :
  req_user req = Some uid ->
  let left := UserService.logout req w in
  fst left = Ok (Respond (Response 500 "Logout failed" None None))
  /\ (forall k, k <> UserService.refresh_key uid ->
                db (snd left) !! k = db w !! k)
  /\ (failing w = false ->
      db (snd left) !! UserService.refresh_key uid = None
      /\ (faults w' = [] -> lib w' = lib w ->
          db w' !! UserService.refresh_key uid
          = db (snd left) !! UserService.refresh_key uid ->
          nonempty (body_refreshToken req') = Some presented ->
          (forall c, jwt_parse (lib w) presented = Some (JwtView RefreshSecret c) ->
                     userId c = uid) ->
          fst (UserService.refreshToken req' w')
          = Ok (Respond (Response 401 "Invalid refresh token" None None)))).
Proof.
  intros Hu left.
  destruct (logout_any req w uid Hu) as (w1 & Hrun & Hdb).
  subst left. rewrite Hrun. cbn [fst snd]. rewrite Hdb.
  split; [reflexivity|]. split.
  - intros k Hk. destruct (failing w); [reflexivity|]. by apply lookup_delete_ne.
  - intros Hok. rewrite Hok.
    assert (Hnone : delete (UserService.refresh_key uid) (db w)
                      !! UserService.refresh_key uid = None)
      by apply lookup_delete_eq.
    split; [exact Hnone|].
    intros Hf' Hl' Hsame Hp Hnames.
    apply (refresh_rejected req' w' presented Hf' Hp).
    intros c e Hc. rewrite Hl' in Hc. rewrite (Hnames c Hc).
    rewrite Hnone in Hsame. unfold peek. rewrite Hsame. discriminate.
Qed.

(** Alice and bob are signed in; alice logs out and is answered 500: her
    session is still there and her token is not on the blacklist, her
    refresh token is gone and is answered 401. *)
Lemma logout_deletes_the_refresh_token_only_witness :
  let signin e pw := Scenario.login_request e pw false "10.0.0.1" in
  let w1 := snd (UserService.login (signin "alice@example.com" "Secret123!") Scenario.start) in
  let w2 := snd (UserService.login (signin "bob@example.com" "Hunter2!") w1) in
  let req := authenticated "u1" Scenario.token_day
               (Scenario.with_bearer Scenario.token_day "10.0.0.1") in
  let left := UserService.logout req w2 in
  let again := Scenario.refresh_request Scenario.token_refresh "10.0.0.1" in
  session_of "u1" 1000000 (db w2) (UserService.session_key w2 Scenario.token_day) = true
  /\ fst left = Ok (Respond (Response 500 "Logout failed" None None))
  /\ session_of "u1" 1000000 (db (snd left))
                (UserService.session_key w2 Scenario.token_day) = true
  /\ db (snd left) !! UserService.blacklisted_key Scenario.token_day = None
  /\ db (snd left) !! UserService.refresh_key "u1" = None
  /\ fst (UserService.refreshToken again (snd left))
     = Ok (Respond (Response 401 "Invalid refresh token" None None)).
Proof.
  intros signin w1 w2 req left again.
  destruct (logout_deletes_the_refresh_token_only req again w2 (snd left) "u1"
              Scenario.token_refresh eq_refl)
    as (H500 & Hother & Hgone).
  destruct (Hgone eq_refl) as [Hnone Hrefused].
  split; [vm_compute; reflexivity|]. split; [exact H500|].
  split; [vm_compute; reflexivity|].
  split; [subst left; rewrite Hother by discriminate; vm_compute; reflexivity|].
  split; [exact Hnone|].
  apply Hrefused; [vm_compute; reflexivity | reflexivity | reflexivity | reflexivity |].
  intros c Hc. vm_compute in Hc. by injection Hc as <-.
Defined.


(** ** Password change and account deletion *)

Section Accounts.

Import UserService.

Lemma authenticate_inactive req w token c u :
  faults w = [] -> nonempty (bearer (authorization req)) = Some token ->
  blacklisted w token = false -> valid_at w token c ->
  findById (userId c) w = Some u -> is_active u = false ->
  fst (authenticateToken req w)
  = Ok (Respond (Response 403 "Account disabled" None None)).
Proof.
  intros Hf Hb Hbl Hv Hu Ha. unfold authenticateToken. rewrite Hb.
  destruct w as [t0 m rdy fs us L tr n]. cbn in Hf. subst fs.
  unfold blacklisted in Hbl. cbn in Hbl. mexec. rewrite Hbl. cbn.
  rewrite (jwt_verify_valid_in _ _ _ _ Hv) by reflexivity. cbn.
  unfold findById in *. cbn in *. rewrite Hu. cbn. rewrite Ha. reflexivity.
Qed.

Lemma refresh_inactive req w presented :
  faults w = [] -> nonempty (body_refreshToken req) = Some presented ->
  (forall c u,
      jwt_parse (lib w) presented = Some (JwtView RefreshSecret c) ->
      findById (userId c) w = Some u -> is_active u = false) ->
  verdict_of (fst (refreshToken req w)) = Answered 401.
Proof.
  intros Hf Hp Hno. unfold refreshToken. rewrite Hp.
  destruct (jwt_verify_cases presented RefreshSecret w) as [(c & Hc & Hv)|(e & Hv)].
  2:{ mexec. rewrite Hv. reflexivity. }
  mexec. rewrite Hv. cbn.
  destruct w as [t0 m rdy fs us L tr n]. cbn in Hf, Hc, Hno. subst fs.
  mexec. specialize (Hno c). unfold findById in *. cbn in *.
  destruct (negb _ || negb _); cbn; [reflexivity|].
  destruct (find _ us) as [u|]; cbn; [|reflexivity].
  rewrite (Hno u Hc eq_refl). reflexivity.
Qed.

Lemma updated_profile us uid active e u :
  find (fun u => String.eqb (id u) uid) us = Some u ->
  find (fun u => String.eqb (id u) uid)
       (map (fun u => if String.eqb (id u) uid
                      then User (id u) e (username u) (password u) active
                                (password_changed_at u)
                      else u) us)
  = Some (User (id u) e (username u) (password u) active (password_changed_at u)).
Proof.
  induction us as [|v us IH]; [discriminate|]. cbn.
  destruct (String.eqb (id v) uid) eqn:E; cbn.
  - rewrite E. by intros [= ->].
  - rewrite E. exact IH.
Qed.

(** A confirmed account deletion marks the account, and stops at the call
    of the helper on [this]. *)
Lemma deleteAccount_run req w uid u :
  req_user req = Some uid -> findById uid w = Some u ->
  password u = body_password req ->
  deleteAccount true req w
  = (Ok (Respond (Response 500 "Account deletion failed" None None)),
     set_users
       (map (fun v => if String.eqb (id v) uid
                      then User (id v)
                                ("deleted_" +:+ pretty (now w) +:+ "_" +:+ email u)
                                (username v) (password v) false
                                (password_changed_at v)
                      else v)
            (users w))
       (log (VerifyPassword (id u)) w)).
Proof.
  intros Hr Hu Hpw. unfold deleteAccount. rewrite Hr.
  unfold try_catch, bind, get_world. cbn [negb]. rewrite Hu.
  unfold verifyPassword. rewrite Hpw, String.eqb_refl. reflexivity.
Qed.

End Accounts.

(** X12: what a password change leaves.  With the right current password
    and a new one that is strong enough and different, [changePassword], as
    the route calls it, stamps the account with the new password and the
    time of the change and then answers 500: its call of the helper that
    should end the sessions goes through [this], which is undefined.  No
    call reaches the store, so that the sessions and the refresh token of
    the user stay as they were. *)
Theorem password_change_keeps_the_sessions req w uid u :
  req_user req = Some uid -> UserService.findById uid w = Some u ->
  password u = body_currentPassword req ->
  validatePasswordStrength (lib w) (body_newPassword req) = true ->
  body_newPassword req <> password u ->
  let changed := UserService.changePassword req w in
  fst changed = Ok (Respond (Response 500 "Password change failed" None None))
  /\ UserService.findById uid (snd changed)
     = Some (User (id u) (email u) (username u) (body_newPassword req)
                  (is_active u) (Some (now w)))
  /\ db (snd changed) = db w
  /\ since w (snd changed) = [VerifyPassword (id u)].
Proof.
  intros Hr Hu Hpw Hstrong Hnew changed.
  destruct (changePassword_stamps req w uid u Hr Hu Hpw Hstrong Hnew)
    as [Hrun Hfind].
  subst changed. split; [by rewrite Hrun|]. split; [exact Hfind|].
  rewrite Hrun. cbn [snd]. split; [reflexivity|].
  apply since_app. reflexivity.
Qed.

(** Alice signs in and changes her password: the answer is 500, the new
    password is stored, and her session and her refresh token are still
    there. *)
Lemma password_change_keeps_the_sessions_witness :
  let signin := Scenario.login_request "alice@example.com" "Secret123!" false "10.0.0.1" in
  let w1 := snd (UserService.login signin Scenario.start) in
  let change := Scenario.password_request "u1" Scenario.token_day
                  "Secret123!" "NewSecret1!" "10.0.0.1" in
  let changed := UserService.changePassword change (set_now 1002500 w1) in
  verdict_of (fst changed) = Answered 500
  /\ option_map password (UserService.findById "u1" (snd changed))
     = Some "NewSecret1!"
  /\ session_of "u1" 1002500 (db (snd changed))
                (UserService.session_key w1 Scenario.token_day) = true
  /\ db (snd changed) !! UserService.refresh_key "u1"
     = Some (Entry (VStr Scenario.token_refresh) (Some 605800000)).
Proof.
  intros signin w1 change changed.
  destruct (password_change_keeps_the_sessions change (set_now 1002500 w1)
              "u1" Scenario.alice)
    as (H500 & Hfind & Hdb & _);
    [ reflexivity | vm_compute; reflexivity | reflexivity | reflexivity
    | discriminate | ].
  split; [subst changed; rewrite H500; reflexivity|].
  split; [subst changed; rewrite Hfind; reflexivity|].
  subst changed. rewrite Hdb. split; vm_compute; reflexivity.
Defined.

(** X13: a deleted account is locked out.  A confirmed [deleteAccount]
    with the right password, as the route calls it, leaves the account
    inactive with its address renamed to [deleted_<now>_<address>] and then
    answers 500: its call of the helper that should end the sessions goes
    through [this], which is undefined, and the store is left as it was.
    From then on, while the users table stays as it is, a token of the user
    that is valid in itself and not on the blacklist is answered 403 by
    [authenticateToken], and a refresh token that names the user is answered
    401. *)
Theorem deleted_account_is_locked_out req req' req'' w w' uid u token c presented :
  req_user req = Some uid -> UserService.findById uid w = Some u ->
  password u = body_password req ->
  let deleted := UserService.deleteAccount true req w in
  fst deleted = Ok (Respond (Response 500 "Account deletion failed" None None))
  /\ UserService.findById uid (snd deleted)
     = Some (User (id u) ("deleted_" +:+ pretty (now w) +:+ "_" +:+ email u)
                  (username u) (password u) false (password_changed_at u))
  /\ db (snd deleted) = db w
  /\ (faults w' = [] -> users w' = users (snd deleted) ->
      (nonempty (bearer (authorization req')) = Some token ->
       blacklisted w' token = false -> valid_at w' token c -> userId c = uid ->
       fst (UserService.authenticateToken req' w')
       = Ok (Respond (Response 403 "Account disabled" None None)))
      /\ (nonempty (body_refreshToken req'') = Some presented ->
          (forall c', jwt_parse (lib w') presented = Some (JwtView RefreshSecret c') ->
                      userId c' = uid) ->
          verdict_of (fst (UserService.refreshToken req'' w')) = Answered 401)).
Proof.
  intros Hr Hu Hpw deleted.
  assert (Hfind : UserService.findById uid (snd deleted)
                  = Some (User (id u) ("deleted_" +:+ pretty (now w) +:+ "_" +:+ email u)
                               (username u) (password u) false (password_changed_at u))).
  { subst deleted. rewrite (deleteAccount_run req w uid u Hr Hu Hpw).
    unfold UserService.findById. cbn. apply updated_profile. exact Hu. }
  split; [subst deleted; by rewrite (deleteAccount_run req w uid u Hr Hu Hpw)|].
  split; [exact Hfind|].
  split; [subst deleted; by rewrite (deleteAccount_run req w uid u Hr Hu Hpw)|].
  intros Hf' Hus.
  assert (Hfind' : UserService.findById uid w'
                   = Some (User (id u) ("deleted_" +:+ pretty (now w) +:+ "_" +:+ email u)
                                (username u) (password u) false (password_changed_at u))).
  { unfold UserService.findById in *. by rewrite Hus. }
  split.
  - intros Hb Hbl Hv Hid.
    eapply (authenticate_inactive req' w' token c); try eassumption;
      [rewrite Hid; exact Hfind' | reflexivity].
  - intros Hp Hnames. apply (refresh_inactive req'' w' presented Hf' Hp).
    intros c' u' Hc' Hu'. rewrite (Hnames c' Hc') in Hu'.
    rewrite Hfind' in Hu'. by injection Hu' as <-.
Qed.

(** Alice signs in and deletes her account: the answer is 500 and her
    session is still in the store, but the token that passed before is
    answered 403, her refresh token 401. *)
Lemma deleted_account_is_locked_out_witness :
  let signin := Scenario.login_request "alice@example.com" "Secret123!" false "10.0.0.1" in
  let w1 := set_now 1002500 (snd (UserService.login signin Scenario.start)) in
  let req := Request (Some ("Bearer " +:+ Scenario.token_day)) "10.0.0.1" "agent"
                     "/users/account" None None "Secret123!" false None "" ""
                     (Some "u1") (Some Scenario.token_day) in
  let deleted := UserService.deleteAccount true req w1 in
  let held := Scenario.with_bearer Scenario.token_day "10.0.0.1" in
  let again := Scenario.refresh_request Scenario.token_refresh "10.0.0.1" in
  verdict_of (fst (UserService.authenticateToken held w1)) = Passed
  /\ verdict_of (fst deleted) = Answered 500
  /\ option_map email (UserService.findById "u1" (snd deleted))
     = Some "deleted_1002500_alice@example.com"
  /\ session_of "u1" 1002500 (db (snd deleted))
                (UserService.session_key w1 Scenario.token_day) = true
  /\ fst (UserService.authenticateToken held (snd deleted))
     = Ok (Respond (Response 403 "Account disabled" None None))
  /\ verdict_of (fst (UserService.refreshToken again (snd deleted))) = Answered 401.
Proof.
  intros signin w1 req deleted held again.
  destruct (deleted_account_is_locked_out req held again w1 (snd deleted) "u1"
              Scenario.alice Scenario.token_day
              (Claims "u1" (Some "user") 1000 (Some 87400)) Scenario.token_refresh)
    as (H500 & Hfind & Hdb & Hlater);
    [ reflexivity | vm_compute; reflexivity | reflexivity | ].
  destruct Hlater as [Hauth Hrefresh]; [vm_compute; reflexivity | reflexivity |].
  split; [vm_compute; reflexivity|].
  split; [subst deleted; rewrite H500; reflexivity|].
  split; [subst deleted; rewrite Hfind; vm_compute; reflexivity|].
  split; [subst deleted; rewrite Hdb; vm_compute; reflexivity|].
  split.
  - apply Hauth; [reflexivity | vm_compute; reflexivity
                 | split; vm_compute; reflexivity | reflexivity].
  - apply Hrefresh; [reflexivity|].
    intros c' Hc'. vm_compute in Hc'. injection Hc' as <-. reflexivity.
Defined.

(** ** Logins and the failed-attempt counters *)

Section Logins.

Import UserService.

(** Recording a failure, with what becomes of the world. *)
Lemma incrementFailedAttempts_world uid addr w :
  faults w = [] ->
  counter_or_absent (now w) (db w) (failed_user_key uid) ->
  counter_or_absent (now w) (db w) (failed_ip_key addr) ->
  exists w',
    incrementFailedAttempts uid addr w = (Ok tt, w')
    /\ faults w' = [] /\ now w' = now w /\ users w' = users w /\ lib w' = lib w
    /\ db w'
       = <[failed_ip_key addr :=
             Entry (VInt (count_at (now w) (db w) (failed_ip_key addr) + 1))
                   (Some (now w + 1000 * (15 * 60)))]>
           (<[failed_user_key uid :=
                Entry (VInt (count_at (now w) (db w) (failed_user_key uid) + 1))
                      (Some (now w + 1000 * (15 * 60)))]> (db w)).
Proof.
  intros Hf Hu Hi. unfold incrementFailedAttempts.
  erewrite bind_ok; [|eapply quietly_ok; apply (redis_incr_ok _ _ Hf Hu)].
  set (w1 := after _ _ w).
  erewrite bind_ok;
    [|eapply quietly_ok; eapply (redis_expire_ok _ _ w1);
      [exact Hf | lia | apply lookup_insert_eq | apply live_expiry_at]].
  set (w2 := after _ _ w1).
  assert (Hi2 : counter_or_absent (now w2) (db w2) (failed_ip_key addr)).
  { intros e. cbn. rewrite !peek_insert_ne by discriminate. apply Hi. }
  assert (Hc2 : count_at (now w2) (db w2) (failed_ip_key addr)
                = count_at (now w) (db w) (failed_ip_key addr)).
  { unfold count_at. cbn. by rewrite !peek_insert_ne by discriminate. }
  erewrite bind_ok; [|eapply quietly_ok; apply (redis_incr_ok _ w2 Hf Hi2)].
  set (w3 := after _ _ w2).
  eexists. split.
  - eapply quietly_ok; eapply (redis_expire_ok _ _ w3);
      [exact Hf | lia | apply lookup_insert_eq | apply live_expiry_at].
  - cbn. cbn in Hc2. rewrite Hc2. rewrite !insert_insert_eq. auto 10.
Qed.

Lemma login_fails req w e u :
  faults w = [] -> body_email req = Some e -> findByEmail e w = Some u ->
  is_active u = true -> password u <> body_password req ->
  counter_or_absent (now w) (db w) (failed_user_key (id u)) ->
  counter_or_absent (now w) (db w) (failed_ip_key (ip req)) ->
  exists w',
    login req w = (Ok (Respond incorrect_password), w')
    /\ faults w' = [] /\ now w' = now w /\ users w' = users w /\ lib w' = lib w
    /\ db w'
       = <[failed_ip_key (ip req) :=
             Entry (VInt (count_at (now w) (db w) (failed_ip_key (ip req)) + 1))
                   (Some (now w + 1000 * (15 * 60)))]>
           (<[failed_user_key (id u) :=
                Entry (VInt (count_at (now w) (db w) (failed_user_key (id u)) + 1))
                      (Some (now w + 1000 * (15 * 60)))]> (db w)).
Proof.
  intros Hf He Hu Ha Hpw Hcu Hci.
  destruct (incrementFailedAttempts_world (id u) (ip req)
              (log (VerifyPassword (id u)) w) Hf Hcu Hci)
    as (w1 & Hrun & H1 & H2 & H3 & H4 & Hdb).
  exists w1. split; [|auto 10].
  unfold login, try_catch, bind, get_world. rewrite He, Hu, Ha. cbn [negb].
  unfold verifyPassword.
  destruct (String.eqb_spec (password u) (body_password req)); [done|].
  cbn [negb]. by rewrite Hrun.
Qed.

Lemma login_succeeds req w e u :
  faults w = [] -> body_email req = Some e -> findByEmail e w = Some u ->
  is_active u = true -> password u = body_password req ->
  let token := generateJWT (lib w) u (if body_rememberMe req then 7 * day else day)
                           (now w) in
  let refresh := generateRefreshToken (lib w) u (now w) in
  exists w',
    login req w = (Ok (Respond (Response 200 "" None (Some (token, refresh)))), w')
    /\ faults w' = [] /\ now w' = now w /\ users w' = users w /\ lib w' = lib w
    /\ db w'
       = <[session_key w token :=
             Entry (VJson (Session (id u) (ip req) (userAgent req)
                                   (now w + day * 1000)))
                   (Some (now w + 1000 * day))]>
           (<[refresh_key (id u) :=
                Entry (VStr refresh)
                      (Some (now w + 1000 * (if body_rememberMe req
                                             then 30 * day else 7 * day)))]>
              (delete (failed_ip_key (ip req))
                      (delete (failed_user_key (id u)) (db w)))).
Proof.
  intros Hf He Hu Ha Hpw token refresh. subst token refresh.
  destruct w as [t0 m rdy fs us L tr n]. cbn in Hf. subst fs.
  unfold login, findByEmail in *. cbn in Hu. mexec. rewrite He. cbn. rewrite Hu. cbn.
  rewrite Ha. cbn. unfold verifyPassword. cbn. rewrite Hpw, String.eqb_refl. cbn.
  unfold resetFailedAttempts, createSession, quietly, success. mexec.
  eexists. split; [reflexivity|]. cbn. auto 10.
Qed.

End Logins.

(** X14: a wrong password is recorded twice and nothing else happens.
    For an active account and a store that answers, [login] answers 401
    [INCORRECT_PASSWORD]; the counter of the account and the counter of the
    origin each grow by one and are given fifteen minutes from now, also when
    they were about to expire; no other key of the store changes (no token is
    issued, no session created) and the users are as before. *)
Theorem wrong_password_is_recorded req w e u :
  faults w = [] -> body_email req = Some e ->
  UserService.findByEmail e w = Some u ->
  is_active u = true -> password u <> body_password req ->
  counter_or_absent (now w) (db w) (UserService.failed_user_key (id u)) ->
  counter_or_absent (now w) (db w) (UserService.failed_ip_key (ip req)) ->
  let w' := snd (UserService.login req w) in
  let user_key := UserService.failed_user_key (id u) in
  let ip_key := UserService.failed_ip_key (ip req) in
  fst (UserService.login req w) = Ok (Respond incorrect_password)
  /\ count_at (now w) (db w') user_key = count_at (now w) (db w) user_key + 1
  /\ count_at (now w) (db w') ip_key = count_at (now w) (db w) ip_key + 1
  /\ expiry_at (now w) (db w') user_key = Some (now w + 900000)
  /\ expiry_at (now w) (db w') ip_key = Some (now w + 900000)
  /\ (forall k, k <> user_key -> k <> ip_key -> db w' !! k = db w !! k)
  /\ users w' = users w.
Proof.
  intros Hf He Hu Ha Hpw Hcu Hci w' user_key ip_key.
  destruct (login_fails req w e u Hf He Hu Ha Hpw Hcu Hci)
    as (w1 & Hrun & _ & _ & Hus & _ & Hdb).
  subst w'. rewrite Hrun. cbn [fst snd]. rewrite Hdb.
  assert (Hlt : now w < now w + 1000 * (15 * 60)) by lia.
  assert (Hne : ip_key <> user_key) by discriminate.
  split; [reflexivity|]. repeat split.
  - erewrite count_at_live; [reflexivity| |exact Hlt].
    rewrite lookup_insert_ne by done. apply lookup_insert_eq.
  - erewrite count_at_live; [reflexivity| |exact Hlt]. apply lookup_insert_eq.
  - erewrite expiry_at_live; [f_equal; lia| |exact Hlt].
    rewrite lookup_insert_ne by done. apply lookup_insert_eq.
  - erewrite expiry_at_live; [f_equal; lia| |exact Hlt]. apply lookup_insert_eq.
  - intros k Hk1 Hk2. by rewrite !lookup_insert_ne.
  - exact Hus.
Qed.

(** Two wrong passwords at second 1000, a third at second 1300: the
    counters read three and the expiry moves from second 1900 to second
    2200. *)
Lemma wrong_password_is_recorded_witness :
  let wrong := Scenario.login_request "alice@example.com" "guess" false "10.0.0.1" in
  let w := Scenario.attempts 2 wrong Scenario.start in
  let w' := snd (UserService.login wrong (set_now 1300000 w)) in
  count_at 1300000 (db w) (UserService.failed_user_key "u1") = 2
  /\ expiry_at 1300000 (db w) (UserService.failed_user_key "u1") = Some 1900000
  /\ fst (UserService.login wrong (set_now 1300000 w)) = Ok (Respond incorrect_password)
  /\ count_at 1300000 (db w') (UserService.failed_user_key "u1") = 3
  /\ count_at 1300000 (db w') (UserService.failed_ip_key "10.0.0.1") = 3
  /\ expiry_at 1300000 (db w') (UserService.failed_user_key "u1") = Some 2200000.
Proof.
  intros wrong w w'.
  destruct (wrong_password_is_recorded wrong (set_now 1300000 w)
              "alice@example.com" Scenario.alice)
    as (Hans & Hu & Hi & Hx & _);
    [ vm_compute; reflexivity | reflexivity | vm_compute; reflexivity | reflexivity
    | discriminate | | | ].
  - intros e He. vm_compute in He. injection He as <-. eauto.
  - intros e He. vm_compute in He. injection He as <-. eauto.
  - split; [vm_compute; reflexivity|]. split; [vm_compute; reflexivity|].
    split; [exact Hans|]. split; [exact Hu|]. split; [exact Hi | exact Hx].
Defined.

(** X15: what a successful login stores besides the refresh token.  For
    an active account, the right password and a store that answers, [login]
    answers 200 with the two tokens; both failed-attempt counters, of the
    account and of the origin, are deleted; the session is stored under the
    hash of the access token with one day to live, also for a "remember me"
    login whose token lives seven days; and no other key changes. *)
Theorem successful_login_stores req w e u :
  faults w = [] -> body_email req = Some e ->
  UserService.findByEmail e w = Some u ->
  is_active u = true -> password u = body_password req ->
  let w' := snd (UserService.login req w) in
  let token := generateJWT (lib w) u
                 (if body_rememberMe req then 7 * UserService.day
                  else UserService.day) (now w) in
  let refresh := generateRefreshToken (lib w) u (now w) in
  fst (UserService.login req w)
  = Ok (Respond (Response 200 "" None (Some (token, refresh))))
  /\ db w' !! UserService.session_key w token
     = Some (Entry (VJson (Session (id u) (ip req) (userAgent req)
                                   (now w + 86400000)))
                   (Some (now w + 86400000)))
  /\ db w' !! UserService.failed_user_key (id u) = None
  /\ db w' !! UserService.failed_ip_key (ip req) = None
  /\ (forall k, k <> UserService.session_key w token ->
                k <> UserService.refresh_key (id u) ->
                k <> UserService.failed_user_key (id u) ->
                k <> UserService.failed_ip_key (ip req) ->
                db w' !! k = db w !! k).
Proof.
  intros Hf He Hu Ha Hpw w' token refresh.
  destruct (login_succeeds req w e u Hf He Hu Ha Hpw)
    as (w1 & Hrun & _ & _ & _ & _ & Hdb).
  subst w'. rewrite Hrun. cbn [fst snd]. rewrite Hdb.
  split; [reflexivity|]. repeat split.
  - rewrite lookup_insert_eq. reflexivity.
  - rewrite !lookup_insert_ne by discriminate.
    rewrite lookup_delete_ne by discriminate. apply lookup_delete_eq.
  - rewrite !lookup_insert_ne by discriminate. apply lookup_delete_eq.
  - intros k H1 H2 H3 H4.
    rewrite !lookup_insert_ne by done. by rewrite !lookup_delete_ne.
Qed.

(** Two wrong passwords, then a "remember me" login with the right one:
    the counters are gone, and the session of the seven-day token expires a
    day after the login. *)
Lemma successful_login_stores_witness :
  let wrong := Scenario.login_request "alice@example.com" "guess" false "10.0.0.1" in
  let right := Scenario.login_request "alice@example.com" "Secret123!" true "10.0.0.1" in
  let w := Scenario.attempts 2 wrong Scenario.start in
  let w' := snd (UserService.login right w) in
  count_at 1000000 (db w) (UserService.failed_ip_key "10.0.0.1") = 2
  /\ access_token_of (fst (UserService.login right w)) = Some Scenario.token_week
  /\ db w' !! UserService.failed_user_key "u1" = None
  /\ db w' !! UserService.failed_ip_key "10.0.0.1" = None
  /\ db w' !! UserService.session_key w Scenario.token_week
     = Some (Entry (VJson (Session "u1" "10.0.0.1" "agent" 87400000))
                   (Some 87400000)).
Proof.
  intros wrong right w w'.
  destruct (successful_login_stores right w "alice@example.com" Scenario.alice)
    as (Hans & Hsession & Hu & Hi & _);
    [ vm_compute; reflexivity | reflexivity | vm_compute; reflexivity | reflexivity
    | reflexivity | ].
  split; [vm_compute; reflexivity|].
  split; [rewrite Hans; vm_compute; reflexivity|].
  split; [exact Hu|]. split; [exact Hi | exact Hsession].
Defined.

(** X16: a lock lasts fifteen minutes from the last wrong password.  When
    a wrong password brings the counter of an active account to five or more,
    the guard answers a login for that account with 429 [ACCOUNT_LOCKED] at
    any time before fifteen minutes have passed, and passes it on from then
    on, the counters of the account and of the origin having expired
    together. *)
Theorem lockout_lasts_fifteen_minutes req w e u t' :
  faults w = [] -> nonempty (body_email req) = Some e ->
  UserService.findByEmail e w = Some u ->
  is_active u = true -> password u <> body_password req ->
  counter_or_absent (now w) (db w) (UserService.failed_user_key (id u)) ->
  counter_or_absent (now w) (db w) (UserService.failed_ip_key (ip req)) ->
  4 <= count_at (now w) (db w) (UserService.failed_user_key (id u)) ->
  let later := set_now t' (snd (UserService.login req w)) in
  (now w <= t' < now w + 900000 ->
   fst (UserService.checkFailedAttempts req later) = Ok (Respond locked))
  /\ (now w + 900000 <= t' ->
      fst (UserService.checkFailedAttempts req later) = Ok (Next req)).
Proof.
  intros Hf He Hu Ha Hpw Hcu Hci Hfour later.
  assert (He' : body_email req = Some e).
  { unfold nonempty in He. destruct (body_email req) as [x|]; [|discriminate].
    destruct (String.eqb x ""); [discriminate | exact He]. }
  destruct (login_fails req w e u Hf He' Hu Ha Hpw Hcu Hci)
    as (w1 & Hrun & Hf1 & Hn1 & Hus & Hl1 & Hdb).
  subst later. rewrite Hrun. cbn [snd].
  destruct (guard_decides req (set_now t' w1) e Hf1 He) as (w2 & -> & _).
  cbn [fst]. unfold guard_verdict, user_attempts, ip_attempts.
  assert (Hfind : UserService.findByEmail e (set_now t' w1) = Some u).
  { unfold UserService.findByEmail in *. cbn. by rewrite Hus. }
  rewrite Hfind. cbn [now db set_now]. rewrite Hdb.
  assert (Hku : (<[UserService.failed_ip_key (ip req) :=
                     Entry (VInt (count_at (now w) (db w) (UserService.failed_ip_key (ip req)) + 1))
                           (Some (now w + 1000 * (15 * 60)))]>
                   (<[UserService.failed_user_key (id u) :=
                        Entry (VInt (count_at (now w) (db w) (UserService.failed_user_key (id u)) + 1))
                              (Some (now w + 1000 * (15 * 60)))]> (db w)))
                !! UserService.failed_user_key (id u)
                = Some (Entry (VInt (count_at (now w) (db w) (UserService.failed_user_key (id u)) + 1))
                              (Some (now w + 1000 * (15 * 60))))).
  { rewrite lookup_insert_ne by discriminate. apply lookup_insert_eq. }
  split; intros Ht.
  - rewrite (peek_live _ _ _ _ _ Hku) by lia. cbn.
    unfold UserService.maxUserAttempts.
    destruct (Z.geb_spec (count_at (now w) (db w) (UserService.failed_user_key (id u)) + 1) 5);
      [reflexivity | lia].
  - rewrite (peek_expired _ _ _ _ _ Hku) by lia. cbn.
    erewrite peek_expired; [reflexivity | apply lookup_insert_eq | lia].
Qed.

(** Four wrong passwords at second 1000 and a fifth at second 1060: alice
    is locked until second 1960, and signs in at that second. *)
Lemma lockout_lasts_fifteen_minutes_witness :
  let wrong := Scenario.login_request "alice@example.com" "guess" false "10.0.0.1" in
  let right := Scenario.login_request "alice@example.com" "Secret123!" false "10.0.0.1" in
  let w := set_now 1060000 (Scenario.attempts 4 wrong Scenario.start) in
  let w' := snd (UserService.login wrong w) in
  fst (UserService.checkFailedAttempts wrong w) = Ok (Next wrong)
  /\ fst (UserService.checkFailedAttempts wrong (set_now 1959999 w'))
     = Ok (Respond locked)
  /\ fst (UserService.checkFailedAttempts wrong (set_now 1960000 w'))
     = Ok (Next wrong)
  /\ verdict_of (fst (UserService.loginRoute right (set_now 1960000 w')))
     = Answered 200.
Proof.
  intros wrong right w w'.
  destruct (lockout_lasts_fifteen_minutes wrong w "alice@example.com"
              Scenario.alice 1959999) as (Hin & _);
    [ vm_compute; reflexivity | reflexivity | vm_compute; reflexivity | reflexivity
    | discriminate
    | intros e He; vm_compute in He; injection He as <-; eauto
    | intros e He; vm_compute in He; injection He as <-; eauto
    | vm_compute; discriminate | ].
  destruct (lockout_lasts_fifteen_minutes wrong w "alice@example.com"
              Scenario.alice 1960000) as (_ & Hout);
    [ vm_compute; reflexivity | reflexivity | vm_compute; reflexivity | reflexivity
    | discriminate
    | intros e He; vm_compute in He; injection He as <-; eauto
    | intros e He; vm_compute in He; injection He as <-; eauto
    | vm_compute; discriminate | ].
  split; [vm_compute; reflexivity|].
  split; [apply Hin; split; [vm_compute; discriminate | reflexivity]|].
  split; [apply Hout; vm_compute; discriminate|].
  vm_compute. reflexivity.
Defined.

(** X17: the counter of the origin locks out every address.  When a wrong
    password brings the counter of the origin to ten or more, the guard
    answers 429 to every login request of that origin that names an address,
    whatever the address, for the fifteen minutes that follow; a request for
    an address without an account is answered 429 [IP_BLOCKED]. *)
Theorem origin_is_blocked_for_every_address req req' w e e' u t' :
  faults w = [] -> body_email req = Some e ->
  UserService.findByEmail e w = Some u ->
  is_active u = true -> password u <> body_password req ->
  counter_or_absent (now w) (db w) (UserService.failed_user_key (id u)) ->
  counter_or_absent (now w) (db w) (UserService.failed_ip_key (ip req)) ->
  9 <= count_at (now w) (db w) (UserService.failed_ip_key (ip req)) ->
  ip req' = ip req -> nonempty (body_email req') = Some e' ->
  now w <= t' < now w + 900000 ->
  let later := set_now t' (snd (UserService.login req w)) in
  verdict_of (fst (UserService.checkFailedAttempts req' later)) = Answered 429
  /\ (UserService.findByEmail e' w = None ->
      fst (UserService.checkFailedAttempts req' later) = Ok (Respond ip_blocked)).
Proof.
  intros Hf He Hu Ha Hpw Hcu Hci Hnine Hip He' Ht later.
  destruct (login_fails req w e u Hf He Hu Ha Hpw Hcu Hci)
    as (w1 & Hrun & Hf1 & Hn1 & Hus & Hl1 & Hdb).
  subst later. rewrite Hrun. cbn [snd].
  destruct (guard_decides req' (set_now t' w1) e' Hf1 He') as (w2 & -> & _).
  cbn [fst]. unfold guard_verdict.
  assert (Hipv : js_ge (ip_attempts (ip req') (set_now t' w1))
                       UserService.maxIpAttempts = true).
  { unfold ip_attempts. cbn [now db set_now]. rewrite Hip, Hdb.
    erewrite peek_live; [|apply lookup_insert_eq|lia]. cbn.
    unfold UserService.maxIpAttempts. apply Z.geb_le. lia. }
  rewrite Hipv. split.
  - destruct (js_ge _ UserService.maxUserAttempts); reflexivity.
  - intros Hnone. unfold user_attempts.
    assert (Hfind : UserService.findByEmail e' (set_now t' w1) = None).
    { unfold UserService.findByEmail in *. cbn. by rewrite Hus. }
    rewrite Hfind. reflexivity.
Qed.

(** Nine failures are recorded for the origin and alice adds the tenth:
    bob, who passed the guard before, and an unknown address are answered
    429. *)
Lemma origin_is_blocked_for_every_address_witness :
  let wrong := Scenario.login_request "alice@example.com" "guess" false "10.0.0.1" in
  let probe := Scenario.login_request "carol@example.com" "x" false "10.0.0.1" in
  let other := Scenario.login_request "bob@example.com" "Hunter2!" false "10.0.0.1" in
  let w := set_db (<["failed_attempts:ip:10.0.0.1" := Entry (VInt 9) (Some 1500000)]> ∅)
                  Scenario.start in
  let later := set_now 1100000 (snd (UserService.login wrong w)) in
  fst (UserService.checkFailedAttempts other w) = Ok (Next other)
  /\ verdict_of (fst (UserService.checkFailedAttempts other later)) = Answered 429
  /\ fst (UserService.checkFailedAttempts probe later) = Ok (Respond ip_blocked).
Proof.
  intros wrong probe other w later.
  assert (Hcu : counter_or_absent (now w) (db w) (UserService.failed_user_key "u1")).
  { intros e He. vm_compute in He. discriminate He. }
  assert (Hci : counter_or_absent (now w) (db w) (UserService.failed_ip_key "10.0.0.1")).
  { intros e He. vm_compute in He. injection He as <-. eauto. }
  destruct (origin_is_blocked_for_every_address wrong other w "alice@example.com"
              "bob@example.com" Scenario.alice 1100000) as (Hother & _);
    [ reflexivity | reflexivity | reflexivity | reflexivity | discriminate
    | exact Hcu | exact Hci | vm_compute; discriminate | reflexivity | reflexivity
    | split; [vm_compute; discriminate | reflexivity] | ].
  destruct (origin_is_blocked_for_every_address wrong probe w "alice@example.com"
              "carol@example.com" Scenario.alice 1100000) as (_ & Hprobe);
    [ reflexivity | reflexivity | reflexivity | reflexivity | discriminate
    | exact Hcu | exact Hci | vm_compute; discriminate | reflexivity | reflexivity
    | split; [vm_compute; discriminate | reflexivity] | ].
  split; [vm_compute; reflexivity|]. split; [exact Hother|].
  apply Hprobe. reflexivity.
Defined.

Section Probing.

Import UserService.

Lemma login_without_account req w :
  match body_email req with
  | Some e => match findByEmail e w with
              | Some u => is_active u = false
              | None => True
              end
  | None => True
  end ->
  snd (login req w) = w
  /\ exists r, fst (login req w) = Ok (Respond r)
               /\ (status r = 401 \/ status r = 403).
Proof.
  intros H. unfold login, try_catch, bind, get_world.
  destruct (body_email req) as [e|]; cbn; [|eauto 6].
  destruct (findByEmail e w) as [u|]; cbn; [|eauto 6].
  rewrite H. cbn. eauto 6.
Qed.

Lemma guard_passes_same req w r :
  fst (checkFailedAttempts req w) = Ok (Next r) -> r = req.
Proof.
  unfold checkFailedAttempts.
  destruct (nonempty (body_email req)) as [e|]; munfold; [|by intros [= <-]].
  destruct (findByEmail e w) as [u|]; cbn.
  - next_call; [|by intros [= <-]]. next_call; [|by intros [= <-]].
    destruct (js_ge _ _); cbn; [discriminate|].
    destruct (js_ge _ _); cbn; [discriminate | by intros [= <-]].
  - next_call; [|by intros [= <-]].
    destruct (js_ge _ _); cbn; [discriminate | by intros [= <-]].
Qed.

Lemma loginRoute_without_account req w :
  (forall req', loginSchema (lib w) req = Some req' ->
     match body_email req' with
     | Some e => match findByEmail e w with
                 | Some u => is_active u = false
                 | None => True
                 end
     | None => True
     end) ->
  db (snd (loginRoute req w)) = db w
  /\ users (snd (loginRoute req w)) = users w
  /\ lib (snd (loginRoute req w)) = lib w.
Proof.
  intros H.
  enough (Hrun : forall o w', loginRoute req w = (o, w') ->
                 db w' = db w /\ users w' = users w /\ lib w' = lib w).
  { destruct (loginRoute req w) as [o w'] eqn:E. exact (Hrun o w' eq_refl). }
  intros o w'. unfold loginRoute, and_then, bind.
  pose proof (guard_reads req w) as (Hdb & Hus & Hl).
  pose proof (guard_passes_same req w) as Hsame.
  destruct (checkFailedAttempts req w) as [[[r|r]|err] w1]; cbn in Hdb, Hus, Hl, Hsame;
    try (cbn; intros [= _ <-]; auto).
  specialize (Hsame r eq_refl). subst r.
  unfold validate, bind, get_world. rewrite Hl.
  destruct (loginSchema (lib w) req) as [req'|] eqn:Hs; cbn [ret reject];
    [|intros [= _ <-]; auto].
  specialize (H req' eq_refl).
  assert (H' : match body_email req' with
               | Some e => match findByEmail e w1 with
                           | Some u => is_active u = false
                           | None => True
                           end
               | None => True
               end).
  { unfold findByEmail in *. by rewrite Hus. }
  destruct (login_without_account req' w1 H') as (Hw & _).
  destruct (login req' w1) as [o2 w2]. cbn in Hw. subst w2.
  intros [= _ <-]. auto.
Qed.

End Probing.

(** X18: an address without an active account is never counted.  When the
    address of a login request, as validated, belongs to no account or to a
    disabled one, the login route writes nothing: after any number of such
    attempts, in any world, the store and the users are as they were, so that
    neither a counter of failed attempts nor a lock results from them. *)
Theorem unknown_address_is_never_counted n req w :
  (forall req', loginSchema (lib w) req = Some req' ->
     match body_email req' with
     | Some e => match UserService.findByEmail e w with
                 | Some u => is_active u = false
                 | None => True
                 end
     | None => True
     end) ->
  db (Scenario.attempts n req w) = db w
  /\ users (Scenario.attempts n req w) = users w.
Proof.
  revert w. induction n as [|n IH]; intros w H; [by split|].
  cbn [Scenario.attempts].
  destruct (loginRoute_without_account req w H) as (Hdb & Hus & Hl).
  destruct (IH (snd (UserService.loginRoute req w))) as [Hdb' Hus'].
  { intros req'. rewrite Hl. unfold UserService.findByEmail. rewrite Hus. apply H. }
  split; congruence.
Qed.

(** Twelve attempts for an unknown address leave the store empty and the
    thirteenth is answered 401; five wrong passwords for alice lock her. *)
Lemma unknown_address_is_never_counted_witness :
  let probe := Scenario.login_request "carol@example.com" "guess" false "10.0.0.1" in
  let wrong := Scenario.login_request "alice@example.com" "guess" false "10.0.0.1" in
  db (Scenario.attempts 12 probe Scenario.start) = ∅
  /\ verdict_of (fst (UserService.loginRoute probe
                        (Scenario.attempts 12 probe Scenario.start)))
     = Answered 401
  /\ verdict_of (fst (UserService.loginRoute wrong
                        (Scenario.attempts 5 wrong Scenario.start)))
     = Answered 429.
Proof.
  intros probe wrong.
  destruct (unknown_address_is_never_counted 12 probe Scenario.start) as [Hdb _].
  { intros req' [= <-]. exact I. }
  split; [exact Hdb|]. split; vm_compute; reflexivity.
Defined.

(** ** The lockout and the spelling of the address (C7) *)

Section GuardAndSchema.

Import UserService.

(** [validate(loginSchema)] on a body the schema accepts. *)
Lemma validate_ok req req' w :
  loginSchema (lib w) req = Some req' ->
  validate loginSchema req w = (Ok (Next req'), w).
Proof. intros H. unfold validate, bind, get_world. by rewrite H. Qed.

(** The guard on an address that resolves to no account, from an origin
    below its threshold. *)
Lemma guard_passes_unknown req w e :
  faults w = [] -> nonempty (body_email req) = Some e ->
  findByEmail e w = None ->
  js_ge (ip_attempts (ip req) w) maxIpAttempts = false ->
  checkFailedAttempts req w
  = (Ok (Next req), after (GET (failed_ip_key (ip req))) (db w) w).
Proof.
  intros Hf He Hn Hip. unfold checkFailedAttempts. rewrite He.
  unfold try_catch at 1. unfold bind at 1, get_world. rewrite Hn.
  unfold bind at 1, ret at 1. unfold bind at 1. rewrite (redis_get_ok _ _ Hf).
  unfold ip_attempts in Hip. rewrite Hip. reflexivity.
Qed.

End GuardAndSchema.

Section LoginTrace.

Import UserService.

(** A login with the right password starts by verifying it. *)
Lemma login_checks_the_password req w e u :
  faults w = [] -> body_email req = Some e -> findByEmail e w = Some u ->
  is_active u = true -> password u = body_password req ->
  exists evs,
    trace (snd (login req w)) = (trace w ++ VerifyPassword (id u) :: evs)%list.
Proof.
  intros Hf He Hu Ha Hpw.
  destruct w as [t0 m rdy fs us L tr n]. cbn in Hf. subst fs.
  unfold login, findByEmail in *. cbn in Hu. mexec. rewrite He. cbn. rewrite Hu. cbn.
  rewrite Ha. cbn. unfold verifyPassword. cbn. rewrite Hpw, String.eqb_refl. cbn.
  unfold resetFailedAttempts, createSession, quietly, success. mexec.
  rewrite <- !app_assoc. eexists. reflexivity.
Qed.

End LoginTrace.

(** C7, where the code departs from it.  The guard looks the account up
    under the address as the body spells it, and the schema that puts the
    address in lower case runs after the guard.  An address that differs
    from the stored one by the case of its letters resolves to no account
    for the guard and to the locked account for the controller: with five
    failures or more recorded for the identity and the origin below ten, the
    attempt passes the guard, the password is verified, the right password
    signs in, and the counter of the identity is deleted. *)
Theorem locked_identity_signs_in_under_another_spelling req w e u n x :
  faults w = [] ->
  nonempty (body_email req) = Some e ->
  loginSchema (lib w) req = Some (with_email (Validation.toLowerCase e) req) ->
  UserService.findByEmail e w = None ->
  UserService.findByEmail (Validation.toLowerCase e) w = Some u ->
  is_active u = true -> password u = body_password req ->
  peek (now w) (db w) (UserService.failed_user_key (id u)) = Some (Entry (VInt n) x) ->
  5 <= n ->
  js_ge (ip_attempts (ip req) w) 10 = false ->
  let answered := UserService.loginRoute req w in
  verdict_of (fst answered) = Answered 200
  /\ access_token_of (fst answered) <> None
  /\ password_checked (since w (snd answered)) = true
  /\ db (snd answered) !! UserService.failed_user_key (id u) = None.
Proof.
  intros Hf He Hs Hraw Hlow Ha Hpw Hk Hn Hip answered.
  set (req' := with_email (Validation.toLowerCase e) req) in *.
  set (w1 := after (GET (UserService.failed_ip_key (ip req))) (db w) w).
  destruct (login_succeeds req' w1 (Validation.toLowerCase e) u)
    as (w2 & Hrun & _ & _ & _ & _ & Hdb); try done.
  destruct (login_checks_the_password req' w1 (Validation.toLowerCase e) u)
    as (evs & Htr); try done.
  assert (Hroute : UserService.loginRoute req w = UserService.login req' w1).
  { unfold UserService.loginRoute, UserService.and_then, bind.
    rewrite (guard_passes_unknown req w e Hf He Hraw Hip).
    fold w1. rewrite (validate_ok req req' w1 Hs). reflexivity. }
  subst answered. rewrite Hroute. rewrite Hrun in Htr |- *. cbn [fst snd] in *.
  split; [reflexivity|]. split; [discriminate|]. split.
  - unfold since. rewrite Htr. subst w1. cbn [trace after set_db log].
    rewrite <- app_assoc, drop_app_length. reflexivity.
  - rewrite Hdb. rewrite !lookup_insert_ne by discriminate.
    rewrite lookup_delete_ne by discriminate. apply lookup_delete_eq.
Qed.

(** Five wrong passwords for alice from one origin: her next attempt is
    answered 429 [ACCOUNT_LOCKED] under the address as stored, and signs in
    under the same address in capitals. *)
Lemma locked_identity_signs_in_under_another_spelling_witness :
  let wrong := Scenario.login_request "alice@example.com" "guess" false "10.0.0.1" in
  let locked_out := Scenario.login_request "alice@example.com" "Secret123!" false "10.0.0.1" in
  let spelled := Scenario.login_request "ALICE@example.com" "Secret123!" false "10.0.0.1" in
  let w := Scenario.attempts 5 wrong Scenario.careful in
  count_at (now w) (db w) (UserService.failed_user_key "u1") = 5
  /\ fst (UserService.loginRoute locked_out w) = Ok (Respond locked)
  /\ verdict_of (fst (UserService.loginRoute spelled w)) = Answered 200
  /\ password_checked (since w (snd (UserService.loginRoute spelled w))) = true
  /\ count_at (now w) (db (snd (UserService.loginRoute spelled w)))
              (UserService.failed_user_key "u1") = 0.
Proof.
  intros wrong locked_out spelled w.
  destruct (locked_identity_signs_in_under_another_spelling spelled w
              "ALICE@example.com" Scenario.alice 5 (Some 1900000))
    as (H200 & _ & Hchecked & Hreset);
    [ vm_compute; reflexivity | reflexivity | vm_compute; reflexivity
    | vm_compute; reflexivity | vm_compute; reflexivity | reflexivity
    | reflexivity | vm_compute; reflexivity | lia | vm_compute; reflexivity | ].
  split; [vm_compute; reflexivity|]. split; [vm_compute; reflexivity|].
  split; [exact H200|]. split; [exact Hchecked|].
  unfold count_at, peek. change "u1" with (id Scenario.alice).
  rewrite Hreset. reflexivity.
Defined.

(** ** Refresh tokens and registration, continued *)

(** X19: [refreshToken] never issues a token.  Whatever the request and
    the world, failing store calls included, it answers 400, 401 or 500, its
    answer carries no tokens, and the store is left as it was: the one branch
    that generates a new pair ends in the call of a method the client does
    not have. *)
Theorem refresh_never_issues req w :
  (exists r,
      fst (UserService.refreshToken req w) = Ok (Respond r)
      /\ tokens r = None
      /\ (status r = 400 \/ status r = 401 \/ status r = 500))
  /\ db (snd (UserService.refreshToken req w)) = db w.
Proof.
  unfold UserService.refreshToken.
  destruct (nonempty (body_refreshToken req)) as [presented|];
    [|cbn; split; [eexists; split; [reflexivity|]; auto | reflexivity]].
  munfold.
  jwt_case presented RefreshSecret w;
    [|split; [eexists; split; [reflexivity|]; auto | reflexivity]].
  match goal with |- context [call ?c ?W] =>
    pose proof (call_reads c W eq_refl) as [Hread _];
    destruct (call c W) as [[rep|err] w1]; cbn in Hread |- *
  end;
    [|split; [eexists; split; [reflexivity|]; auto | exact Hread]].
  destruct (negb _ || negb _); cbn;
    [split; [eexists; split; [reflexivity|]; auto | exact Hread]|].
  match goal with |- context [UserService.findById ?i ?W] =>
    destruct (UserService.findById i W) as [u|] end; cbn;
    [|split; [eexists; split; [reflexivity|]; auto | exact Hread]].
  destruct (is_active u); cbn;
    (split; [eexists; split; [reflexivity|]; auto | exact Hread]).
Qed.

Section Registration.

Import UserService.

Lemma find_app_new {A} (f : A -> bool) (l : list A) (x : A) :
  find f l = None -> f x = true -> find f (l ++ [x])%list = Some x.
Proof.
  induction l as [|y l IH]; cbn; intros Hn Hx; [by rewrite Hx|].
  destruct (f y); [discriminate | by apply IH].
Qed.

(** A registration that is answered 201: what was checked and what is
    left. *)
Lemma register_created req w r :
  faults w = [] -> fst (register req w) = Ok (Respond r) -> status r = 201 ->
  exists e n w',
    body_email req = Some e /\ body_username req = Some n
    /\ fst (validateEmail (lib w) e) = true
    /\ fst (validateUsername (lib w) n) = true
    /\ validatePasswordStrength (lib w) (body_password req) = true
    /\ findByEmail (snd (validateEmail (lib w) e)) w = None
    /\ findByUsername (snd (validateUsername (lib w) n)) w = None
    /\ snd (register req w) = w'
    /\ faults w' = [] /\ now w' = now w /\ lib w' = lib w
    /\ users w'
       = (users w ++ [User (new_user_id (lib w) (users w))
                           (snd (validateEmail (lib w) e))
                           (snd (validateUsername (lib w) n))
                           (body_password req) true None])%list
    /\ forall k, k <> refresh_key (new_user_id (lib w) (users w)) ->
                  db w' !! k = db w !! k.
Proof.
  intros Hf. destruct w as [t0 m rdy fs us L tr k0]. cbn in Hf. subst fs.
  unfold register, findByEmail, findByUsername. mexec.
  destruct (body_email req) as [e|]; cbn; [|intros [= <-]; discriminate].
  destruct (fst (validateEmail L e)) eqn:Hve; cbn; [|intros [= <-]; discriminate].
  destruct (body_username req) as [nm|]; cbn; [|intros [= <-]; discriminate].
  destruct (fst (validateUsername L nm)) eqn:Hvn; cbn; [|intros [= <-]; discriminate].
  destruct (validatePasswordStrength L (body_password req)) eqn:Hvp; cbn;
    [|intros [= <-]; discriminate].
  destruct (find _ us) eqn:Hfe; cbn; [intros [= <-]; discriminate|].
  destruct (find (fun u => String.eqb (username u) _) us) eqn:Hfn; cbn;
    [intros [= <-]; discriminate|].
  unfold create, success. mexec. intros _ _.
  exists e, nm. eexists. repeat split; try reflexivity; try assumption.
  intros k Hk. cbn. by rewrite lookup_insert_ne.
Qed.

End Registration.

(** X20: registration and login fit together.  After a registration
    answered 201, on a store that answers, the new account is found under the
    normalised address; a login with that address is answered 200 with the
    password registered and 401 [INCORRECT_PASSWORD] with any other; and the
    same registration again is answered 409. *)
Theorem registered_user_can_sign_in req w r :
  faults w = [] ->
  fst (UserService.register req w) = Ok (Respond r) -> status r = 201 ->
  let w1 := snd (UserService.register req w) in
  exists e u,
    body_email req = Some e
    /\ UserService.findByEmail (snd (validateEmail (lib w) e)) w1 = Some u
    /\ id u = new_user_id (lib w) (users w)
    /\ (forall req',
          body_email req' = Some (snd (validateEmail (lib w) e)) ->
          body_password req' = body_password req ->
          verdict_of (fst (UserService.login req' w1)) = Answered 200)
    /\ (forall req',
          body_email req' = Some (snd (validateEmail (lib w) e)) ->
          body_password req' <> body_password req ->
          fst (UserService.login req' w1) = Ok (Respond incorrect_password))
    /\ fst (UserService.register req w1)
       = Ok (Respond (Response 409 "User already exists" None None)).
Proof.
  intros Hf Hr Hst w1.
  destruct (register_created req w r Hf Hr Hst)
    as (e & n & w' & He & Hn & Hve & Hvn & Hvp & Hfe & Hfn & Hw & Hf' & Hn' & Hl'
        & Hus & Hdb).
  subst w1. rewrite Hw.
  set (u := User (new_user_id (lib w) (users w)) (snd (validateEmail (lib w) e))
                 (snd (validateUsername (lib w) n)) (body_password req) true None)
    in Hus.
  assert (Hfind : UserService.findByEmail (snd (validateEmail (lib w) e)) w' = Some u).
  { unfold UserService.findByEmail in *. rewrite Hus.
    apply find_app_new; [exact Hfe | apply String.eqb_refl]. }
  exists e, u. split; [exact He|]. split; [exact Hfind|]. split; [reflexivity|].
  split; [|split].
  - intros req' He' Hpw'.
    destruct (login_succeeds req' w' _ u Hf' He' Hfind eq_refl (eq_sym Hpw'))
      as (w2 & -> & _). reflexivity.
  - intros req' He' Hpw'.
    unfold UserService.login, try_catch, bind, get_world.
    rewrite He', Hfind. cbn [negb is_active u].
    unfold UserService.verifyPassword.
    destruct (String.eqb_spec (password u) (body_password req')) as [E|E];
      [cbn in E; congruence|]. cbn [negb].
    destruct (incrementFailedAttempts_total (id u) (ip req')
                (log (VerifyPassword (id u)) w')) as [w2 ->]. reflexivity.
  - unfold UserService.register, try_catch, bind, get_world.
    rewrite He, Hl', Hve. cbn [negb]. rewrite Hn, Hvn. cbn [negb]. rewrite Hvp.
    cbn [negb]. rewrite Hfind. reflexivity.
Qed.

(** Carol cannot sign in before she registers, can afterwards, and cannot
    register twice. *)
Lemma registered_user_can_sign_in_witness :
  let signup := Request None "10.0.0.1" "agent" "/auth/register"
                        (Some "carol@example.com") (Some "carol") "Passw0rd!"
                        false None "" "" None None in
  let w1 := snd (UserService.register signup Scenario.start) in
  let signin := Scenario.login_request "carol@example.com" "Passw0rd!" false "10.0.0.1" in
  verdict_of (fst (UserService.register signup Scenario.start)) = Answered 201
  /\ verdict_of (fst (UserService.login signin Scenario.start)) = Answered 401
  /\ verdict_of (fst (UserService.login signin w1)) = Answered 200
  /\ fst (UserService.register signup w1)
     = Ok (Respond (Response 409 "User already exists" None None)).
Proof.
  intros signup w1 signin.
  destruct (registered_user_can_sign_in signup Scenario.start
              (Response 201 "" None (Some ("jwt.u3.day.1000", "jwt.u3.refresh.1000"))))
    as (e & u & He & _ & _ & Hin & _ & Hdup);
    [ reflexivity | vm_compute; reflexivity | reflexivity | ].
  injection He as <-.
  split; [vm_compute; reflexivity|]. split; [vm_compute; reflexivity|].
  split; [apply Hin; reflexivity | exact Hdup].
Defined.

(** X21: [revokeSession] deletes the session named in the route, whoever
    owns it.  For a request of any authenticated user and a store that
    answers, the session stored under that id, of whatever owner, is gone
    afterwards, the answer is 200, and no other key changes: the owner of the
    session is not compared with the user of the request. *)
Theorem any_session_can_be_revoked sid req w owner :
  faults w = [] -> req_user req <> None ->
  session_of owner (now w) (db w) ("session:" +:+ sid) = true ->
  let w' := snd (UserService.revokeSession sid req w) in
  fst (UserService.revokeSession sid req w) = Ok (Respond (Response 200 "" None None))
  /\ db w' = delete ("session:" +:+ sid) (db w)
  /\ session_of owner (now w) (db w') ("session:" +:+ sid) = false.
Proof.
  intros Hf Hu Hs w'. subst w'. unfold UserService.revokeSession.
  destruct (req_user req) as [a|]; [|done].
  unfold try_catch, bind. rewrite (redis_del_ok _ _ Hf). cbn.
  split; [reflexivity|]. split; [reflexivity|].
  unfold session_of. by rewrite peek_delete_eq.
Qed.

(** Bob is signed in; alice revokes his session by its id. *)
Lemma any_session_can_be_revoked_witness :
  let signin := Scenario.login_request "bob@example.com" "Hunter2!" false "10.0.0.2" in
  let w := snd (UserService.login signin Scenario.start) in
  let alice := authenticated "u1" Scenario.token_day
                 (Scenario.with_bearer Scenario.token_day "10.0.0.1") in
  let sid := "sha256.jwt.u2.day.1000" in
  session_of "u2" 1000000 (db w) ("session:" +:+ sid) = true
  /\ fst (UserService.revokeSession sid alice w)
     = Ok (Respond (Response 200 "" None None))
  /\ session_of "u2" 1000000 (db (snd (UserService.revokeSession sid alice w)))
                ("session:" +:+ sid) = false.
Proof.
  intros signin w alice sid.
  destruct (any_session_can_be_revoked sid alice w "u2") as (H200 & _ & Hgone);
    [vm_compute; reflexivity | discriminate | vm_compute; reflexivity |].
  split; [vm_compute; reflexivity|]. split; [exact H200 | exact Hgone].
Defined.

(** ** Store failures in the controllers *)

Section Faults.

Import UserService.

Lemma redis_del_any k w :
  exists w',
    redis_del k w = (if failing w then Thrown StoreError else Ok tt, w')
    /\ faults w' = tail (faults w) /\ now w' = now w /\ lib w' = lib w
    /\ users w' = users w
    /\ db w' = if failing w then db w else delete k (db w).
Proof.
  destruct w as [t m rdy fs us L tr n]. unfold redis_del, bind, ret, call, failing.
  cbn. destruct (match fs with [] => false | b :: _ => b end); cbn; [eauto 10|].
  destruct (peek t m k); cbn; eauto 10.
Qed.

Lemma redis_setex_any k s v w :
  exists w',
    redis_setex k s v w = (if failing w then Thrown StoreError else Ok tt, w')
    /\ faults w' = tail (faults w) /\ now w' = now w /\ lib w' = lib w
    /\ users w' = users w
    /\ db w' = if failing w then db w
               else <[k := Entry v (Some (now w + 1000 * s))]> (db w).
Proof.
  destruct w as [t m rdy fs us L tr n]. unfold redis_setex, bind, ret, call, failing.
  cbn. destruct (match fs with [] => false | b :: _ => b end); cbn; eauto 10.
Qed.

Lemma quietly_any {A} (m : M A) w : quietly m w = (Ok tt, snd (m w)).
Proof.
  unfold quietly, try_catch, bind, ret. destruct (m w) as [[a|e] w']; reflexivity.
Qed.

End Faults.

(** X22: of the four store calls of a successful login only the write of
    the refresh token decides the answer.  For an active account and the
    right password, whatever happens to the two deletions of the counters:
    [login] answers 500 when the write of the refresh token rejects, and 200
    with the tokens when it succeeds, whether or not the session could be
    stored; the session is there exactly when its own write succeeded. *)
Theorem login_needs_the_refresh_write_only req w e u a b r fs :
  faults w = a :: b :: r :: fs -> body_email req = Some e ->
  UserService.findByEmail e w = Some u ->
  is_active u = true -> password u = body_password req ->
  let token := generateJWT (lib w) u
                 (if body_rememberMe req then 7 * UserService.day
                  else UserService.day) (now w) in
  let refresh := generateRefreshToken (lib w) u (now w) in
  let w' := snd (UserService.login req w) in
  fst (UserService.login req w)
  = Ok (Respond (if r then Response 500 "SERVER_ERROR" None None
                 else Response 200 "" None (Some (token, refresh))))
  /\ (r = false ->
      db w' !! UserService.session_key w token
      = if match fs with c :: _ => c | [] => false end
        then db w !! UserService.session_key w token
        else Some (Entry (VJson (Session (id u) (ip req) (userAgent req)
                                         (now w + 86400000)))
                         (Some (now w + 86400000))))
  /\ (r = true -> db w' !! UserService.session_key w token
                  = db w !! UserService.session_key w token).
Proof.
  intros Hf He Hu Ha Hpw token refresh w'. subst w'.
  assert (Hrun : exists w1,
    UserService.login req w
    = (Ok (Respond (if r then Response 500 "SERVER_ERROR" None None
                    else Response 200 "" None (Some (token, refresh)))), w1)
    /\ db w1 !! UserService.session_key w token
       = if r then db w !! UserService.session_key w token
         else if match fs with c :: _ => c | [] => false end
         then db w !! UserService.session_key w token
         else Some (Entry (VJson (Session (id u) (ip req) (userAgent req)
                                          (now w + 86400000)))
                          (Some (now w + 86400000)))).
  { unfold UserService.login, try_catch, bind at 1, get_world.
    rewrite He, Hu, Ha. cbn [negb]. unfold bind at 1.
    unfold UserService.verifyPassword. rewrite Hpw, String.eqb_refl. cbn [negb].
    set (w0 := log (VerifyPassword (id u)) w).
    assert (Hf0 : faults w0 = a :: b :: r :: fs) by exact Hf.
    unfold UserService.resetFailedAttempts. unfold bind at 1. unfold bind at 1.
    rewrite quietly_any.
    destruct (redis_del_any (UserService.failed_user_key (id u)) w0)
      as (w1 & E1 & F1 & N1 & L1 & U1 & D1).
    rewrite E1. cbn [snd]. rewrite quietly_any.
    destruct (redis_del_any (UserService.failed_ip_key (ip req)) w1)
      as (w2 & E2 & F2 & N2 & L2 & U2 & D2).
    rewrite E2. cbn [snd]. unfold bind at 1.
    rewrite F1, Hf0 in F2. cbn [tail] in F2.
    destruct (redis_setex_any (UserService.refresh_key (id u))
                (if body_rememberMe req then 30 * UserService.day
                 else 7 * UserService.day)
                (VStr (generateRefreshToken (lib w) u (now w))) w2)
      as (w3 & E3 & F3 & N3 & L3 & U3 & D3).
    change (lib w0) with (lib w). change (now w0) with (now w).
    rewrite E3. unfold failing in E3, D3 |- *. rewrite F2 in D3 |- *.
    assert (Hk1 : db w1 !! UserService.session_key w token
                  = db w !! UserService.session_key w token).
    { rewrite D1. destruct (failing w0); [reflexivity|].
      by rewrite lookup_delete_ne by discriminate. }
    assert (Hk2 : db w2 !! UserService.session_key w token
                  = db w !! UserService.session_key w token).
    { rewrite D2. destruct (failing w1); [exact Hk1|].
      by rewrite lookup_delete_ne by discriminate. }
    destruct r.
    - exists w3. split; [reflexivity|]. by rewrite D3.
    - unfold bind at 1. unfold UserService.createSession. rewrite quietly_any.
      unfold bind at 1, get_world.
      destruct (redis_setex_any (UserService.session_key w3
                   (generateJWT (lib w) u
                      (if body_rememberMe req then 7 * UserService.day
                       else UserService.day) (now w)))
                  UserService.day
                  (VJson (Session (id u) (ip req) (userAgent req)
                                  (now w3 + UserService.day * 1000))) w3)
        as (w4 & E4 & F4 & N4 & L4 & U4 & D4).
      rewrite E4. cbn [snd]. unfold UserService.success, ret.
      exists w4. split; [reflexivity|].
      rewrite D4. unfold failing. rewrite F3, F2. cbn [tail].
      assert (Hs : UserService.session_key w3 = UserService.session_key w).
      { unfold UserService.session_key. by rewrite L3, L2, L1. }
      fold token. rewrite Hs.
      destruct (match fs with c :: _ => c | [] => false end).
      + rewrite D3. by rewrite lookup_insert_ne by discriminate.
      + rewrite lookup_insert_eq. rewrite N3, N2, N1. reflexivity. }
  destruct Hrun as (w1 & -> & Hk). cbn [fst snd].
  split; [reflexivity|]. split; intros ->; exact Hk.
Qed.

(** Alice signs in while the write of the session rejects: 200 and no
    session; while the write of the refresh token rejects: 500. *)
Lemma login_needs_the_refresh_write_only_witness :
  let signin := Scenario.login_request "alice@example.com" "Secret123!" false "10.0.0.1" in
  let no_session := set_faults [false; false; false; true] Scenario.start in
  let no_refresh := set_faults [false; false; true] Scenario.start in
  verdict_of (fst (UserService.login signin no_session)) = Answered 200
  /\ db (snd (UserService.login signin no_session))
        !! UserService.session_key Scenario.start Scenario.token_day = None
  /\ verdict_of (fst (UserService.login signin no_refresh)) = Answered 500.
Proof.
  intros signin no_session no_refresh.
  destruct (login_needs_the_refresh_write_only signin no_session "alice@example.com"
              Scenario.alice false false false [true])
    as (H200 & Hsession & _); try reflexivity.
  destruct (login_needs_the_refresh_write_only signin no_refresh "alice@example.com"
              Scenario.alice false false true [])
    as (H500 & _); try reflexivity.
  split; [rewrite H200; reflexivity|].
  split; [exact (Hsession eq_refl) | rewrite H500; reflexivity].
Defined.

(** X23: a registration that fails at the store leaves the account
    behind.  When the body passes the validators, the address and the name
    are free and the write of the refresh token rejects, [register] answers
    500, the store is as it was, and the account has been created all the
    same: the same registration again is answered 409. *)
Theorem failed_registration_leaves_the_account req w e n fs :
  faults w = true :: fs ->
  body_email req = Some e -> body_username req = Some n ->
  fst (validateEmail (lib w) e) = true ->
  fst (validateUsername (lib w) n) = true ->
  validatePasswordStrength (lib w) (body_password req) = true ->
  UserService.findByEmail (snd (validateEmail (lib w) e)) w = None ->
  UserService.findByUsername (snd (validateUsername (lib w) n)) w = None ->
  let w' := snd (UserService.register req w) in
  fst (UserService.register req w)
  = Ok (Respond (Response 500 "Registration failed" None None))
  /\ users w'
     = (users w ++ [User (new_user_id (lib w) (users w))
                         (snd (validateEmail (lib w) e))
                         (snd (validateUsername (lib w) n))
                         (body_password req) true None])%list
  /\ db w' = db w
  /\ fst (UserService.register req w')
     = Ok (Respond (Response 409 "User already exists" None None)).
Proof.
  intros Hf He Hn Hve Hvn Hvp Hfe Hfn w'.
  set (u := User (new_user_id (lib w) (users w)) (snd (validateEmail (lib w) e))
                 (snd (validateUsername (lib w) n)) (body_password req) true None).
  assert (Hrun : exists w1,
    UserService.register req w
    = (Ok (Respond (Response 500 "Registration failed" None None)), w1)
    /\ users w1 = (users w ++ [u])%list /\ db w1 = db w /\ lib w1 = lib w).
  { unfold UserService.register, try_catch, bind at 1, get_world.
    rewrite He, Hve. cbn [negb]. rewrite Hn, Hvn. cbn [negb]. rewrite Hvp.
    cbn [negb]. rewrite Hfe, Hfn. unfold bind at 1. unfold UserService.create.
    fold u. unfold bind at 1.
    destruct (redis_setex_any (UserService.refresh_key (id u)) (7 * UserService.day)
                (VStr (generateRefreshToken (lib w) u (now w)))
                (set_users (users w ++ [u]) w))
      as (w1 & E & _ & _ & L1 & U1 & D1).
    rewrite E. unfold failing in *. cbn [faults set_users] in *. rewrite Hf in *.
    exists w1. split; [reflexivity|]. auto. }
  destruct Hrun as (w1 & Hrun & Hus & Hdb & Hl). subst w'. rewrite Hrun.
  cbn [fst snd]. split; [reflexivity|]. split; [exact Hus|]. split; [exact Hdb|].
  unfold UserService.register, try_catch, bind, get_world.
  rewrite He, Hl, Hve. cbn [negb]. rewrite Hn, Hvn. cbn [negb]. rewrite Hvp.
  cbn [negb].
  assert (Hfind : UserService.findByEmail (snd (validateEmail (lib w) e)) w1 = Some u).
  { unfold UserService.findByEmail in *. rewrite Hus.
    apply find_app_new; [exact Hfe | apply String.eqb_refl]. }
  rewrite Hfind. reflexivity.
Qed.

(** Carol registers while the store rejects: 500, yet she is in the
    users table, and her second attempt is answered 409. *)
Lemma failed_registration_leaves_the_account_witness :
  let signup := Request None "10.0.0.1" "agent" "/auth/register"
                        (Some "carol@example.com") (Some "carol") "Passw0rd!"
                        false None "" "" None None in
  let w := set_faults [true] Scenario.start in
  verdict_of (fst (UserService.register signup w)) = Answered 500
  /\ option_map id (UserService.findByEmail "carol@example.com"
                      (snd (UserService.register signup w))) = Some "u3"
  /\ verdict_of (fst (UserService.register signup (snd (UserService.register signup w))))
     = Answered 409.
Proof.
  intros signup w.
  destruct (failed_registration_leaves_the_account signup w "carol@example.com"
              "carol" []) as (H500 & _ & _ & H409); try reflexivity.
  split; [rewrite H500; reflexivity|]. split; [vm_compute; reflexivity|].
  rewrite H409. reflexivity.
Defined.

(** ** The validators *)

Section Passwords.

Import Validation.

Lemma chars_app (p q : string) :
  list_ascii_of_string (p +:+ q)
  = (list_ascii_of_string p ++ list_ascii_of_string q)%list.
Proof.
  induction p as [|c p IH]; [reflexivity|].
  change (String c p +:+ q) with (String c (p +:+ q)). cbn. by rewrite IH.
Qed.

Lemma length_chars (p : string) :
  String.length p = length (list_ascii_of_string p).
Proof. induction p as [|c p IH]; cbn; [reflexivity | by rewrite IH]. Qed.

Lemma test_app class p q :
  test class (p +:+ q) = test class p || test class q.
Proof. unfold test. by rewrite chars_app, existsb_app. Qed.

Lemma length_app (p q : string) :
  String.length (p +:+ q) = (String.length p + String.length q)%nat.
Proof. by rewrite !length_chars, chars_app, length_app. Qed.

(** The checks that hold for a part hold for the whole. *)
Lemma checks_grow p q :
  Forall2 (fun a b : bool => a = true -> b = true)
          (password_checks p) (password_checks (p +:+ q))
  /\ Forall2 (fun a b : bool => a = true -> b = true)
             (password_checks p) (password_checks (q +:+ p)).
Proof.
  unfold password_checks. rewrite !test_app, !length_app.
  split; repeat constructor;
    try (intros H; rewrite H; rewrite ?orb_true_r; reflexivity);
    intros H; apply Z.leb_le; apply Z.leb_le in H; lia.
Qed.

Lemma count_grows (a b : list bool) :
  Forall2 (fun x y : bool => x = true -> y = true) a b ->
  (length (List.filter (fun x : bool => x) a)
   <= length (List.filter (fun x : bool => x) b))%nat.
Proof.
  induction 1 as [|x y a b Hxy _ IH]; cbn; [lia|].
  destruct x; cbn.
  - rewrite Hxy by reflexivity. cbn. lia.
  - destruct y; cbn; lia.
Qed.

Lemma lower_is_only_lower c :
  is_lower c = true ->
  is_upper c = false /\ is_digit c = false /\ is_special c = false.
Proof.
  destruct c as [[] [] [] [] [] [] [] []]; cbn; intros H;
    try discriminate H; repeat split; reflexivity.
Qed.

Lemma all_lower p :
  all_chars is_lower p = true ->
  test is_upper p = false /\ test is_digit p = false /\ test is_special p = false.
Proof.
  unfold all_chars, test.
  induction (list_ascii_of_string p) as [|c l IH]; cbn [forallb existsb]; [auto|].
  intros H. apply andb_prop in H as [Hc Hl].
  destruct (lower_is_only_lower c Hc) as (-> & -> & ->).
  cbn [orb]. by apply IH.
Qed.

End Passwords.

(** X24: a password that is strong enough stays so when it is extended.
    Each of the five checks of [validatePasswordStrength] that a string
    passes is passed by every string that contains it as a prefix or as a
    suffix, so the score does not go down and a valid password remains
    valid. *)
Theorem password_strength_grows p q :
  Validation.isValid (Validation.validatePasswordStrength p) = true ->
  Validation.isValid (Validation.validatePasswordStrength (p +:+ q)) = true
  /\ Validation.isValid (Validation.validatePasswordStrength (q +:+ p)) = true.
Proof.
  unfold Validation.validatePasswordStrength. cbn [Validation.isValid].
  intros H. apply Nat.leb_le in H.
  destruct (checks_grow p q) as [H1 H2].
  apply count_grows in H1. apply count_grows in H2.
  split; apply Nat.leb_le; lia.
Qed.

(** Three characters of three classes are valid, and so are their
    extensions. *)
Lemma password_strength_grows_witness :
  Validation.isValid (Validation.validatePasswordStrength "aB1") = true
  /\ Validation.isValid (Validation.validatePasswordStrength "aB1xyz") = true
  /\ Validation.isValid (Validation.validatePasswordStrength "xyzaB1") = true.
Proof.
  destruct (password_strength_grows "aB1" "xyz" eq_refl) as [H1 H2].
  split; [reflexivity|]. split; [exact H1 | exact H2].
Defined.

(** X25: what the score of a password depends on.  A lowercase letter,
    an uppercase letter and a digit make a password valid whatever its
    length, shorter than [passwordMinLength] included; a password of
    lowercase letters only is never valid, however long; a valid password is
    never rated weak, and a password rated strong is valid. *)
Theorem password_strength_by_classes p :
  (Validation.test Validation.is_lower p = true ->
   Validation.test Validation.is_upper p = true ->
   Validation.test Validation.is_digit p = true ->
   Validation.isValid (Validation.validatePasswordStrength p) = true)
  /\ (Validation.all_chars Validation.is_lower p = true ->
      Validation.isValid (Validation.validatePasswordStrength p) = false)
  /\ (Validation.isValid (Validation.validatePasswordStrength p) = true ->
      Validation.strength (Validation.validatePasswordStrength p) <> Validation.weak)
  /\ (Validation.strength (Validation.validatePasswordStrength p) = Validation.strong ->
      Validation.isValid (Validation.validatePasswordStrength p) = true).
Proof.
  unfold Validation.validatePasswordStrength, Validation.password_checks.
  cbn [Validation.isValid Validation.strength].
  split; [|split; [|split]].
  - intros -> -> ->. cbn. destruct (_ <=? _), (Validation.test Validation.is_special p); reflexivity.
  - intros H. destruct (all_lower p H) as (-> & -> & ->). cbn.
    destruct (_ <=? _), (Validation.test Validation.is_lower p); reflexivity.
  - destruct (_ <=? _), (Validation.test Validation.is_lower p),
      (Validation.test Validation.is_upper p), (Validation.test Validation.is_digit p),
      (Validation.test Validation.is_special p); cbn; congruence.
  - destruct (_ <=? _), (Validation.test Validation.is_lower p),
      (Validation.test Validation.is_upper p), (Validation.test Validation.is_digit p),
      (Validation.test Validation.is_special p); cbn; congruence.
Qed.

Section Usernames.

Import Validation.

Lemma name_char_lower c :
  is_name_char c = true ->
  is_name_char (lower_char c) = true /\ is_space (lower_char c) = false
  /\ lower_char (lower_char c) = lower_char c.
Proof.
  destruct c as [[] [] [] [] [] [] [] []]; intros H;
    try discriminate H; vm_compute; auto.
Qed.

Lemma chars_of_list l : list_ascii_of_string (string_of_list_ascii l) = l.
Proof. apply list_ascii_of_string_of_list_ascii. Qed.

Lemma trimStart_none l :
  forallb (fun c => negb (is_space c)) l = true -> trimStart l = l.
Proof.
  destruct l as [|c l]; cbn [forallb trimStart]; [reflexivity|].
  intros H. apply andb_prop in H as [Hc _].
  destruct (is_space c); [discriminate | reflexivity].
Qed.

Lemma forallb_rev {A} (f : A -> bool) l :
  forallb f (rev l) = forallb f l.
Proof.
  induction l as [|x l IH]; [reflexivity|]. cbn [rev forallb].
  rewrite forallb_app, IH. cbn. rewrite andb_true_r. apply andb_comm.
Qed.

Lemma trim_none s :
  all_chars (fun c => negb (is_space c)) s = true -> trim s = s.
Proof.
  unfold all_chars, trim. intros H.
  rewrite (trimStart_none _ H), trimStart_none by (by rewrite forallb_rev).
  rewrite rev_involutive. apply string_of_list_ascii_of_string.
Qed.

Lemma lowered_chars s :
  all_chars is_name_char s = true ->
  all_chars is_name_char (toLowerCase s) = true
  /\ all_chars (fun c => negb (is_space c)) (toLowerCase s) = true
  /\ toLowerCase (toLowerCase s) = toLowerCase s.
Proof.
  unfold all_chars, toLowerCase. rewrite !chars_of_list.
  induction (list_ascii_of_string s) as [|c l IH]; cbn [forallb map]; [auto|].
  intros H. apply andb_prop in H as [Hc Hl].
  destruct (name_char_lower c Hc) as (H1 & H2 & H3).
  destruct (IH Hl) as (I1 & I2 & I3).
  rewrite H1, H2, I1, I2. cbn. repeat split.
  rewrite H3. f_equal.
  apply (f_equal list_ascii_of_string) in I3. rewrite !chars_of_list in I3.
  by rewrite I3.
Qed.

Lemma lowered_length s : String.length (toLowerCase s) = String.length s.
Proof.
  unfold toLowerCase. rewrite !length_chars, chars_of_list. apply length_map.
Qed.

Lemma no_space_test s :
  all_chars (fun c => negb (is_space c)) s = true -> test is_space s = false.
Proof.
  unfold all_chars, test.
  induction (list_ascii_of_string s) as [|c l IH]; cbn [forallb existsb]; [auto|].
  intros H. apply andb_prop in H as [Hc Hl]. rewrite (IH Hl).
  destruct (is_space c); [discriminate | reflexivity].
Qed.

End Usernames.

(** X26: a valid username has a normal form.  When [validateUsername]
    accepts a name, the normalised name is its lowercase form (there is
    nothing to trim), of the same length, not a reserved word, accepted in
    turn and its own normal form; and a name whose lowercase form is a
    reserved word is refused in any letter case. *)
Theorem valid_username_normalises u :
  fst (Validation.validateUsername u) = true ->
  let n := snd (Validation.validateUsername u) in
  n = Validation.toLowerCase u
  /\ Validation.validateUsername n = (true, n)
  /\ String.length n = String.length u
  /\ ~ In n Validation.reserved
  /\ (forall v, In (Validation.toLowerCase v) Validation.reserved ->
                fst (Validation.validateUsername v) = false).
Proof.
  unfold Validation.validateUsername. cbn [fst snd].
  unfold Validation.username_checks. cbn [forallb].
  intros H.
  apply andb_prop in H as [Hformat H]. apply andb_prop in H as [Hlen H].
  apply andb_prop in H as [_ H]. apply andb_prop in H as [_ H].
  apply andb_prop in H as [Hres _].
  apply andb_prop in Hformat as [Hformat _]. apply andb_prop in Hformat as [Hchars _].
  destruct (lowered_chars u Hchars) as (Hn & Hs & Hidem).
  pose proof (trim_none _ Hs) as Htrim.
  cbn zeta. rewrite Htrim. split; [reflexivity|].
  rewrite Hidem, Htrim, lowered_length, Hn, Hlen, (no_space_test _ Hs), Hres.
  assert (Hone : (1 <=? String.length u)%nat = true).
  { apply andb_prop in Hlen as [H3 _]. apply Nat.leb_le in H3. apply Nat.leb_le. lia. }
  rewrite Hone. cbn [andb negb]. rewrite ?Hlen. cbn [andb]. split; [reflexivity|]. split; [reflexivity|]. split.
  - intros Hin. apply negb_true_iff in Hres.
    assert (existsb (String.eqb (Validation.toLowerCase u)) Validation.reserved = true).
    { apply existsb_exists. exists (Validation.toLowerCase u).
      split; [exact Hin | apply String.eqb_refl]. }
    congruence.
  - intros v Hin.
    assert (Hex : existsb (String.eqb (Validation.toLowerCase v)) Validation.reserved = true).
    { apply existsb_exists. exists (Validation.toLowerCase v).
      split; [exact Hin | apply String.eqb_refl]. }
    rewrite Hex. cbn. by rewrite !andb_false_r.
Qed.

(** [Alice_01] is normalised to [alice_01], which is its own normal
    form; [Admin] is refused. *)
Lemma valid_username_normalises_witness :
  Validation.validateUsername "Alice_01" = (true, "alice_01")
  /\ Validation.validateUsername "alice_01" = (true, "alice_01")
  /\ fst (Validation.validateUsername "Admin") = false.
Proof.
  destruct (valid_username_normalises "Alice_01" eq_refl)
    as (_ & Hfix & _ & _ & Hres).
  split; [reflexivity|]. split; [exact Hfix|].
  apply Hres. vm_compute. auto.
Defined.

(** ** The error handler of the gateway *)

(** X27: an error made by [createError] is answered as it was made.  For
    a code the handler has no case for and a status other than zero, the
    handler sends that status and that code, with the name [Error]; a status
    of zero is sent as 500; the defaults are 500 and [APPLICATION_ERROR]; and
    once the headers are sent the error is handed on and nothing is sent. *)
Theorem created_error_is_sent_as_created m st c :
  plain_code c = true -> st <> 0 ->
  ErrorHandler.errorHandler false (ErrorHandler.createError m (Some st) (Some c))
  = ErrorHandler.Sent (ErrorHandler.ErrorResponse st "Error" (Some c))
  /\ ErrorHandler.errorHandler false (ErrorHandler.createError m (Some 0) (Some c))
     = ErrorHandler.Sent (ErrorHandler.ErrorResponse 500 "Error" (Some c))
  /\ ErrorHandler.errorHandler false (ErrorHandler.createError m None None)
     = ErrorHandler.Sent (ErrorHandler.ErrorResponse 500 "Error" (Some "APPLICATION_ERROR"))
  /\ ErrorHandler.errorHandler true (ErrorHandler.createError m (Some st) (Some c))
     = ErrorHandler.Delegated.
Proof.
  intros Hc Hst. unfold plain_code in Hc.
  apply andb_prop in Hc as [Hc H4]. apply andb_prop in Hc as [H1 H2].
  apply negb_true_iff in H1, H2, H4. cbn [existsb] in H4.
  apply orb_false_elim in H4 as [Ha H4]. apply orb_false_elim in H4 as [Hb H4].
  apply orb_false_elim in H4 as [Hd H4]. apply orb_false_elim in H4 as [He _].
  unfold ErrorHandler.errorHandler, ErrorHandler.createError, ErrorHandler.code_is,
    ErrorHandler.or_string, ErrorHandler.or_number, ErrorHandler.number, nonempty.
  cbn [ErrorHandler.name ErrorHandler.code ErrorHandler.status
       ErrorHandler.statusCode ErrorHandler.address].
  rewrite H1, H2, Ha, Hb, Hd, He.
  destruct (Z.eqb_spec st 0); [done|]. cbn.
  destruct (Z.eqb_spec st 0); [done|]. repeat split.
Qed.

(** An error made with 404 and a code of the application is sent with
    them; one made with a code of the database driver is sent as 500
    [DATABASE_ERROR] whatever its status. *)
Lemma created_error_is_sent_as_created_witness :
  ErrorHandler.errorHandler false
    (ErrorHandler.createError "No such review" (Some 404) (Some "REVIEW_NOT_FOUND"))
  = ErrorHandler.Sent (ErrorHandler.ErrorResponse 404 "Error" (Some "REVIEW_NOT_FOUND"))
  /\ ErrorHandler.errorHandler false
       (ErrorHandler.createError "duplicate key" (Some 409) (Some "23505"))
     = ErrorHandler.Sent
         (ErrorHandler.ErrorResponse 500 "Database error" (Some "DATABASE_ERROR")).
Proof.
  destruct (created_error_is_sent_as_created "No such review" 404 "REVIEW_NOT_FOUND")
    as (H & _); [reflexivity | discriminate |].
  split; [exact H | reflexivity].
Defined.

(** X28: the status the error handler sends.  It is never zero; it is
    one of 400, 401, 413, 500 and 503, or else the status the error carries
    in [status] or [statusCode]; and 503 is sent only for the codes
    [ECONNREFUSED] and [ENOTFOUND], or for an error that carries 503. *)
Theorem error_status_is_chosen_or_carried err r :
  ErrorHandler.errorHandler false err = ErrorHandler.Sent r ->
  ErrorHandler.sent_status r <> 0
  /\ (In (ErrorHandler.sent_status r) [400; 401; 413; 500; 503]
      \/ ErrorHandler.status err = Some (ErrorHandler.sent_status r)
      \/ ErrorHandler.statusCode err = Some (ErrorHandler.sent_status r))
  /\ (ErrorHandler.sent_status r = 503 ->
      ErrorHandler.code err = Some "ECONNREFUSED"
      \/ ErrorHandler.code err = Some "ENOTFOUND"
      \/ ErrorHandler.status err = Some 503
      \/ ErrorHandler.statusCode err = Some 503).
Proof.
  unfold ErrorHandler.errorHandler, ErrorHandler.code_is.
  destruct (String.eqb (ErrorHandler.name err) "ValidationError");
    [intros [= <-]; cbn; intuition (auto; discriminate)|].
  destruct (String.eqb (ErrorHandler.name err) "JsonWebTokenError");
    [intros [= <-]; cbn; intuition (auto; discriminate)|].
  destruct (String.eqb (ErrorHandler.name err) "TokenExpiredError");
    [intros [= <-]; cbn; intuition (auto; discriminate)|].
  destruct (String.eqb (ErrorHandler.name err) "DatabaseError" || _);
    [intros [= <-]; cbn; intuition (auto; discriminate)|].
  destruct (ErrorHandler.code err) as [c|].
  - destruct (String.eqb_spec c "ECONNREFUSED") as [->|_].
    { cbn [orb andb].
      destruct (match nonempty (ErrorHandler.address err) with
                | Some _ => true | None => false end);
        intros [= <-]; cbn; intuition (auto; discriminate). }
    cbn [orb andb].
    destruct (String.eqb_spec c "ENOTFOUND") as [->|_];
      [intros [= <-]; cbn; intuition (auto; discriminate)|].
    destruct (String.eqb c "LIMIT_FILE_SIZE");
      [intros [= <-]; cbn; intuition (auto; discriminate)|].
    destruct (String.eqb c "INVALID_FILE_TYPE");
      [intros [= <-]; cbn; intuition (auto; discriminate)|].
    unfold ErrorHandler.or_number, ErrorHandler.number.
    destruct (ErrorHandler.status err) as [s|], (ErrorHandler.statusCode err) as [s'|];
      repeat match goal with
             | |- context [?x =? 0] => destruct (Z.eqb_spec x 0)
             end;
      try destruct (nonempty (Some c));
      intros [= <-]; cbn; intuition (auto; try discriminate; try congruence).
  - cbn [orb andb].
    unfold ErrorHandler.or_number, ErrorHandler.number.
    destruct (ErrorHandler.status err) as [s|], (ErrorHandler.statusCode err) as [s'|];
      repeat match goal with
             | |- context [?x =? 0] => destruct (Z.eqb_spec x 0)
             end;
      cbn; intros [= <-]; cbn; intuition (auto; try discriminate; try congruence).
Qed.

(** A refused connection with an address is answered 503
    [CACHE_UNAVAILABLE]. *)
Lemma error_status_is_chosen_or_carried_witness :
  let refused := ErrorHandler.JsError "Error" "connect ECONNREFUSED" (Some "ECONNREFUSED")
                                      None None (Some "127.0.0.1") in
  ErrorHandler.errorHandler false refused
  = ErrorHandler.Sent
      (ErrorHandler.ErrorResponse 503 "Service unavailable" (Some "CACHE_UNAVAILABLE"))
  /\ ErrorHandler.code refused = Some "ECONNREFUSED".
Proof.
  intros refused.
  destruct (error_status_is_chosen_or_carried refused
              (ErrorHandler.ErrorResponse 503 "Service unavailable"
                                          (Some "CACHE_UNAVAILABLE")) eq_refl)
    as (_ & _ & H503).
  split; [reflexivity|].
  destruct (H503 eq_refl) as [H|[H|[H|H]]]; [exact H | discriminate H..].
Defined.

Lemma blacklistToken_without_expiry token w c :
  jwt_decode token w = Some c -> exp c = None ->
  Gateway.blacklistToken token w = (Ok tt, w).
Proof.
  intros Hd He. unfold Gateway.blacklistToken, bind, get_world, try_catch.
  destruct (isReady w); [|reflexivity]. by rewrite Hd, He.
Qed.

(** X29: a token that carries no expiry outlives the logout of the
    gateway.  [blacklistToken] writes only when the decoded token has an
    [exp]: for a valid token without one, in a healthy world, the logout
    answers 200, the blacklist key of the token is left as it was, and
    [verifyToken] passes the token at every later time. *)
Theorem token_without_expiry_outlives_logout req w token c :
  isReady w = true -> faults w = [] ->
  bearer (authorization req) = Some token ->
  valid_at w token c -> exp c = None ->
  truthy (option_map e_val
            (peek (now w) (db w) (Gateway.blacklist_key token))) = false ->
  fst (Gateway.logout req w) = Ok (Respond (Response 200 "" None None))
  /\ db (snd (Gateway.logout req w)) !! Gateway.blacklist_key token
     = db w !! Gateway.blacklist_key token
  /\ forall t', now w <= t' ->
       fst (Gateway.verifyToken req (set_now t' (snd (Gateway.logout req w))))
       = Ok (Next (authenticated (userId c) token req)).
Proof.
  intros Hr Hf Hb Hval He Hbl.
  pose proof (verifyToken_accepts req w token c Hr Hf Hb Hval Hbl) as Hrun.
  unfold Gateway.logout, bind. rewrite Hrun. cbn [req_token authenticated].
  set (w1 := after (SETEX _ _ _) _ _).
  rewrite (blacklistToken_without_expiry token w1 c); [|..]; cbn [snd fst].
  2:{ unfold jwt_decode. destruct Hval as [Hp _].
      change (lib w1) with (lib w). by rewrite Hp. }
  2:{ exact He. }
  assert (Hk : db w1 !! Gateway.blacklist_key token
               = db w !! Gateway.blacklist_key token).
  { subst w1. cbn [db after set_db]. by rewrite lookup_insert_ne by discriminate. }
  split; [reflexivity|]. split; [exact Hk|]. intros t' Ht'.
  assert (Hval' : valid_at (set_now t' w1) token c).
  { destruct Hval as [Hp _]. split; [exact Hp | by rewrite He]. }
  assert (Hbl' : truthy (option_map e_val
                   (peek (now (set_now t' w1)) (db (set_now t' w1))
                         (Gateway.blacklist_key token))) = false).
  { cbn [now db set_now]. unfold peek in *. rewrite Hk.
    destruct (db w !! Gateway.blacklist_key token) as [[v [x|]]|];
      [|exact Hbl|reflexivity].
    unfold live in *. cbn [e_exp] in *.
    destruct (Z.ltb_spec t' x); [|reflexivity].
    destruct (Z.ltb_spec (now w) x); [exact Hbl | lia]. }
  unfold ret. cbn [snd].
  rewrite (verifyToken_accepts req (set_now t' w1) token c Hr Hf Hb Hval' Hbl').
  reflexivity.
Qed.

(** The token of alice without expiry passes after her logout, also far
    in the future. *)
Lemma token_without_expiry_outlives_logout_witness :
  let req := Scenario.with_bearer Scenario.token_forever "10.0.0.1" in
  let left := Gateway.logout req Scenario.timeless in
  verdict_of (fst left) = Answered 200
  /\ db (snd left) !! Gateway.blacklist_key Scenario.token_forever = None
  /\ verdict_of (fst (Gateway.verifyToken req (set_now 4000000000000 (snd left))))
     = Passed.
Proof.
  intros req left.
  destruct (token_without_expiry_outlives_logout req Scenario.timeless Scenario.token_forever
              (Claims "u1" (Some "user") 1000 None))
    as (H200 & Hkey & Hlater);
    [ reflexivity | reflexivity | reflexivity
    | split; [vm_compute; reflexivity | exact I]
    | reflexivity | vm_compute; reflexivity | ].
  split; [subst left; rewrite H200; reflexivity|].
  split; [subst left; rewrite Hkey; reflexivity|].
  subst left. rewrite (Hlater 4000000000000); [reflexivity | vm_compute; discriminate].
Defined.

Section Listing.

Import UserService.

Lemma collectSessions_exact uid current keys : forall w,
  faults w = [] ->
  (forall k e, In k keys -> peek (now w) (db w) k = Some e ->
               exists s, e_val e = VJson s) ->
  exists w' l,
    collectSessions uid current keys w = (Ok l, w')
    /\ faults w' = [] /\ db w' = db w
    /\ (forall v, In v l <->
          exists k s x,
            In k keys /\ peek (now w) (db w) k = Some (Entry (VJson s) x)
            /\ user_id s = uid /\ v = view_of current k s).
Proof.
  induction keys as [|key rest IH]; intros w Hf Hwf.
  - exists w, []. cbn. repeat split; auto.
    + intros [].
    + intros (k & s & x & [] & _).
  - cbn [collectSessions]. unfold bind at 1. rewrite (redis_get_ok _ _ Hf).
    set (w1 := after (GET key) (db w) w).
    destruct (IH w1 Hf) as (w' & l & Hrun & Hf' & Hdb & Hl).
    { intros k e Hin. apply Hwf. by right. }
    unfold bind at 1.
    destruct (peek (now w) (db w) key) as [[v x]|] eqn:Hp; cbn [option_map e_val].
    + destruct (Hwf key _ (or_introl eq_refl) Hp) as [s Hs]. cbn in Hs. subst v.
      cbn [truthy]. cbv iota.
      destruct (String.eqb_spec (user_id s) uid) as [Hown|Hown].
      * unfold ret at 1. unfold bind. rewrite Hrun. unfold ret.
        exists w', (view_of current key s :: l). repeat split; auto.
        -- intros [<-|Hin].
           ++ exists key, s, x. repeat split; auto. by left.
           ++ apply Hl in Hin as (k & s' & x' & Hk & Hpk & Hu & Hv).
              exists k, s', x'. repeat split; auto. by right.
        -- intros (k & s' & x' & [<-|Hk] & Hpk & Hu & Hv).
           ++ rewrite Hp in Hpk. injection Hpk as <- <-. by left.
           ++ right. apply Hl. exists k, s', x'. auto.
      * unfold ret at 1. unfold bind. rewrite Hrun. unfold ret.
        exists w', l. repeat split; auto.
        -- intros Hin. apply Hl in Hin as (k & s' & x' & Hk & Hpk & Hu & Hv).
           exists k, s', x'. repeat split; auto. by right.
        -- intros (k & s' & x' & [<-|Hk] & Hpk & Hu & Hv).
           ++ rewrite Hp in Hpk. injection Hpk as <- <-. done.
           ++ apply Hl. exists k, s', x'. auto.
    + cbn [truthy]. cbv iota. unfold ret at 1. unfold bind. rewrite Hrun. unfold ret.
      exists w', l. repeat split; auto.
      * intros Hin. apply Hl in Hin as (k & s' & x' & Hk & Hpk & Hu & Hv).
        exists k, s', x'. repeat split; auto. by right.
      * intros (k & s' & x' & [<-|Hk] & Hpk & Hu & Hv).
        -- rewrite Hp in Hpk. discriminate.
        -- apply Hl. exists k, s', x'. auto.
Qed.

Lemma prefix_app (p s : string) : String.prefix p (p +:+ s) = true.
Proof.
  induction p as [|c p IH]; [by destruct s|].
  change (String c p +:+ s) with (String c (p +:+ s)). cbn.
  destruct (Ascii.ascii_dec c c); [exact IH | done].
Qed.

Lemma substring_app (p s : string) :
  String.substring (String.length p) (String.length (p +:+ s) - String.length p)
                   (p +:+ s) = s.
Proof.
  induction p as [|c p IH].
  - change ("" +:+ s) with s. cbn [String.length]. rewrite Nat.sub_0_r.
    induction s as [|c s IHs]; [reflexivity|]. cbn. by rewrite IHs.
  - change (String c p +:+ s) with (String c (p +:+ s)). cbn. exact IH.
Qed.

Lemma remove_first_prefix (p s : string) : remove_first p (p +:+ s) = s.
Proof.
  assert (Hunfold : forall r,
            remove_first p r
            = if String.prefix p r
              then String.substring (String.length p)
                                    (String.length r - String.length p) r
              else match r with
                   | String c r' => String c (remove_first p r')
                   | EmptyString => EmptyString
                   end) by (intros []; reflexivity).
  rewrite Hunfold, prefix_app. apply substring_app.
Qed.

Lemma includes_suffix (p a : string) : includes p (a +:+ p) = true.
Proof.
  induction a as [|c a IH].
  - change ("" +:+ p) with p. destruct p as [|c p]; [reflexivity|].
    cbn [includes]. pose proof (prefix_app (String c p) "") as H.
    assert (E : String c p +:+ "" = String c p).
    { clear. induction (String c p) as [|d q IH]; [reflexivity|].
      change (String d q +:+ "") with (String d (q +:+ "")). by rewrite IH. }
    rewrite E in H. by rewrite H.
  - change (String c a +:+ p) with (String c (a +:+ p)). cbn [includes].
    rewrite IH. apply orb_true_r.
Qed.

Lemma prefix_split (p k : string) :
  String.prefix p k = true -> exists r, k = p +:+ r.
Proof.
  revert k. induction p as [|c p IH]; intros k H; [by exists k|].
  destruct k as [|d k]; [discriminate|]. cbn in H.
  destruct (Ascii.ascii_dec c d) as [->|]; [|discriminate].
  destruct (IH k H) as [r ->]. by exists r.
Qed.

Lemma listed_iff t (m : gmap string entry) k :
  In k (filter (fun k => String.prefix "session:" k
                         && bool_decide (is_Some (peek t m k)))
               (map fst (map_to_list m)))
  <-> String.prefix "session:" k = true /\ is_Some (peek t m k).
Proof.
  rewrite <- list_elem_of_In, list_elem_of_filter. split.
  - intros [H _]. apply andb_prop_elim in H as [H1 H2].
    split; [by apply Is_true_eq_true | by apply bool_decide_unpack in H2].
  - intros [H1 H2]. split.
    + rewrite H1. cbn. by apply bool_decide_pack.
    + destruct H2 as [e Hp]. unfold peek in Hp.
      destruct (m !! k) as [e'|] eqn:Hm; [|discriminate].
      apply list_elem_of_fmap. exists (k, e'). split; [reflexivity|].
      by apply elem_of_map_to_list.
Qed.

End Listing.

(** X30: [getActiveSessions] lists the sessions of the caller and no
    other.  In a healthy world whose [session:] keys hold session records,
    for an authenticated request, the answer is a list, the store is as
    before, and an element is in the list exactly when it is the view of a
    live entry [session:<id>] whose [user_id] is the caller; the session
    stored for the token of the request is listed under the hash of the
    token and flagged as the current one. *)
Theorem sessions_listed_are_the_own req w uid :
  faults w = [] -> sessions_wf (now w) (db w) -> req_user req = Some uid ->
  let current := match req_token req with
                 | Some token => sha256 (lib w) token
                 | None => ""
                 end in
  exists l,
    fst (UserService.getActiveSessions req w) = Ok (Some l)
    /\ db (snd (UserService.getActiveSessions req w)) = db w
    /\ (forall v,
          In v l <->
          exists sid s x,
            peek (now w) (db w) ("session:" +:+ sid) = Some (Entry (VJson s) x)
            /\ user_id s = uid
            /\ v = UserService.SessionView sid (ip_address s) (user_agent s)
                      (expires_at s)
                      (UserService.includes current ("session:" +:+ sid)))
    /\ (forall token s x,
          req_token req = Some token ->
          peek (now w) (db w) (UserService.session_key w token)
          = Some (Entry (VJson s) x) ->
          user_id s = uid ->
          In (UserService.SessionView (sha256 (lib w) token) (ip_address s)
                (user_agent s) (expires_at s) true) l).
Proof.
  intros Hf Hwf Hu current.
  assert (Hrun : exists w' l,
    UserService.getActiveSessions req w = (Ok (Some l), w') /\ db w' = db w
    /\ (forall v,
          In v l <->
          exists sid s x,
            peek (now w) (db w) ("session:" +:+ sid) = Some (Entry (VJson s) x)
            /\ user_id s = uid
            /\ v = UserService.SessionView sid (ip_address s) (user_agent s)
                      (expires_at s)
                      (UserService.includes current ("session:" +:+ sid)))).
  { unfold UserService.getActiveSessions. rewrite Hu.
    unfold try_catch, bind at 1, get_world. unfold bind at 1.
    rewrite (redis_keys_ok _ _ Hf).
    set (w1 := after _ _ w). set (keys := filter _ _).
    destruct (collectSessions_exact uid current keys w1 Hf) as (w' & l & Hc & _ & Hdb & Hl).
    { intros k e. apply (listed_keys_wf _ _ Hwf). }
    fold current. unfold bind. rewrite Hc. unfold ret.
    exists w', l. split; [reflexivity|]. split; [exact Hdb|].
    intros v. rewrite Hl. split.
    - intros (k & s & x & Hin & Hp & Hown & ->).
      apply listed_iff in Hin as [Hk _].
      destruct (prefix_split _ _ Hk) as [sid ->].
      exists sid, s, x. split; [exact Hp|]. split; [exact Hown|].
      unfold view_of. by rewrite remove_first_prefix.
    - intros (sid & s & x & Hp & Hown & ->).
      exists ("session:" +:+ sid), s, x. split; [|split; [exact Hp|split; [exact Hown|]]].
      + apply listed_iff. split; [apply prefix_app|]. cbn [now db w1 after set_db log].
        rewrite Hp. eauto.
      + unfold view_of. by rewrite remove_first_prefix. }
  destruct Hrun as (w' & l & Hrun & Hdb & Hl). exists l. rewrite Hrun. cbn [fst snd].
  split; [reflexivity|]. split; [exact Hdb|]. split; [exact Hl|].
  intros token s x Ht Hp Hown. apply Hl.
  exists (sha256 (lib w) token), s, x. split; [exact Hp|]. split; [exact Hown|].
  subst current. rewrite Ht.
  by rewrite (includes_suffix (sha256 (lib w) token) "session:").
Qed.

(** Alice and bob have signed in: the list of alice holds her session
    only, flagged as current. *)
Lemma sessions_listed_are_the_own_witness :
  let signin e pw := Scenario.login_request e pw false "10.0.0.1" in
  let w1 := snd (UserService.login (signin "alice@example.com" "Secret123!") Scenario.start) in
  let w2 := snd (UserService.login (signin "bob@example.com" "Hunter2!") w1) in
  let req := authenticated "u1" Scenario.token_day
               (Scenario.with_bearer Scenario.token_day "10.0.0.1") in
  fst (UserService.getActiveSessions req w2)
  = Ok (Some [UserService.SessionView "sha256.jwt.u1.day.1000" "10.0.0.1" "agent"
                87400000 true])
  /\ db (snd (UserService.getActiveSessions req w2)) = db w2.
Proof.
  intros signin w1 w2 req.
  destruct (sessions_listed_are_the_own req w2 "u1") as (l & _ & Hdb & _);
    [ vm_compute; reflexivity
    | apply sessions_wfb_spec; vm_compute; reflexivity
    | reflexivity | ].
  split; [vm_compute; reflexivity | exact Hdb].
Defined.
